(** * OPC UA binary codec ([opcua/ua/ua_binary.py]): a shallow embedding

    The Python module is embedded function by function.  Python integers are
    [Z], byte strings are lists of [byte], text is a list of Unicode code
    points, exceptions are an explicit error type and the cursor the decoders
    read from is threaded through a small state-and-error monad.  Objects
    the encoders mutate in place are returned next to the bytes they
    produced, so that every write to a caller-owned value is visible in the
    result; a second form of the encoders gives the object as the call
    leaves it also when the call raises.  The [print] tracing of the module
    is not modelled. *)

From Stdlib Require Import ZArith Lia.
From Stdlib.Strings Require Import Byte.
From stdpp Require Import base relations gmap strings list.

Open Scope Z_scope.

(** ** Bytes, exceptions and results *)

Abbreviation bytes := (list byte).

#[export] Instance byte_eq_decision : EqDecision byte := Byte.byte_eq_dec.

Definition byte_val (b : byte) : Z := Z.of_N (Byte.to_N b).

Definition byte_of_Z (z : Z) : byte :=
  match Byte.of_N (Z.to_N z) with
  | Some b => b
  | None => x00
  end.

(** The Python exceptions the module can raise or let through.  [UaError] is
    the only one the module raises itself; [FuelExhausted] is not a Python
    exception but the model's bound on the recursion depth. *)
Inductive exn :=
  | UaError (msg : string)
  | ValueError
  | TypeError
  | AttributeError
  | IndexError
  | KeyError
  | StructError
  | UnicodeError
  | OverflowError
  | NotEnoughData
  | FuelExhausted.

Inductive result (A : Type) :=
  | Ok (a : A)
  | Err (e : exn).
Arguments Ok {A} a.
Arguments Err {A} e.

#[export] Instance result_ret : MRet result := fun A a => Ok a.
#[export] Instance result_bind : MBind result := fun A B f m =>
  match m with
  | Ok a => f a
  | Err e => Err e
  end.
#[export] Instance result_fmap : FMap result := fun A B f m =>
  match m with
  | Ok a => Ok (f a)
  | Err e => Err e
  end.

(** [[f(x) for x in l]]: left to right, the first exception aborts. *)
Fixpoint mapR {A B} (f : A -> result B) (l : list A) : result (list B) :=
  match l with
  | [] => Ok []
  | x :: r =>
      match f x with
      | Ok y => match mapR f r with Ok ys => Ok (y :: ys) | Err e => Err e end
      | Err e => Err e
      end
  end.

(** ** The cursor *)

(** Modelled from the spec: the cursor ([opcua.common.utils.Buffer]) is
    outside this module.  It is an ordered byte source, here the list of the
    bytes not read yet; [read n] returns exactly [n] bytes and advances, or
    fails; [skip n] advances over [n] bytes; [copy n] is an independent
    sub-view bounded by [n] that leaves the position alone. *)
Definition Buffer := bytes.

Definition dec (A : Type) : Type := Buffer -> result (A * Buffer).

#[export] Instance dec_ret : MRet dec := fun A a s => Ok (a, s).
#[export] Instance dec_bind : MBind dec := fun A B f m s =>
  match m s with
  | Ok (a, s') => f a s'
  | Err e => Err e
  end.

#[export] Instance dec_fmap : FMap dec := fun A B f m s =>
  match m s with
  | Ok (a, s') => Ok (f a, s')
  | Err e => Err e
  end.

Definition raise {A} (e : exn) : dec A := fun _ => Err e.
Definition lift {A} (r : result A) : dec A := fun s =>
  match r with Ok a => Ok (a, s) | Err e => Err e end.

Definition Buffer_read (n : Z) : dec bytes := fun s =>
  if (n <? 0) || (Z.of_nat (length s) <? n) then Err NotEnoughData
  else Ok (take (Z.to_nat n) s, drop (Z.to_nat n) s).

Definition Buffer_skip (n : Z) : dec unit := fun s =>
  if (n <? 0) || (Z.of_nat (length s) <? n) then Err NotEnoughData
  else Ok (tt, drop (Z.to_nat n) s).

Definition Buffer_copy (n : Z) : dec Buffer := fun s =>
  Ok (take (Z.to_nat n) s, s).

(** [ord(data.read(1))]: [ord] of anything but one byte is a [TypeError]. *)
Definition read_ord : dec Z := fun s =>
  match Buffer_read 1 s with
  | Ok ([b], s') => Ok (byte_val b, s')
  | Ok (_, _) => Err TypeError
  | Err e => Err e
  end.

(** [[f(data) for _ in range(n)]]: [range] of a count below one is empty. *)
Fixpoint dec_repeat {A} (n : nat) (m : dec A) : dec (list A) :=
  match n with
  | O => mret []
  | S n' => x ← m; xs ← dec_repeat n' m; mret (x :: xs)
  end.

(** ** Bit flag helpers *)

Definition test_bit (data offset : Z) : Z := Z.land data (Z.shiftl 1 offset).
Definition set_bit (data offset : Z) : Z := Z.lor data (Z.shiftl 1 offset).
Definition unset_bit (data offset : Z) : Z :=
  Z.land data (Z.lnot (Z.shiftl 1 offset)).

(** ** [struct.pack] / [struct.unpack], little endian *)

Fixpoint le_bytes (w : nat) (v : Z) : bytes :=
  match w with
  | O => []
  | S w' => byte_of_Z (v mod 256) :: le_bytes w' (v / 256)
  end.

Fixpoint le_val (bs : bytes) : Z :=
  match bs with
  | [] => 0
  | b :: r => byte_val b + 256 * le_val r
  end.

Definition be_bytes (w : nat) (v : Z) : bytes := reverse (le_bytes w v).
Definition be_val (bs : bytes) : Z := le_val (reverse bs).

Definition bits_of (w : nat) : Z := 8 * Z.of_nat w.

(** [struct.pack("<B" | "<H" | "<I" | "<Q", v)] on an integer. *)
Definition pack_uint (w : nat) (v : Z) : result bytes :=
  if (0 <=? v) && (v <? 2 ^ bits_of w) then Ok (le_bytes w v)
  else Err StructError.

(** [struct.pack("<b" | "<h" | "<i" | "<q", v)] on an integer. *)
Definition pack_sint (w : nat) (v : Z) : result bytes :=
  if (- 2 ^ (bits_of w - 1) <=? v) && (v <? 2 ^ (bits_of w - 1))
  then Ok (le_bytes w (v mod 2 ^ bits_of w))
  else Err StructError.

Definition to_signed (w : nat) (u : Z) : Z :=
  if u <? 2 ^ (bits_of w - 1) then u else u - 2 ^ bits_of w.

Definition unpack_uint (w : nat) : dec Z :=
  bs ← Buffer_read (Z.of_nat w); mret (le_val bs).

Definition unpack_sint (w : nat) : dec Z :=
  bs ← Buffer_read (Z.of_nat w); mret (to_signed w (le_val bs)).

(** ** UTF-8 ([str.encode('utf-8')], [bytes.decode("utf-8")]) *)

(** A Python [str]: its code points. *)
Abbreviation text := (list Z).

Definition cont (c : Z) : byte := byte_of_Z (Z.lor 128 (Z.land c 63)).

Definition utf8_encode_char (c : Z) : result bytes :=
  if c <? 0 then Err UnicodeError
  else if c <? 128 then Ok [byte_of_Z c]
  else if c <? 2048 then Ok [byte_of_Z (Z.lor 192 (Z.shiftr c 6)); cont c]
  else if c <? 65536 then
    if (55296 <=? c) && (c <=? 57343) then Err UnicodeError
    else Ok [byte_of_Z (Z.lor 224 (Z.shiftr c 12)); cont (Z.shiftr c 6); cont c]
  else if c <? 1114112 then
    Ok [byte_of_Z (Z.lor 240 (Z.shiftr c 18)); cont (Z.shiftr c 12);
        cont (Z.shiftr c 6); cont c]
  else Err UnicodeError.

Definition utf8_encode (s : text) : result bytes :=
  (fun l => concat l) <$> mapR utf8_encode_char s.

Definition in_range (lo hi : Z) (b : byte) : bool :=
  (lo <=? byte_val b) && (byte_val b <=? hi).

Definition low6 (b : byte) : Z := Z.land (byte_val b) 63.

Fixpoint utf8_decode (bs : bytes) : result text :=
  match bs with
  | [] => Ok []
  | b0 :: r0 =>
      let v0 := byte_val b0 in
      if v0 <? 128 then cons v0 <$> utf8_decode r0
      else if in_range 194 223 b0 then
        match r0 with
        | b1 :: r1 =>
            if in_range 128 191 b1
            then cons (Z.lor (Z.shiftl (Z.land v0 31) 6) (low6 b1)) <$> utf8_decode r1
            else Err UnicodeError
        | _ => Err UnicodeError
        end
      else if in_range 224 239 b0 then
        match r0 with
        | b1 :: b2 :: r2 =>
            let lo := if v0 =? 224 then 160 else 128 in
            let hi := if v0 =? 237 then 159 else 191 in
            if in_range lo hi b1 && in_range 128 191 b2
            then cons (Z.lor (Z.shiftl (Z.land v0 15) 12)
                         (Z.lor (Z.shiftl (low6 b1) 6) (low6 b2))) <$> utf8_decode r2
            else Err UnicodeError
        | _ => Err UnicodeError
        end
      else if in_range 240 244 b0 then
        match r0 with
        | b1 :: b2 :: b3 :: r3 =>
            let lo := if v0 =? 240 then 144 else 128 in
            let hi := if v0 =? 244 then 143 else 191 in
            if in_range lo hi b1 && in_range 128 191 b2 && in_range 128 191 b3
            then cons (Z.lor (Z.shiftl (Z.land v0 7) 18)
                         (Z.lor (Z.shiftl (low6 b1) 12)
                            (Z.lor (Z.shiftl (low6 b2) 6) (low6 b3)))) <$> utf8_decode r3
            else Err UnicodeError
        | _ => Err UnicodeError
        end
      else Err UnicodeError
  end.

(** ** Time conversion *)

(** A [datetime] is modelled by its position on the proleptic Gregorian time
    line: the microseconds since 0001-01-01T00:00:00, the smallest value the
    Python type holds.  [datetime_of] is the constructor from calendar
    fields, after [datetime.toordinal]. *)
Definition is_leap (y : Z) : bool :=
  ((y mod 4 =? 0) && negb (y mod 100 =? 0)) || (y mod 400 =? 0).

Definition days_before_year (y : Z) : Z :=
  let y' := y - 1 in y' * 365 + y' / 4 - y' / 100 + y' / 400.

Definition days_in_month (y m : Z) : Z :=
  if m =? 2 then (if is_leap y then 29 else 28)
  else if (m =? 4) || (m =? 6) || (m =? 9) || (m =? 11) then 30 else 31.

Definition days_before_month (y m : Z) : Z :=
  foldr Z.add 0 (map (days_in_month y) (map Z.of_nat (seq 1 (Z.to_nat (m - 1))))).

Definition ymd2ord (y m d : Z) : Z :=
  days_before_year y + days_before_month y m + d.

Definition US_PER_DAY : Z := 86400000000.

Definition datetime_of (y m d hh mm ss us : Z) : Z :=
  (ymd2ord y m d - 1) * US_PER_DAY + ((hh * 60 + mm) * 60 + ss) * 1000000 + us.

Definition MAXYEAR : Z := 9999.
Definition datetime_max : Z := datetime_of MAXYEAR 12 31 23 59 59 999999.

(** [timedelta(microseconds=us)]: the day count is bounded. *)
Definition timedelta_microseconds (us : Z) : result Z :=
  if (Z.abs (us / US_PER_DAY) <=? 999999999) then Ok us else Err OverflowError.

(** [datetime + timedelta]: a result outside the type's range is an
    [OverflowError]. *)
Definition datetime_add (dt delta : Z) : result Z :=
  let r := dt + delta in
  if (0 <=? r) && (r <=? datetime_max) then Ok r else Err OverflowError.

Definition EPOCH_AS_FILETIME : Z := 116444736000000000.
Definition HUNDREDS_OF_NANOSECONDS : Z := 10000000.
Definition FILETIME_EPOCH_AS_DATETIME : Z := datetime_of 1601 1 1 0 0 0 0.

(** [timegm(dt.timetuple())]: whole seconds since 1970-01-01. *)
Definition timegm (dt : Z) : Z :=
  dt / 1000000 - datetime_of 1970 1 1 0 0 0 0 / 1000000.

Definition datetime_to_win_epoch (dt : Z) : Z :=
  let ft := EPOCH_AS_FILETIME + timegm dt * HUNDREDS_OF_NANOSECONDS in
  ft + (dt mod 1000000) * 10.

(** A record of the module's logger. *)
Inductive log_record :=
  | LogWarning (msg : string) (arg : Z).

(** The [try] covers the [timedelta] constructor and the addition; only
    their [OverflowError] is caught.  The second component of the result is
    what was logged. *)
Definition win_epoch_to_datetime (epch : Z) : result (Z * list log_record) :=
  match delta ← timedelta_microseconds (epch / 10);
        datetime_add FILETIME_EPOCH_AS_DATETIME delta with
  | Ok dt => Ok (dt, [])
  | Err OverflowError =>
      Ok (datetime_of MAXYEAR 12 31 23 59 59 999999,
          [LogWarning "datetime overflow: %s" epch])
  | Err e => Err e
  end.

(** ** The data model *)

(** Modelled from the spec: the [NodeIdType] enumeration of the data-model
    package, with the six members and the ordinals of the spec's section 6.
    Calling a Python enumeration class on a number that is no member's value
    raises [ValueError].  [Other v] is what else a NodeId can hold as its
    [NodeIdType] (the codec's last branches take it): an object that is none
    of the six members, known by its [.value]; the enumeration class never
    returns it. *)
Module NodeIdType.
Inductive t :=
  | TwoByte | FourByte | Numeric | String | Guid | ByteString
  | Other (value : Z).

Definition value (x : t) : Z :=
  match x with
  | TwoByte => 0 | FourByte => 1 | Numeric => 2
  | String => 3 | Guid => 4 | ByteString => 5
  | Other v => v
  end.

Definition of_value (v : Z) : result t :=
  if v =? 0 then Ok TwoByte
  else if v =? 1 then Ok FourByte
  else if v =? 2 then Ok Numeric
  else if v =? 3 then Ok String
  else if v =? 4 then Ok Guid
  else if v =? 5 then Ok ByteString
  else Err ValueError.
End NodeIdType.

(** The shapes a NodeId's [Identifier] takes: a number, text, raw bytes, a
    UUID (its 128-bit integer) or [None]; or an object of a class of its
    own, known to this module by what its [to_binary()] returns. *)
Inductive ident :=
  | IdNone
  | IdInt (z : Z)
  | IdStr (s : text)
  | IdBytes (b : bytes)
  | IdGuid (int : Z)
  | IdObj (to_binary : result bytes).

Record NodeId := mkNodeId {
  NodeIdType : NodeIdType.t;
  NamespaceIndex : Z;
  Identifier : ident;
  NamespaceUri : option text;
  ServerIndex : option Z
}.

(** A member of the [VariantType] enumeration: its name and its ordinal. *)
Record vtype := mkVtype { vt_name : string; vt_value : Z }.

Record Variant_ (V : Type) := mkVariant {
  Value : V;
  VariantType : vtype;
  Dimensions : option (list Z);
  is_array : bool
}.
Arguments mkVariant {V}.
Arguments Value {V}.
Arguments VariantType {V}.
Arguments Dimensions {V}.
Arguments is_array {V}.

Record Header := mkHeader {
  MessageType : bytes;
  ChunkType : bytes;
  body_size : Z;
  packet_size : Z;
  ChannelId : Z
}.

Record ExtensionObject := mkExtensionObject {
  TypeId : NodeId;
  Encoding : Z;
  Body : option bytes
}.

(** What a structured-record class declares: its ordered [ua_types] and,
    when it has optional fields, its [ua_switches] (in the dictionary's
    iteration order). *)
Record klass := mkKlass {
  k_name : string;
  ua_types : list (string * string);
  ua_switches : option (list (string * (string * Z)))
}.

(** Python values.  [VFloat] is a float, by the bits of its IEEE-754
    binary64 form; [VEnum] is a member of some other enumeration ([true]
    for an [IntEnum]); [VObj] is an instance of a structured-record class
    with its attribute dictionary. *)
#[warnings="-register-all"]
Inductive val :=
  | VNone
  | VBool (b : bool)
  | VInt (z : Z)
  | VStr (s : text)
  | VBytes (b : bytes)
  | VList (l : list val)
  | VTuple (l : list val)
  | VDateTime (us : Z)
  | VGuid (int : Z)
  | VFloat (bits : Z)
  | VEnum (int_enum : bool) (value : Z)
  | VNodeId (n : NodeId)
  | VVariant (v : Variant_ val)
  | VHeader (h : Header)
  | VExtensionObject (e : ExtensionObject)
  | VObj (k : klass) (attrs : gmap string val).

Abbreviation Variant := (Variant_ val).

Definition val_of_ident (i : ident) : option val :=
  match i with
  | IdNone => Some VNone
  | IdInt z => Some (VInt z)
  | IdStr s => Some (VStr s)
  | IdBytes b => Some (VBytes b)
  | IdGuid g => Some (VGuid g)
  | IdObj _ => None
  end.

(** An integer argument of [struct.pack]. *)
Definition as_int (v : val) : result Z :=
  match v with
  | VInt z => Ok z
  | VBool b => Ok (if b then 1 else 0)
  | VEnum true z => Ok z
  | _ => Err StructError
  end.

(** [bool(v)]: [None], zero, the empty text, bytes and sequences are
    false; a member of an [IntEnum] is its number, a member of another
    enumeration is true; a float is false when it is 0.0 or -0.0. *)
Definition truthy (v : val) : bool :=
  match v with
  | VNone => false
  | VBool b => b
  | VInt z => negb (z =? 0)
  | VStr s => negb (bool_decide (s = []))
  | VBytes b => negb (bool_decide (b = []))
  | VList l | VTuple l => match l with [] => false | _ => true end
  | VFloat bits => negb ((bits =? 0) || (bits =? 2 ^ 63))
  | VEnum true z => negb (z =? 0)
  | _ => true
  end.

(** [len(v)] and iteration: the elements of a list or a tuple, the
    one-character texts of a text, the numbers of a bytes value. *)
Definition as_seq (v : val) : result (list val) :=
  match v with
  | VList l | VTuple l => Ok l
  | VStr s => Ok ((fun c => VStr [c]) <$> s)
  | VBytes b => Ok ((fun x => VInt (byte_val x)) <$> b)
  | _ => Err TypeError
  end.

Definition is_None (v : val) : bool :=
  match v with VNone => true | _ => false end.

(** ** The primitive codec set *)

(** An instance of [_Primitive]: its [pack] and [unpack] methods. *)
Record codec := mkCodec {
  pack : val -> result bytes;
  unpack : dec val
}.

Definition ABSENT : bytes := [xff; xff; xff; xff].

Module Primitives.

(** [_Primitive1(fmt)] for the integer formats. *)
Definition sint (w : nat) : codec :=
  mkCodec (fun v => z ← as_int v; pack_sint w z) (VInt <$> unpack_sint w).
Definition uint (w : nat) : codec :=
  mkCodec (fun v => z ← as_int v; pack_uint w z) (VInt <$> unpack_uint w).

Definition Int8 := sint 1.
Definition Int16 := sint 2.
Definition Int32 := sint 4.
Definition Int64 := sint 8.
Definition UInt8 := uint 1.
Definition UInt16 := uint 2.
Definition UInt32 := uint 4.
Definition UInt64 := uint 8.

(** [_Primitive1("<?")]. *)
Definition Boolean : codec :=
  mkCodec (fun v => Ok [if truthy v then x01 else x00])
          (z ← unpack_uint 1; mret (VBool (negb (z =? 0)))).

Definition Int32_unpack : dec Z := unpack_sint 4.
Definition Int32_pack (z : Z) : result bytes := pack_sint 4 z.

(** [_Primitive.pack_array]. *)
Definition pack_array (self : codec) (array : val) : result bytes :=
  match array with
  | VNone => Ok ABSENT
  | _ =>
      l ← as_seq array;
      b ← mapR (pack self) l;
      h ← Int32_pack (Z.of_nat (length l));
      Ok (h ++ concat b)
  end.

(** [_Primitive.unpack_array]. *)
Definition unpack_array (self : codec) : dec val :=
  length ← Int32_unpack;
  if length =? -1 then mret VNone
  else if length =? 0 then mret (VList [])
  else VList <$> dec_repeat (Z.to_nat length) (unpack self).

(** [_DateTime]. *)
Definition DateTime : codec :=
  mkCodec (fun dt => match dt with
                     | VDateTime us => pack_sint 8 (datetime_to_win_epoch us)
                     | _ => Err AttributeError
                     end)
          (epch ← unpack_sint 8;
          dt ← lift (win_epoch_to_datetime epch);
          mret (VDateTime (fst dt))).

(** [_String.pack]; under Python 3, where [unicode] is [str]. *)
Definition String_pack (string : val) : result bytes :=
  match string with
  | VNone => Int32_pack (-1)
  | VStr s =>
      b ← utf8_encode s;
      h ← Int32_pack (Z.of_nat (length b));
      Ok (h ++ b)
  | VBytes b =>
      h ← Int32_pack (Z.of_nat (length b));
      Ok (h ++ b)
  | _ => Err TypeError
  end.

(** [_Bytes.unpack]; the result is [None] or the raw bytes. *)
Definition Bytes_unpack : dec (option bytes) :=
  length ← Int32_unpack;
  if length =? -1 then mret None
  else Some <$> Buffer_read length.

(** [_String.unpack]. *)
Definition String_unpack : dec (option text) :=
  b ← Bytes_unpack;
  match b with
  | None => mret None
  | Some b => Some <$> lift (utf8_decode b)
  end.

Definition String : codec :=
  mkCodec String_pack (from_option VStr VNone <$> String_unpack).
Definition Bytes : codec :=
  mkCodec String_pack (from_option VBytes VNone <$> Bytes_unpack).

(** [_Null]. *)
Definition Null : codec := mkCodec (fun _ => Ok []) (mret VNone).

(** [_Guid]: the UUID's fields, cut out of its 128-bit integer. *)
Definition field (int : Z) (shift width : Z) : Z :=
  Z.land (Z.shiftr int shift) (2 ^ width - 1).

Definition Guid_pack (guid : val) : result bytes :=
  match guid with
  | VGuid g =>
      f1 ← pack_uint 4 (field g 96 32);
      f2 ← pack_uint 2 (field g 80 16);
      f3 ← pack_uint 2 (field g 64 16);
      f4a ← pack_uint 1 (field g 56 8);
      f4b ← pack_uint 1 (field g 48 8);
      let f4c := drop 2 (be_bytes 8 (field g 0 48)) in
      Ok (f1 ++ f2 ++ f3 ++ f4a ++ f4b ++ f4c)
  | _ => Err AttributeError
  end.

Definition Guid_unpack : dec Z :=
  f1 ← unpack_uint 4;
  f2 ← unpack_uint 2;
  f3 ← unpack_uint 2;
  f4 ← Buffer_read 8;
  mret (be_val (be_bytes 4 f1 ++ be_bytes 2 f2 ++ be_bytes 2 f3 ++ f4)).

Definition Guid : codec := mkCodec Guid_pack (VGuid <$> Guid_unpack).

End Primitives.

(** ** What the module takes from the rest of the package *)

(** The Float and Double codecs are IEEE-754 conversions of [struct]; the
    classes, the registries and the methods the module calls on the values
    it is handed are defined elsewhere in the package.  They are parameters
    of the embedding. *)
Record ua_package := mkUa {
  Float_codec : codec;
  Double_codec : codec;
  (** [getattr(ua, name)]: the structured-record class of that name *)
  ua_getattr : string -> option klass;
  (** [klass()]: the attributes of a fresh, zero-valued instance *)
  klass_new : klass -> gmap string val;
  (** [klass.from_binary(data)] *)
  klass_from_binary : klass -> dec val;
  (** [value.to_binary()] of a value that is no structured record: the
      value as the call leaves it, and the bytes or the exception *)
  value_to_binary : val -> val * result bytes;
  (** [ua.ExtensionObject.to_binary] *)
  ExtensionObject_to_binary : ExtensionObject -> result bytes;
  extension_object_classes : NodeId -> option klass;
  extension_object_ids : string -> option NodeId;
  datatype_to_varianttype : Z -> result vtype;
  (** [ua.VariantType.Int32] *)
  VariantType_Int32 : vtype;
  (** what the constructor [ua.NodeId()] gives [NamespaceUri] and
      [ServerIndex] *)
  NodeId_NamespaceUri : option text;
  NodeId_ServerIndex : option Z;
  (** what the constructor [ua.Header()] gives [ChannelId] *)
  Header_ChannelId : Z
}.

(** Modelled from the spec: [ua.NodeId()] is the zero NodeId (TwoByte,
    namespace 0, Identifier 0); what its constructor puts in the two
    extended fields is the package's. *)
Definition NodeId_new (ua : ua_package) : NodeId :=
  mkNodeId NodeIdType.TwoByte 0 (IdInt 0)
    (NodeId_NamespaceUri ua) (NodeId_ServerIndex ua).

(** Modelled from the spec: [ua.flatten] gives a fully flattened copy of a
    nested sequence; [None] stays [None]. *)
Fixpoint leaves (v : val) : list val :=
  match v with
  | VList l | VTuple l => concat (map leaves l)
  | _ => [v]
  end.

Definition flatten (v : val) : val :=
  match v with
  | VList _ | VTuple _ => VList (leaves v)
  | _ => v
  end.

(** The elements [ua.flatten] copies out of a nested sequence are the very
    objects the sequence holds: [refill v ls] is [v] once its leaves have
    become [ls], as an in-place change of the leaves leaves it. *)
Fixpoint refill (v : val) (ls : list val) {struct v} : val * list val :=
  let fix go (l : list val) (ls : list val) {struct l} : list val * list val :=
    match l with
    | [] => ([], ls)
    | x :: r =>
        let '(x', ls1) := refill x ls in
        let '(r', ls2) := go r ls1 in
        (x' :: r', ls2)
    end in
  match v with
  | VList l => let '(l', ls') := go l ls in (VList l', ls')
  | VTuple l => let '(l', ls') := go l ls in (VTuple l', ls')
  | _ => match ls with y :: r => (y, r) | [] => (v, []) end
  end.

(** The inner loop of [refill], by itself. *)
Definition refill_list : list val -> list val -> list val * list val :=
  fix go (l : list val) (ls : list val) {struct l} : list val * list val :=
    match l with
    | [] => ([], ls)
    | x :: r =>
        let '(x', ls1) := refill x ls in
        let '(r', ls2) := go r ls1 in
        (x' :: r', ls2)
    end.

(** Modelled from the spec: the three secure-channel members of
    [ua.MessageType], by their conventional wire codes. *)
Definition SecureOpen : bytes := [x4f; x50; x4e].
Definition SecureClose : bytes := [x43; x4c; x4f].
Definition SecureMessage : bytes := [x4d; x53; x47].

Definition is_secure (mt : bytes) : bool :=
  bool_decide (mt = SecureOpen) || bool_decide (mt = SecureClose)
  || bool_decide (mt = SecureMessage).

(** [struct.pack] of an ["Ns"] field: cut or zero-padded to [n] bytes. *)
Definition pack_s (n : nat) (b : bytes) : bytes :=
  take n b ++ replicate (n - length b) x00.

Definition startswith (p s : string) : bool :=
  bool_decide (String.substring 0 (String.length p) s = p).

Definition drop6 (s : string) : string :=
  String.substring 6 (String.length s - 6) s.

(** [type(obj).__name__], for the look-up in [ua.extension_object_ids]. *)
Definition class_name (v : val) : string :=
  match v with
  | VNone => "NoneType"
  | VBool _ => "bool"
  | VInt _ => "int"
  | VStr _ => "str"
  | VBytes _ => "bytes"
  | VList _ => "list"
  | VTuple _ => "tuple"
  | VDateTime _ => "datetime"
  | VGuid _ => "UUID"
  | VFloat _ => "float"
  | VEnum _ _ => "Enum"
  | VNodeId _ => "NodeId"
  | VVariant _ => "Variant"
  | VHeader _ => "Header"
  | VExtensionObject _ => "ExtensionObject"
  | VObj k _ => k_name k
  end.

(** [getattr(obj, name)] on an instance's attribute dictionary. *)
Definition getattr (attrs : gmap string val) (name : string) : result val :=
  match attrs !! name with
  | Some v => Ok v
  | None => Err AttributeError
  end.

(** [container_val | 1 << idx]. *)
Definition or_bit (container_val : val) (idx : Z) : result val :=
  if idx <? 0 then Err ValueError
  else match container_val with
       | VInt c => Ok (VInt (Z.lor c (Z.shiftl 1 idx)))
       | VBool b => Ok (VInt (Z.lor (if b then 1 else 0) (Z.shiftl 1 idx)))
       | _ => Err TypeError
       end.

(** [test_bit(val, idx)] on an attribute, as a truth value. *)
Definition test_bit_val (v : val) (idx : Z) : result bool :=
  if idx <? 0 then Err ValueError
  else match v with
       | VInt c => Ok (negb (test_bit c idx =? 0))
       | VBool b => Ok (negb (test_bit (if b then 1 else 0) idx =? 0))
       | _ => Err TypeError
       end.

(** A dictionary in its iteration order: the look-up by key. *)
Fixpoint assoc {A} (name : string) (l : list (string * A)) : option A :=
  match l with
  | [] => None
  | (k, v) :: r => if decide (k = name) then Some v else assoc name r
  end.

(** ** The NodeId codec *)

Definition nodeid_header (w : nat) (n : NodeId) : result bytes :=
  t ← pack_uint 1 (NodeIdType.value (NodeIdType n));
  ns ← pack_uint w (NamespaceIndex n);
  Ok (t ++ ns).

Definition ident_int (i : ident) : result Z :=
  match i with IdInt z => Ok z | _ => Err StructError end.

(** A codec's [pack] on the Identifier; on an object of a class of its own
    the String codec fails on [len] ([TypeError]) and the Guid codec on the
    first UUID field ([AttributeError]). *)
Definition pack_ident (pack : val -> result bytes) (e : exn) (i : ident)
    : result bytes :=
  match val_of_ident i with
  | Some v => pack v
  | None => Err e
  end.

(** [nodeid.Identifier.to_binary()]: the built-in shapes have no such
    method. *)
Definition ident_to_binary (i : ident) : result bytes :=
  match i with
  | IdObj r => r
  | _ => Err AttributeError
  end.

Definition nodeid_to_binary (nodeid : NodeId) : result bytes :=
  match NodeIdType nodeid with
  | NodeIdType.TwoByte =>
      t ← pack_uint 1 (NodeIdType.value (NodeIdType nodeid));
      z ← ident_int (Identifier nodeid);
      i ← pack_uint 1 z;
      Ok (t ++ i)
  | NodeIdType.FourByte =>
      h ← nodeid_header 1 nodeid;
      z ← ident_int (Identifier nodeid);
      i ← pack_uint 2 z;
      Ok (h ++ i)
  | NodeIdType.Numeric =>
      h ← nodeid_header 2 nodeid;
      z ← ident_int (Identifier nodeid);
      i ← pack_uint 4 z;
      Ok (h ++ i)
  | NodeIdType.String =>
      h ← nodeid_header 2 nodeid;
      i ← pack_ident Primitives.String_pack TypeError (Identifier nodeid);
      Ok (h ++ i)
  | NodeIdType.ByteString =>
      h ← nodeid_header 2 nodeid;
      i ← pack_ident Primitives.String_pack TypeError (Identifier nodeid);
      Ok (h ++ i)
  | NodeIdType.Guid =>
      h ← nodeid_header 2 nodeid;
      i ← pack_ident Primitives.Guid_pack AttributeError (Identifier nodeid);
      Ok (h ++ i)
  | NodeIdType.Other _ =>
      h ← nodeid_header 2 nodeid;
      i ← ident_to_binary (Identifier nodeid);
      Ok (h ++ i)
  end.

Definition set_type_ident (n : NodeId) (ns : Z) (i : ident) : NodeId :=
  mkNodeId (NodeIdType n) ns i (NamespaceUri n) (ServerIndex n).

Definition nodeid_from_binary (ua : ua_package) : dec NodeId :=
  let nid := NodeId_new ua in
  encoding ← read_ord;
  t ← lift (NodeIdType.of_value (Z.land encoding 63));
  let nid := mkNodeId t (NamespaceIndex nid) (Identifier nid)
               (NamespaceUri nid) (ServerIndex nid) in
  nid ← match t with
        | NodeIdType.TwoByte =>
            i ← read_ord; mret (set_type_ident nid (NamespaceIndex nid) (IdInt i))
        | NodeIdType.FourByte =>
            b ← Buffer_read 3;
            mret (set_type_ident nid (le_val (take 1 b)) (IdInt (le_val (drop 1 b))))
        | NodeIdType.Numeric =>
            b ← Buffer_read 6;
            mret (set_type_ident nid (le_val (take 2 b)) (IdInt (le_val (drop 2 b))))
        | NodeIdType.String =>
            ns ← unpack_uint 2;
            s ← Primitives.String_unpack;
            mret (set_type_ident nid ns (from_option IdStr IdNone s))
        | NodeIdType.ByteString =>
            ns ← unpack_uint 2;
            b ← Primitives.Bytes_unpack;
            mret (set_type_ident nid ns (from_option IdBytes IdNone b))
        | NodeIdType.Guid =>
            ns ← unpack_uint 2;
            g ← Primitives.Guid_unpack;
            mret (set_type_ident nid ns (IdGuid g))
        | NodeIdType.Other _ => raise (UaError "Unknown NodeId encoding")
        end;
  nid ← (if test_bit encoding 7 =? 0 then mret nid
         else uri ← Primitives.String_unpack;
              mret (mkNodeId (NodeIdType nid) (NamespaceIndex nid) (Identifier nid)
                      uri (ServerIndex nid)));
  if test_bit encoding 6 =? 0 then mret nid
  else srv ← unpack_uint 4;
       mret (mkNodeId (NodeIdType nid) (NamespaceIndex nid) (Identifier nid)
               (NamespaceUri nid) (Some srv)).

(** ** The message header codec *)

Definition header_to_binary (hdr : Header) : result bytes :=
  let b := pack_s 3 (MessageType hdr) ++ pack_s 1 (ChunkType hdr) in
  let size := body_size hdr + 8 in
  let size := if is_secure (MessageType hdr) then size + 4 else size in
  s ← pack_uint 4 size;
  if is_secure (MessageType hdr)
  then c ← pack_uint 4 (ChannelId hdr); Ok (b ++ s ++ c)
  else Ok (b ++ s).

Definition header_from_string (ua : ua_package) : dec Header :=
  b ← Buffer_read 8;
  let mt := take 3 b in
  let ct := take 1 (drop 3 b) in
  let packet_size := le_val (drop 4 b) in
  if is_secure mt
  then c ← unpack_uint 4; mret (mkHeader mt ct (packet_size - 8 - 4) packet_size c)
  else mret (mkHeader mt ct (packet_size - 8) packet_size (Header_ChannelId ua)).

(** ** Reshaping a flat array *)

Definition subsize_of (subdims : list Z) : Z :=
  foldl (fun subsize i => subsize * (if i =? 0 then 1 else i)) 1 subdims.

(** The [while] loop: one empty list appended per missing element. *)
Definition pad (d0 subsize : Z) (flat : list val) : list val :=
  flat ++ replicate (Z.to_nat (d0 * subsize - Z.of_nat (length flat))) (VList []).

(** [range(0, stop, step)] for a step that is not zero. *)
Definition range_step (stop step : Z) : list Z :=
  if 0 <? step
  then map (fun k => Z.of_nat k * step) (seq 0 (Z.to_nat ((stop + step - 1) / step)))
  else [].

(** [flat[i: i + subsize]] for an [i] and a [subsize] that are not negative. *)
Definition slice (flat : list val) (i subsize : Z) : list val :=
  take (Z.to_nat subsize) (drop (Z.to_nat i) flat).

(** [reshape(flat, dims)]: the result and the list [flat] as the call leaves
    it (the placeholders are appended to the caller's list). *)
Fixpoint reshape (flat : list val) (dims : list Z) {struct dims}
    : result (val * list val) :=
  match dims with
  | [] => Err IndexError
  | d0 :: subdims =>
      let subsize := subsize_of subdims in
      let flat' := pad d0 subsize flat in
      if bool_decide (subdims = []) || bool_decide (subdims = [0])
      then Ok (VList flat', flat')
      else
        r ← mapR (fun i => fst <$> reshape (slice flat' i subsize) subdims)
              (range_step (Z.of_nat (length flat')) subsize);
        Ok (VList r, flat')
  end.

(** The slice size as the spec words it, for comparison with the loop of
    [reshape]: the product of the extents after the first, any zero extent
    counted as one. *)
Definition spec_slice_size (subdims : list Z) : Z :=
  fold_right Z.mul 1 ((fun d => if d =? 0 then 1 else d) <$> subdims).

(** ** The dispatcher, the generic value codec, Variant and ExtensionObject *)

(** What the first argument of [from_binary] and [struct_from_binary] can
    be at run time: a type tag, the cursor object itself, or a class. *)
Inductive pyobj :=
  | PStr (s : string)
  | PBuffer
  | PClassNodeId
  | PClassVariant
  | PClass (k : klass).

(** A call that uses [data] as the cursor: anything but the cursor has no
    [read]. *)
Definition with_buffer {A} (data : pyobj) (m : dec A) : dec A :=
  match data with
  | PBuffer => m
  | _ => raise AttributeError
  end.

Fixpoint dec_foldl {A B} (f : A -> B -> dec A) (a : A) (l : list B) : dec A :=
  match l with
  | [] => mret a
  | x :: r => a' ← f a x; dec_foldl f a' r
  end.

Fixpoint foldlR {A B} (f : A -> B -> result A) (a : A) (l : list B) : result A :=
  match l with
  | [] => Ok a
  | x :: r => a' ← f a x; foldlR f a' r
  end.

Definition is_seq (v : val) : bool :=
  match v with VList _ | VTuple _ => true | _ => false end.

(** The sequence [v] once its elements have become [l]; a text or a bytes
    value holds no objects and stays as it is. *)
Definition same_seq (v : val) (l : list val) : val :=
  match v with
  | VTuple _ => VTuple l
  | VList _ => VList l
  | _ => v
  end.

Definition refill_val (v flat : val) : val :=
  match flat with
  | VList l | VTuple l => fst (refill v l)
  | _ => v
  end.

(** [typeid.Identifier == 0]. *)
Definition ident_is_zero (i : ident) : bool :=
  match i with IdInt z => z =? 0 | _ => false end.

Definition dims_of_val (v : val) : result (option (list Z)) :=
  match v with
  | VNone => Ok None
  | VList l => Some <$> mapR as_int l
  | _ => Err TypeError
  end.

(** [reshape] on a text or a bytes value, which has a length and slices but
    no [append]: where a list would be padded the call raises
    [AttributeError], and the base case returns the value itself. *)
Fixpoint reshape_fixed {A} (wrap : list A -> val) (flat : list A)
    (dims : list Z) {struct dims} : result val :=
  match dims with
  | [] => Err IndexError
  | d0 :: subdims =>
      let subsize := subsize_of subdims in
      if Z.of_nat (length flat) <? d0 * subsize then Err AttributeError
      else if bool_decide (subdims = []) || bool_decide (subdims = [0])
      then Ok (wrap flat)
      else
        r ← mapR (fun i => reshape_fixed wrap
                             (take (Z.to_nat subsize) (drop (Z.to_nat i) flat))
                             subdims)
              (range_step (Z.of_nat (length flat)) subsize);
        Ok (VList r)
  end.

(** [reshape(value, dimensions)] as [variant_from_binary] calls it: on the
    list of a decoded array, or on the scalar a malformed stream announces
    Dimensions for ([len] of a value that has none is a [TypeError]). *)
Definition reshape_val (value : val) (dims : option (list Z)) : result val :=
  match dims, value with
  | None, _ => Err TypeError
  | Some [], _ => Err IndexError
  | Some ds, VList l => fst <$> reshape l ds
  | Some ds, VStr s => reshape_fixed VStr s ds
  | Some ds, VBytes b => reshape_fixed VBytes b ds
  | Some _, _ => Err TypeError
  end.

Section Codec.

Variable ua : ua_package.

(** [hasattr(Primitives, name)] and [getattr(Primitives, name)]. *)
Definition Primitives_getattr (name : string) : option codec :=
  assoc name
    [("Int8", Primitives.Int8); ("SByte", Primitives.Int8);
     ("Int16", Primitives.Int16); ("Int32", Primitives.Int32);
     ("Int64", Primitives.Int64); ("UInt8", Primitives.UInt8);
     ("Char", Primitives.UInt8); ("Byte", Primitives.UInt8);
     ("UInt16", Primitives.UInt16); ("UInt32", Primitives.UInt32);
     ("UInt64", Primitives.UInt64); ("Boolean", Primitives.Boolean);
     ("Double", Double_codec ua); ("Float", Float_codec ua);
     ("Null", Primitives.Null); ("String", Primitives.String);
     ("Bytes", Primitives.Bytes); ("ByteString", Primitives.Bytes);
     ("CharArray", Primitives.String); ("DateTime", Primitives.DateTime);
     ("Guid", Primitives.Guid)].

(** The switch loop of [struct_to_binary]: one entry of [ua_switches]. *)
Definition set_switch (attrs : gmap string val)
    (entry : string * (string * Z)) : result (gmap string val) :=
  let '(name, (container_name, idx)) := entry in
  member ← getattr attrs name;
  if is_None member then Ok attrs
  else
    container_val ← getattr attrs container_name;
    container_val ← or_bit container_val idx;
    Ok (<[container_name := container_val]> attrs).

Definition set_switches (k : klass) (attrs : gmap string val)
    : result (gmap string val) :=
  match ua_switches k with
  | Some switches => foldlR set_switch attrs switches
  | None => Ok attrs
  end.

Definition in_switches (k : klass) (name : string) : bool :=
  match ua_switches k with
  | Some switches => bool_decide (is_Some (assoc name switches))
  | None => false
  end.

(** The body of the field loop of [struct_to_binary], over the packet and
    the attributes of the record; [to_binary] and [list_to_binary] are the
    two encoders it calls. *)
Definition field_to_binary
    (to_binary : val -> option string -> result (bytes * val))
    (list_to_binary : val -> string -> result (bytes * val))
    (k : klass) (acc : bytes * gmap string val) (field : string * string)
    : result (bytes * gmap string val) :=
  let '(packet, attrs) := acc in
  let '(name, uatype) := field in
  value ← getattr attrs name;
  if startswith "ListOf" uatype then
    '(b, value') ← list_to_binary value (drop6 uatype);
    Ok (packet ++ b, <[name := value']> attrs)
  else if is_None value && in_switches k name then
    Ok (packet, attrs)
  else
    '(b, value') ← to_binary value (Some uatype);
    Ok (packet ++ b, <[name := value']> attrs).

(** The body of the field loop of [struct_from_binary], over the attributes
    of the record being filled. *)
Definition field_from_binary (from_binary : pyobj -> pyobj -> dec val)
    (k : klass) (data : pyobj) (attrs : gmap string val)
    (field : string * string) : dec (gmap string val) :=
  let '(name, uatype) := field in
  skip ← match ua_switches k ≫= assoc name with
         | Some (container_name, idx) =>
             value ← lift (getattr attrs container_name);
             set ← lift (test_bit_val value idx);
             mret (negb set)
         | None => mret false
         end;
  if skip : bool then mret attrs
  else
    value ← from_binary (PStr uatype) data;
    mret (<[name := value]> attrs).

(** The encoders return the bytes and the value as the call leaves it.  A
    generic ExtensionObject carrier is taken to declare no [ua_types]. *)
Fixpoint to_binary (fuel : nat) (v : val) (uatype : option string)
    {struct fuel} : result (bytes * val) :=
  match fuel with
  | O => Err FuelExhausted
  | S n =>
      match uatype ≫= Primitives_getattr with
      | Some st => b ← pack st v; Ok (b, v)
      | None =>
          match v with
          | VEnum _ value => b ← pack Primitives.UInt32 (VInt value); Ok (b, v)
          | VNodeId nid => b ← nodeid_to_binary nid; Ok (b, v)
          | VHeader hdr => b ← header_to_binary hdr; Ok (b, v)
          | VVariant var =>
              '(b, var') ← variant_to_binary n var; Ok (b, VVariant var')
          | VObj k attrs => struct_to_binary n k attrs
          | _ =>
              if bool_decide (uatype = Some "ExtensionObject")
              then extensionobject_to_binary n v
              else Err ValueError
          end
      end
  end

with struct_to_binary (fuel : nat) (k : klass) (attrs : gmap string val)
    {struct fuel} : result (bytes * val) :=
  match fuel with
  | O => Err FuelExhausted
  | S n =>
      attrs ← set_switches k attrs;
      '(packet, attrs) ←
        foldlR (field_to_binary (to_binary n) (list_to_binary n) k)
               ([], attrs) (ua_types k);
      Ok (packet, VObj k attrs)
  end

with list_to_binary (fuel : nat) (value : val) (uatype : string)
    {struct fuel} : result (bytes * val) :=
  match fuel with
  | O => Err FuelExhausted
  | S n =>
      match value with
      | VNone => b ← Primitives.Int32_pack (-1); Ok (b, value)
      | _ =>
          l ← as_seq value;
          h ← Primitives.Int32_pack (Z.of_nat (length l));
          r ← mapR (fun el => to_binary n el (Some uatype)) l;
          Ok (h ++ concat (fst <$> r), same_seq value (snd <$> r))
      end
  end

with variant_to_binary (fuel : nat) (var : Variant)
    {struct fuel} : result (bytes * Variant) :=
  match fuel with
  | O => Err FuelExhausted
  | S n =>
      let encoding := Z.land (vt_value (VariantType var)) 63 in
      if is_array var || is_seq (Value var) then
        let encoding := set_bit encoding 7 in
        let encoding :=
          if Dimensions var is Some _ then set_bit encoding 6 else encoding in
        b1 ← pack Primitives.UInt8 (VInt encoding);
        '(b2, flat) ← pack_uatype_array n (VariantType var) (flatten (Value var));
        b3 ← match Dimensions var with
             | Some dims =>
                 fst <$> pack_uatype_array n
                           (mkVtype "Int32" (vt_value (VariantType_Int32 ua)))
                           (VList (VInt <$> dims))
             | None => Ok []
             end;
        Ok (b1 ++ b2 ++ b3,
            mkVariant (refill_val (Value var) flat) (VariantType var)
              (Dimensions var) true)
      else
        b1 ← pack Primitives.UInt8 (VInt encoding);
        '(b2, value) ← pack_uatype n (VariantType var) (Value var);
        Ok (b1 ++ b2,
            mkVariant value (VariantType var) (Dimensions var) (is_array var))
  end

with pack_uatype (fuel : nat) (vtype : vtype) (value : val)
    {struct fuel} : result (bytes * val) :=
  match fuel with
  | O => Err FuelExhausted
  | S n =>
      match Primitives_getattr (vt_name vtype) with
      | Some st => b ← pack st value; Ok (b, value)
      | None =>
          if 25 <? vt_value vtype then
            b ← pack Primitives.Bytes value; Ok (b, value)
          else if bool_decide (vt_name vtype = "ExtensionObject") then
            extensionobject_to_binary n value
          else
            match value_to_binary ua value with
            | (_, Err AttributeError) => Err (UaError "could not be packed")
            | (value, Ok b) => Ok (b, value)
            | (_, Err e) => Err e
            end
      end
  end

with pack_uatype_array (fuel : nat) (vtype : vtype) (array : val)
    {struct fuel} : result (bytes * val) :=
  match fuel with
  | O => Err FuelExhausted
  | S n =>
      match array with
      | VNone => Ok (ABSENT, array)
      | _ =>
          l ← as_seq array;
          r ← mapR (pack_uatype n vtype) l;
          h ← Primitives.Int32_pack (Z.of_nat (length l));
          Ok (h ++ concat (fst <$> r), same_seq array (snd <$> r))
      end
  end

with extensionobject_to_binary (fuel : nat) (obj : val)
    {struct fuel} : result (bytes * val) :=
  match fuel with
  | O => Err FuelExhausted
  | S n =>
      match obj with
      | VExtensionObject e =>
          b ← ExtensionObject_to_binary ua e; Ok (b, obj)
      | _ =>
          '(TypeId, Encoding, Body, obj') ←
            match obj with
            | VNone => Ok (NodeId_new ua, 0, None, obj)
            | _ =>
                match extension_object_ids ua (class_name obj) with
                | None => Err KeyError
                | Some TypeId =>
                    '(Body, obj') ← to_binary n obj None;
                    Ok (TypeId, 1, Some Body, obj')
                end
            end;
          '(t, _) ← to_binary n (VNodeId TypeId) None;
          e ← pack Primitives.UInt8 (VInt Encoding);
          b ← match Body with
              | Some ((_ :: _) as Body) => pack Primitives.Bytes (VBytes Body)
              | _ => Ok []
              end;
          Ok (t ++ e ++ b, obj')
      end
  end.

(** The decoders of the dispatcher. *)
Definition extensionobject_from_binary : dec val :=
  typeid ← nodeid_from_binary ua;
  Encoding ← read_ord;
  body ← (if Z.land Encoding (Z.shiftl 1 0) =? 0 then mret None
          else length ← Primitives.Int32_unpack;
               if length <? 1 then mret (Some [])
               else b ← Buffer_copy length;
                    _ ← Buffer_skip length;
                    mret (Some b));
  if ident_is_zero (Identifier typeid) then mret VNone
  else
    match extension_object_classes ua typeid with
    | Some klass =>
        match body with
        | None => raise (UaError "parsing ExtensionObject without data")
        | Some body => lift (fst <$> klass_from_binary ua klass body)
        end
    | None => mret (VExtensionObject (mkExtensionObject typeid Encoding body))
    end.

Definition unpack_uatype (vtype : vtype) : dec val :=
  match Primitives_getattr (vt_name vtype) with
  | Some st => unpack st
  | None =>
      if 25 <? vt_value vtype then unpack Primitives.Bytes
      else if bool_decide (vt_name vtype = "ExtensionObject")
      then extensionobject_from_binary
      else
        match ua_getattr ua (vt_name vtype) with
        | Some klass => klass_from_binary ua klass
        | None => raise (UaError "can not unpack unknown vtype")
        end
  end.

Definition unpack_uatype_array (vtype : vtype) : dec val :=
  match Primitives_getattr (vt_name vtype) with
  | Some st => Primitives.unpack_array st
  | None =>
      length ← Primitives.Int32_unpack;
      if length =? -1 then mret VNone
      else VList <$> dec_repeat (Z.to_nat length) (unpack_uatype vtype)
  end.

Definition variant_from_binary : dec Variant :=
  encoding ← read_ord;
  let int_type := Z.land encoding 63 in
  vtype ← lift (datatype_to_varianttype ua int_type);
  '(value, array) ←
    (if test_bit encoding 7 =? 0
     then value ← unpack_uatype vtype; mret (value, false)
     else value ← unpack_uatype_array vtype; mret (value, true));
  if test_bit encoding 6 =? 0 then mret (mkVariant value vtype None array)
  else
    dimensions ← unpack_uatype_array
                   (mkVtype "Int32" (vt_value (VariantType_Int32 ua)));
    dimensions ← lift (dims_of_val dimensions);
    value ← lift (reshape_val value dimensions);
    mret (mkVariant value vtype dimensions array).

(** The recursive call of the list branch is written
    [from_binary(data, uatype[6:])] in the source and is embedded as
    written: the cursor goes where the tag is expected. *)
Fixpoint from_binary (fuel : nat) (uatype data : pyobj) {struct fuel} : dec val :=
  match fuel with
  | O => raise FuelExhausted
  | S n =>
      match uatype with
      | PStr s =>
          if startswith "ListOf" s then
            size ← with_buffer data Primitives.Int32_unpack;
            VList <$> dec_repeat (Z.to_nat size) (from_binary n data (PStr (drop6 s)))
          else
            match Primitives_getattr s with
            | Some st => with_buffer data (unpack st)
            | None =>
                if bool_decide (s = "NodeId")
                then VNodeId <$> with_buffer data (nodeid_from_binary ua)
                else if bool_decide (s = "Variant")
                then VVariant <$> with_buffer data variant_from_binary
                else struct_from_binary n uatype data
            end
      | PClassNodeId => VNodeId <$> with_buffer data (nodeid_from_binary ua)
      | PClassVariant => VVariant <$> with_buffer data variant_from_binary
      | _ => struct_from_binary n uatype data
      end
  end

with struct_from_binary (fuel : nat) (objtype data : pyobj) {struct fuel} : dec val :=
  match fuel with
  | O => raise FuelExhausted
  | S n =>
      k ← match objtype with
          | PStr s =>
              match ua_getattr ua s with
              | Some k => mret k
              | None => raise AttributeError
              end
          | PClass k => mret k
          | PBuffer => raise TypeError
          | PClassNodeId | PClassVariant => raise AttributeError
          end;
      attrs ←
        dec_foldl (field_from_binary (from_binary n) k data)
                  (klass_new ua k) (ua_types k);
      mret (VObj k attrs)
  end.

End Codec.

(** ** The encoders once more, with the argument kept when the call raises *)

(** The encoders above give the value as the call leaves it only when the
    call returns.  What an encoder has written to its argument by the time
    it raises stays written: here every encoder gives the value as the call
    leaves it together with the bytes or the exception.  The statements, and
    their order, are those of the encoders above. *)

(** [[f(x) for x in l]] where [f] may write to [x]: the elements as the
    loop leaves them (those after one that raises are not reached) and the
    results. *)
Fixpoint mapS (f : val -> val * result bytes) (l : list val)
    : list val * result (list bytes) :=
  match l with
  | [] => ([], Ok [])
  | x :: r =>
      match f x with
      | (x', Ok b) => let '(r', bs) := mapS f r in (x' :: r', cons b <$> bs)
      | (x', Err e) => (x' :: r, Err e)
      end
  end.

(** The switch loop of [struct_to_binary]; an entry that raises has written
    nothing. *)
Fixpoint set_switches_loop (attrs : gmap string val)
    (switches : list (string * (string * Z)))
    : gmap string val * result unit :=
  match switches with
  | [] => (attrs, Ok tt)
  | entry :: r =>
      match set_switch attrs entry with
      | Ok attrs => set_switches_loop attrs r
      | Err e => (attrs, Err e)
      end
  end.

Definition set_switches_st (k : klass) (attrs : gmap string val)
    : gmap string val * result unit :=
  match ua_switches k with
  | Some switches => set_switches_loop attrs switches
  | None => (attrs, Ok tt)
  end.

(** The body of the field loop of [struct_to_binary]: the value of the
    field is written to where it is, whether its encoder returns or
    raises. *)
Definition field_to_binary_st
    (to_binary : val -> option string -> val * result bytes)
    (list_to_binary : val -> string -> val * result bytes)
    (k : klass) (packet : bytes) (attrs : gmap string val)
    (field : string * string) : gmap string val * result bytes :=
  let '(name, uatype) := field in
  match getattr attrs name with
  | Err e => (attrs, Err e)
  | Ok value =>
      if startswith "ListOf" uatype then
        let '(value', r) := list_to_binary value (drop6 uatype) in
        (<[name := value']> attrs, app packet <$> r)
      else if is_None value && in_switches k name then (attrs, Ok packet)
      else
        let '(value', r) := to_binary value (Some uatype) in
        (<[name := value']> attrs, app packet <$> r)
  end.

Fixpoint fields_loop
    (step : bytes -> gmap string val -> string * string
            -> gmap string val * result bytes)
    (packet : bytes) (attrs : gmap string val) (fields : list (string * string))
    : gmap string val * result bytes :=
  match fields with
  | [] => (attrs, Ok packet)
  | field :: r =>
      match step packet attrs field with
      | (attrs, Ok packet) => fields_loop step packet attrs r
      | (attrs, Err e) => (attrs, Err e)
      end
  end.

Section CodecState.

Variable ua : ua_package.

Fixpoint to_binary_st (fuel : nat) (v : val) (uatype : option string)
    {struct fuel} : val * result bytes :=
  match fuel with
  | O => (v, Err FuelExhausted)
  | S n =>
      match uatype ≫= Primitives_getattr ua with
      | Some st => (v, pack st v)
      | None =>
          match v with
          | VEnum _ value => (v, pack Primitives.UInt32 (VInt value))
          | VNodeId nid => (v, nodeid_to_binary nid)
          | VHeader hdr => (v, header_to_binary hdr)
          | VVariant var =>
              let '(var', r) := variant_to_binary_st n var in (VVariant var', r)
          | VObj k attrs => struct_to_binary_st n k attrs
          | _ =>
              if bool_decide (uatype = Some "ExtensionObject")
              then extensionobject_to_binary_st n v
              else (v, Err ValueError)
          end
      end
  end

with struct_to_binary_st (fuel : nat) (k : klass) (attrs : gmap string val)
    {struct fuel} : val * result bytes :=
  match fuel with
  | O => (VObj k attrs, Err FuelExhausted)
  | S n =>
      match set_switches_st k attrs with
      | (attrs, Err e) => (VObj k attrs, Err e)
      | (attrs, Ok _) =>
          let '(attrs, r) :=
            fields_loop
              (field_to_binary_st (to_binary_st n) (list_to_binary_st n) k)
              [] attrs (ua_types k) in
          (VObj k attrs, r)
      end
  end

with list_to_binary_st (fuel : nat) (value : val) (uatype : string)
    {struct fuel} : val * result bytes :=
  match fuel with
  | O => (value, Err FuelExhausted)
  | S n =>
      match value with
      | VNone => (value, Primitives.Int32_pack (-1))
      | _ =>
          match as_seq value with
          | Err e => (value, Err e)
          | Ok l =>
              match Primitives.Int32_pack (Z.of_nat (length l)) with
              | Err e => (value, Err e)
              | Ok h =>
                  let '(l', r) :=
                    mapS (fun el => to_binary_st n el (Some uatype)) l in
                  (same_seq value l', (fun bs => h ++ concat bs) <$> r)
              end
          end
      end
  end

with variant_to_binary_st (fuel : nat) (var : Variant)
    {struct fuel} : Variant * result bytes :=
  match fuel with
  | O => (var, Err FuelExhausted)
  | S n =>
      let encoding := Z.land (vt_value (VariantType var)) 63 in
      if is_array var || is_seq (Value var) then
        (* var.is_array = True *)
        let var := mkVariant (Value var) (VariantType var) (Dimensions var) true in
        let encoding := set_bit encoding 7 in
        let encoding :=
          if Dimensions var is Some _ then set_bit encoding 6 else encoding in
        match pack Primitives.UInt8 (VInt encoding) with
        | Err e => (var, Err e)
        | Ok b1 =>
            let '(flat, r) :=
              pack_uatype_array_st n (VariantType var) (flatten (Value var)) in
            let var := mkVariant (refill_val (Value var) flat) (VariantType var)
                         (Dimensions var) true in
            match r with
            | Err e => (var, Err e)
            | Ok b2 =>
                (var,
                 b3 ← match Dimensions var with
                      | Some dims =>
                          snd (pack_uatype_array_st n
                                 (mkVtype "Int32" (vt_value (VariantType_Int32 ua)))
                                 (VList (VInt <$> dims)))
                      | None => Ok []
                      end;
                 Ok (b1 ++ b2 ++ b3))
            end
        end
      else
        match pack Primitives.UInt8 (VInt encoding) with
        | Err e => (var, Err e)
        | Ok b1 =>
            let '(value, r) := pack_uatype_st n (VariantType var) (Value var) in
            (mkVariant value (VariantType var) (Dimensions var) (is_array var),
             app b1 <$> r)
        end
  end

with pack_uatype_st (fuel : nat) (vtype : vtype) (value : val)
    {struct fuel} : val * result bytes :=
  match fuel with
  | O => (value, Err FuelExhausted)
  | S n =>
      match Primitives_getattr ua (vt_name vtype) with
      | Some st => (value, pack st value)
      | None =>
          if 25 <? vt_value vtype then (value, pack Primitives.Bytes value)
          else if bool_decide (vt_name vtype = "ExtensionObject") then
            extensionobject_to_binary_st n value
          else
            match value_to_binary ua value with
            | (value, Err AttributeError) =>
                (value, Err (UaError "could not be packed"))
            | r => r
            end
      end
  end

with pack_uatype_array_st (fuel : nat) (vtype : vtype) (array : val)
    {struct fuel} : val * result bytes :=
  match fuel with
  | O => (array, Err FuelExhausted)
  | S n =>
      match array with
      | VNone => (array, Ok ABSENT)
      | _ =>
          match as_seq array with
          | Err e => (array, Err e)
          | Ok l =>
              let '(l', r) := mapS (pack_uatype_st n vtype) l in
              (same_seq array l',
               bs ← r;
               h ← Primitives.Int32_pack (Z.of_nat (length l));
               Ok (h ++ concat bs))
          end
      end
  end

with extensionobject_to_binary_st (fuel : nat) (obj : val)
    {struct fuel} : val * result bytes :=
  match fuel with
  | O => (obj, Err FuelExhausted)
  | S n =>
      match obj with
      | VExtensionObject e => (obj, ExtensionObject_to_binary ua e)
      | _ =>
          let '(obj', r) :=
            match obj with
            | VNone => (obj, Ok (NodeId_new ua, 0, None))
            | _ =>
                match extension_object_ids ua (class_name obj) with
                | None => (obj, Err KeyError)
                | Some TypeId =>
                    let '(obj', Body) := to_binary_st n obj None in
                    (obj', Body ← Body; Ok (TypeId, 1, Some Body))
                end
            end in
          (obj',
           '(TypeId, Encoding, Body) ← r;
           t ← snd (to_binary_st n (VNodeId TypeId) None);
           e ← pack Primitives.UInt8 (VInt Encoding);
           b ← match Body with
               | Some ((_ :: _) as Body) => pack Primitives.Bytes (VBytes Body)
               | _ => Ok []
               end;
           Ok (t ++ e ++ b))
      end
  end.

End CodecState.

(** The two assignments of the module to a value it was handed, at the
    value itself or at a value held inside it: [var.is_array = True] of
    [variant_to_binary], made when the Variant is flagged as an array or its
    value is a list or a tuple, and
    [setattr(obj, container_name, container_val | 1 << idx)] of
    [struct_to_binary], made for an entry of [ua_switches] whose member is
    not [None]. *)
Inductive write : val -> val -> Prop :=
  | write_is_array (var : Variant) :
      is_array var || is_seq (Value var) = true ->
      write (VVariant var)
            (VVariant (mkVariant (Value var) (VariantType var)
                         (Dimensions var) true))
  | write_switch (k : klass) (attrs : gmap string val)
        (switches : list (string * (string * Z)))
        (name container_name : string) (idx : Z)
        (member container_val container_val' : val) :
      ua_switches k = Some switches ->
      (name, (container_name, idx)) ∈ switches ->
      attrs !! name = Some member ->
      is_None member = false ->
      attrs !! container_name = Some container_val ->
      or_bit container_val idx = Ok container_val' ->
      write (VObj k attrs) (VObj k (<[container_name := container_val']> attrs))
  | write_in_list (pre post : list val) (x x' : val) :
      write x x' ->
      write (VList (pre ++ x :: post)) (VList (pre ++ x' :: post))
  | write_in_tuple (pre post : list val) (x x' : val) :
      write x x' ->
      write (VTuple (pre ++ x :: post)) (VTuple (pre ++ x' :: post))
  | write_in_variant (var : Variant) (x' : val) :
      write (Value var) x' ->
      write (VVariant var)
            (VVariant (mkVariant x' (VariantType var) (Dimensions var)
                         (is_array var)))
  | write_in_record (k : klass) (attrs : gmap string val) (name : string)
        (x x' : val) :
      attrs !! name = Some x ->
      write x x' ->
      write (VObj k attrs) (VObj k (<[name := x']> attrs)).


(** Whether [v] is, or holds in its lists and tuples, a Variant or a
    record: the values the two assignments can reach. *)
Fixpoint holds_object (v : val) : bool :=
  match v with
  | VVariant _ | VObj _ _ => true
  | VList l | VTuple l => existsb holds_object l
  | _ => false
  end.

(** ** A concrete package and a record class with a switch, for examples *)

Definition no_codec : codec :=
  mkCodec (fun _ => Err StructError) (raise StructError).

(** A record class with a bitmask field and one optional field guarded by
    bit 2 of it. *)
Definition Switched : klass :=
  mkKlass "Switched" [("Mask", "Byte"); ("Opt", "Int32")]
    (Some [("Opt", ("Mask", 2))]).

Definition ua0 : ua_package :=
  mkUa no_codec no_codec
    (fun name => if decide (name = "Switched") then Some Switched else None)
    (fun _ => <["Mask" := VInt 0]> (<["Opt" := VNone]> ∅))
    (fun _ => raise AttributeError)
    (fun v => (v, Err AttributeError))
    (fun _ => Err AttributeError)
    (fun _ => None)
    (fun _ => None)
    (fun _ => Err ValueError)
    (mkVtype "Int32" 6)
    (Some []) (Some 0) 0.

Definition Int32_t : vtype := mkVtype "Int32" 6.

(** The attributes of an instance of [Switched]. *)
Definition masked (mask : Z) (opt : val) : gmap string val :=
  <["Mask" := VInt mask]> (<["Opt" := opt]> ∅).

(** The integer a value is for [|] and [&]: an [int] or a [bool]. *)
Definition int_of (v : val) : option Z :=
  match v with
  | VInt z => Some z
  | VBool b => Some (if b then 1 else 0)
  | _ => None
  end.

(** The Identifier has the shape its NodeIdType encodes: a number for the
    numeric kinds (with the implicit namespace 0 for TwoByte), text or
    [None] for String, bytes or [None] for ByteString, a 128-bit UUID for
    Guid. *)
Definition ident_matches (t : NodeIdType.t) (ns : Z) (i : ident) : bool :=
  match t, i with
  | NodeIdType.TwoByte, IdInt _ => ns =? 0
  | NodeIdType.FourByte, IdInt _ => true
  | NodeIdType.Numeric, IdInt _ => true
  | NodeIdType.String, (IdStr _ | IdNone) => true
  | NodeIdType.ByteString, (IdBytes _ | IdNone) => true
  | NodeIdType.Guid, IdGuid g => (0 <=? g) && (g <? 2 ^ 128)
  | _, _ => false
  end.

(** A package in which [Switched] is registered as an ExtensionObject class
    under the TwoByte NodeId 5. *)
Definition ua1 : ua_package :=
  mkUa no_codec no_codec
    (fun name => if decide (name = "Switched") then Some Switched else None)
    (fun _ => masked 0 VNone)
    (fun _ => raise AttributeError)
    (fun v => (v, Err AttributeError))
    (fun _ => Err AttributeError)
    (fun nid => match Identifier nid with
                | IdInt 5 => Some Switched
                | _ => None
                end)
    (fun name =>
       if decide (name = "Switched")
       then Some (mkNodeId NodeIdType.TwoByte 0 (IdInt 5) None None)
       else None)
    (fun v => if v =? 6 then Ok Int32_t else Err ValueError)
    (mkVtype "Int32" 6)
    (Some []) (Some 0) 0.


(** A nested list has the shape [dims]: a list of [dims[0]] elements, each
    of the shape [dims[1:]]; at the last extent the elements are no
    sequences. *)
Fixpoint shaped (dims : list Z) (v : val) {struct dims} : bool :=
  match dims, v with
  | d :: ds, VList l =>
      (Z.of_nat (length l) =? d)
      && forallb (match ds with
                  | [] => fun x => negb (is_seq x)
                  | _ => shaped ds
                  end) l
  | _, _ => false
  end.

(** A record class of two Int32 fields, without optional fields. *)
Definition Pair : klass :=
  mkKlass "Pair" [("First", "Int32"); ("Second", "Int32")] None.

(** * Properties *)

(** ** Reading from the cursor *)

Lemma byte_val_of_Z (z : Z) : 0 <= z < 256 -> byte_val (byte_of_Z z) = z.
Proof.
  intros H. unfold byte_val, byte_of_Z.
  destruct (Byte.of_N (Z.to_N z)) as [b|] eqn:Hb.
  - apply Byte.to_of_N in Hb. lia.
  - apply Byte.of_N_None_iff in Hb. lia.
Qed.

Lemma Buffer_read_app (bs rest : bytes) :
  Buffer_read (Z.of_nat (length bs)) (bs ++ rest) = Ok (bs, rest).
Proof.
  unfold Buffer_read.
  rewrite length_app, Nat2Z.id, take_app_length, drop_app_length.
  destruct (Z.ltb_spec (Z.of_nat (length bs)) 0); [lia|].
  destruct (Z.ltb_spec (Z.of_nat (length bs + length rest)) (Z.of_nat (length bs)));
    [lia|reflexivity].
Qed.

Lemma Int32_unpack_cons (b0 b1 b2 b3 : byte) (rest : bytes) :
  Primitives.Int32_unpack (b0 :: b1 :: b2 :: b3 :: rest)
  = Ok (to_signed 4 (le_val [b0; b1; b2; b3]), rest).
Proof.
  unfold Primitives.Int32_unpack, unpack_sint, mbind, dec_bind.
  change (Z.of_nat 4) with (Z.of_nat (length [b0; b1; b2; b3])).
  change (b0 :: b1 :: b2 :: b3 :: rest) with ([b0; b1; b2; b3] ++ rest).
  now rewrite Buffer_read_app.
Qed.

Lemma read_ord_cons (b : byte) (rest : bytes) :
  read_ord (b :: rest) = Ok (byte_val b, rest).
Proof.
  unfold read_ord.
  change 1 with (Z.of_nat (length [b])).
  change (b :: rest) with ([b] ++ rest).
  now rewrite Buffer_read_app.
Qed.

(** ** Absent and empty (C8, C10) *)

(** C8.  The string, byte-string and generic array codecs keep absent and
    empty apart: the absent value packs to the four bytes ff ff ff ff
    (signed -1), the empty string or sequence packs to four zero bytes and
    nothing else, a length prefix of -1 unpacks to absent and a length
    prefix of 0 to the present, empty value, with nothing more read; so
    absent and empty each come back as themselves. *)
Theorem absent_and_empty_are_distinct (self : codec) (rest : bytes) :
  (pack Primitives.String VNone = Ok [xff; xff; xff; xff]
   /\ pack Primitives.String (VStr []) = Ok [x00; x00; x00; x00]
   /\ pack Primitives.Bytes VNone = Ok [xff; xff; xff; xff]
   /\ pack Primitives.Bytes (VBytes []) = Ok [x00; x00; x00; x00]
   /\ Primitives.pack_array self VNone = Ok [xff; xff; xff; xff]
   /\ Primitives.pack_array self (VList []) = Ok [x00; x00; x00; x00])
  /\ (unpack Primitives.String ([xff; xff; xff; xff] ++ rest) = Ok (VNone, rest)
      /\ unpack Primitives.String ([x00; x00; x00; x00] ++ rest) = Ok (VStr [], rest)
      /\ unpack Primitives.Bytes ([xff; xff; xff; xff] ++ rest) = Ok (VNone, rest)
      /\ unpack Primitives.Bytes ([x00; x00; x00; x00] ++ rest) = Ok (VBytes [], rest)
      /\ Primitives.unpack_array self ([xff; xff; xff; xff] ++ rest) = Ok (VNone, rest)
      /\ Primitives.unpack_array self ([x00; x00; x00; x00] ++ rest)
         = Ok (VList [], rest)).
Proof.
  split; [repeat split|].
  assert (Hread0 : Buffer_read 0 rest = Ok ([], rest)).
  { change 0 with (Z.of_nat (length (@nil byte))).
    change rest with ([] ++ rest) at 1. apply Buffer_read_app. }
  cbn [app unpack Primitives.String Primitives.Bytes].
  unfold Primitives.unpack_array, Primitives.String_unpack, Primitives.Bytes_unpack.
  unfold fmap, dec_fmap, mbind, dec_bind.
  rewrite !Int32_unpack_cons.
  change (to_signed 4 (le_val [xff; xff; xff; xff])) with (-1).
  change (to_signed 4 (le_val [x00; x00; x00; x00])) with 0.
  cbn [Z.eqb Pos.eqb]. unfold fmap, dec_fmap. rewrite Hread0.
  repeat split.
Qed.

(** C10.  A length prefix that is negative and not -1 makes [unpack_array]
    return the present, empty sequence after the four length bytes, for
    every primitive kind; only -1 gives the absent result, and no negative
    length fails. *)
Theorem unpack_array_negative_length (self : codec) (b0 b1 b2 b3 : byte)
    (rest : bytes) :
  to_signed 4 (le_val [b0; b1; b2; b3]) < 0 ->
  Primitives.unpack_array self (b0 :: b1 :: b2 :: b3 :: rest)
  = Ok (if to_signed 4 (le_val [b0; b1; b2; b3]) =? -1 then VNone else VList [],
        rest).
Proof.
  intros Hneg.
  unfold Primitives.unpack_array, mbind, dec_bind.
  rewrite Int32_unpack_cons.
  destruct (Z.eqb_spec (to_signed 4 (le_val [b0; b1; b2; b3])) (-1)); [reflexivity|].
  destruct (Z.eqb_spec (to_signed 4 (le_val [b0; b1; b2; b3])) 0); [lia|].
  unfold fmap, dec_fmap.
  now rewrite Z2Nat.nonpos by lia.
Qed.

Lemma unpack_array_negative_length_witness :
  Primitives.unpack_array Primitives.Int32 [xfe; xff; xff; xff; x07]
  = Ok (VList [], [x07]).
Proof.
  apply (unpack_array_negative_length Primitives.Int32 xfe xff xff xff [x07]).
  vm_compute. reflexivity.
Defined.

(** ** Time conversion (C9) *)

Lemma epoch_and_max_values :
  FILETIME_EPOCH_AS_DATETIME = 50491123200000000
  /\ datetime_max = 315537897599999999.
Proof. split; vm_compute; reflexivity. Qed.

(** C9.  A tick count whose date lies beyond the largest representable
    date does not fail: the result is 9999-12-31T23:59:59.999999 and one
    warning is logged; a tick count whose date is representable gives
    1601-01-01T00:00:00 plus (ticks div 10) microseconds, and nothing is
    logged. *)
Theorem win_epoch_to_datetime_clamps (ticks : Z) :
  (datetime_max < FILETIME_EPOCH_AS_DATETIME + ticks / 10 ->
   win_epoch_to_datetime ticks
   = Ok (datetime_of 9999 12 31 23 59 59 999999,
         [LogWarning "datetime overflow: %s" ticks]))
  /\ (0 <= FILETIME_EPOCH_AS_DATETIME + ticks / 10 <= datetime_max ->
      win_epoch_to_datetime ticks
      = Ok (datetime_of 1601 1 1 0 0 0 0 + ticks / 10, [])).
Proof.
  unfold win_epoch_to_datetime, timedelta_microseconds, datetime_add, mbind,
    result_bind.
  change (datetime_of 1601 1 1 0 0 0 0) with FILETIME_EPOCH_AS_DATETIME.
  split; intros H.
  - destruct (Z.abs (ticks / 10 / US_PER_DAY) <=? 999999999); [|reflexivity].
    destruct (Z.leb_spec (FILETIME_EPOCH_AS_DATETIME + ticks / 10) datetime_max);
      [lia|].
    now rewrite andb_false_r.
  - destruct epoch_and_max_values as [He Hm]. rewrite He, Hm in H.
    assert (Hd : -584388 <= ticks / 10 / US_PER_DAY <= 3652059).
    { unfold US_PER_DAY. split.
      - apply Z.div_le_lower_bound; lia.
      - apply Z.div_le_upper_bound; lia. }
    destruct (Z.leb_spec (Z.abs (ticks / 10 / US_PER_DAY)) 999999999); [|lia].
    rewrite He, Hm.
    destruct (Z.leb_spec 0 (50491123200000000 + ticks / 10)); [|lia].
    destruct (Z.leb_spec (50491123200000000 + ticks / 10) 315537897599999999);
      [reflexivity|lia].
Qed.

Lemma win_epoch_to_datetime_clamps_witness :
  win_epoch_to_datetime (2 ^ 63 - 1)
  = Ok (datetime_of 9999 12 31 23 59 59 999999,
        [LogWarning "datetime overflow: %s" (2 ^ 63 - 1)])
  /\ win_epoch_to_datetime EPOCH_AS_FILETIME
     = Ok (datetime_of 1970 1 1 0 0 0 0, []).
Proof.
  split.
  - apply (proj1 (win_epoch_to_datetime_clamps (2 ^ 63 - 1))).
    vm_compute. reflexivity.
  - change (datetime_of 1970 1 1 0 0 0 0)
      with (datetime_of 1601 1 1 0 0 0 0 + EPOCH_AS_FILETIME / 10).
    apply (proj2 (win_epoch_to_datetime_clamps EPOCH_AS_FILETIME)).
    vm_compute. split; discriminate.
Defined.

(** ** The NodeId codec (C4, C6) *)

Lemma NodeIdType_of_value_unknown (v : Z) :
  5 < v -> NodeIdType.of_value v = Err ValueError.
Proof.
  intros H. unfold NodeIdType.of_value.
  destruct (Z.eqb_spec v 0); [lia|].
  destruct (Z.eqb_spec v 1); [lia|].
  destruct (Z.eqb_spec v 2); [lia|].
  destruct (Z.eqb_spec v 3); [lia|].
  destruct (Z.eqb_spec v 4); [lia|].
  destruct (Z.eqb_spec v 5); [lia|reflexivity].
Qed.

(** C4.  A leading byte whose low six bits are no NodeId discriminant makes
    [nodeid_from_binary] fail, but with the [ValueError] of the call
    [ua.NodeIdType(...)], not with the [UaError] of the last branch, which
    is never reached. *)
Theorem nodeid_from_binary_unknown_discriminant (ua : ua_package) (b : byte)
    (rest : bytes) :
  5 < Z.land (byte_val b) 63 ->
  nodeid_from_binary ua (b :: rest) = Err ValueError.
Proof.
  intros H.
  unfold nodeid_from_binary, mbind, dec_bind.
  rewrite read_ord_cons.
  now rewrite NodeIdType_of_value_unknown.
Qed.

Lemma nodeid_from_binary_unknown_discriminant_witness :
  nodeid_from_binary ua0 [x06; x00; x00] = Err ValueError.
Proof.
  apply (nodeid_from_binary_unknown_discriminant ua0 x06 [x00; x00]).
  vm_compute. reflexivity.
Defined.

Lemma pack_uint_1_head (v : Z) (bs : bytes) :
  pack_uint 1 v = Ok bs -> bs = [byte_of_Z v] /\ 0 <= v < 256.
Proof.
  unfold pack_uint. change (2 ^ bits_of 1) with 256.
  destruct (Z.leb_spec 0 v), (Z.ltb_spec v 256); cbn; try discriminate.
  intros [= <-]. rewrite Z.mod_small by lia. auto.
Qed.






(** ** Reshaping (C5) *)

Lemma mapR_Forall2 {A B} (f : A -> result B) (l : list A) :
  (forall x, x ∈ l -> exists y, f x = Ok y) ->
  exists ys, mapR f l = Ok ys /\ Forall2 (fun x y => f x = Ok y) l ys.
Proof.
  induction l as [|x l IH]; intros H; cbn.
  - exists []. split; [reflexivity|constructor].
  - destruct (H x) as [y Hy]; [left|].
    destruct IH as (ys & Hys & HF); [intros z Hz; apply H; now right|].
    rewrite Hy, Hys. exists (y :: ys). split; [reflexivity|now constructor].
Qed.

Lemma reshape_total (dims : list Z) :
  dims <> [] -> forall flat, exists r flat', reshape flat dims = Ok (r, flat').
Proof.
  induction dims as [|d0 subdims IH]; [congruence|]. intros _ flat. cbn.
  destruct (bool_decide (subdims = []) || bool_decide (subdims = [0])) eqn:Hb;
    [eauto|].
  apply orb_false_iff in Hb as [Hn%bool_decide_eq_false _].
  destruct (mapR_Forall2
              (fun i => fst <$> reshape (slice (pad d0 (subsize_of subdims) flat)
                                           i (subsize_of subdims)) subdims)
              (range_step (Z.of_nat (length (pad d0 (subsize_of subdims) flat)))
                 (subsize_of subdims))) as (ys & -> & _); [|cbn; eauto].
  intros i _. destruct (IH Hn (slice (pad d0 (subsize_of subdims) flat) i
                                 (subsize_of subdims))) as (r & fl & ->).
  cbn. eauto.
Qed.

Lemma length_range_step (stop step : Z) :
  0 < step -> length (range_step stop step) = Z.to_nat ((stop + step - 1) / step).
Proof.
  intros H. unfold range_step.
  destruct (Z.ltb_spec 0 step); [|lia].
  now rewrite length_map, length_seq.
Qed.

Lemma length_pad (d0 subsize : Z) (flat : list val) :
  Z.of_nat (length flat) <= d0 * subsize ->
  Z.of_nat (length (pad d0 subsize flat)) = d0 * subsize.
Proof.
  intros H. unfold pad. rewrite length_app, length_replicate. lia.
Qed.

Lemma pad_enough (d0 subsize : Z) (flat : list val) :
  d0 * subsize <= Z.of_nat (length flat) -> pad d0 subsize flat = flat.
Proof.
  intros H. unfold pad. rewrite Z2Nat.nonpos by lia. apply app_nil_r.
Qed.

(** The claim of C5 as the spec words it gives the result the length [d0]
    for every flat sequence; a flat sequence longer than the product of the
    extents gives more slices than that: [reshape([1,2,3], [1,2])] is
    [[[1,2],[3,[]]]]. *)
Lemma reshape_length_counterexample :
  ~ (forall (flat : list val) (d0 : Z) (subdims : list Z) (r flat' : list val),
       reshape flat (d0 :: subdims) = Ok (VList r, flat') ->
       Z.of_nat (length r) = d0).
Proof.
  intros H.
  specialize (H [VInt 1; VInt 2; VInt 3] 1 [2]
                [VList [VInt 1; VInt 2]; VList [VInt 3; VList []]]
                [VInt 1; VInt 2; VInt 3] eq_refl).
  discriminate H.
Qed.

Lemma subsize_of_cons (d : Z) (ds : list Z) :
  subsize_of (d :: ds) = (if d =? 0 then 1 else d) * subsize_of ds.
Proof.
  unfold subsize_of. cbn [foldl]. rewrite Z.mul_1_l.
  generalize (if d =? 0 then 1 else d). clear d.
  induction ds as [|e ds IH]; intros a; cbn [foldl]; [lia|].
  rewrite IH, (IH (1 * _)). lia.
Qed.

Lemma subsize_of_spec (subdims : list Z) :
  subsize_of subdims = spec_slice_size subdims.
Proof.
  induction subdims as [|d ds IH]; [reflexivity|].
  rewrite subsize_of_cons, IH. reflexivity.
Qed.

(** C5, amended.  For [dims = d0 :: subdims] and the slice size [size] (the
    product of [subdims], zero extents counted as one), [reshape] never
    fails and leaves [flat] padded on the right with empty lists up to the
    length [d0 * size] (as it was when it is that long already).  When
    [subdims] is empty or is exactly [[0]] the result is the padded [flat].
    Otherwise the result is a list with one element for every started chunk
    of [size] elements of the padded [flat], that is its length divided by
    [size] and rounded up, not always [d0]; the element at position [k] is
    the reshaped contiguous slice that starts at [k * size] and has [size]
    elements (fewer at the end of the padded [flat]); the elements are [d0]
    many when [flat] is not longer than [d0 * size], [size] is positive and
    [d0] is not negative; a slice size below zero gives the empty list.
    [reshape([1,2,3,4,5,6], [2,3])] is [[[1,2,3],[4,5,6]]]. *)
Theorem reshape_slices (flat : list val) (d0 : Z) (subdims : list Z) :
  let size := spec_slice_size subdims in
  let padded :=
    flat ++ replicate (Z.to_nat (d0 * size - Z.of_nat (length flat))) (VList []) in
  (exists r,
     reshape flat (d0 :: subdims) = Ok (r, padded)
     /\ (subdims = [] \/ subdims = [0] -> r = VList padded)
     /\ (subdims <> [] -> subdims <> [0] ->
         exists chunks,
           r = VList chunks
           /\ (0 < size ->
               Z.of_nat (length chunks)
               = (Z.of_nat (length padded) + size - 1) / size)
           /\ (size <= 0 -> chunks = [])
           /\ (forall (k : nat) (c : val),
                 chunks !! k = Some c ->
                 exists fl,
                   reshape (take (Z.to_nat size)
                              (drop (k * Z.to_nat size) padded)) subdims
                   = Ok (c, fl))
           /\ (0 < size -> 0 <= d0 -> Z.of_nat (length flat) <= d0 * size ->
               Z.of_nat (length chunks) = d0)))
  /\ reshape (VInt <$> [1; 2; 3; 4; 5; 6]) [2; 3]
     = Ok (VList [VList (VInt <$> [1; 2; 3]); VList (VInt <$> [4; 5; 6])],
           VInt <$> [1; 2; 3; 4; 5; 6]).
Proof.
  cbv zeta. rewrite <- subsize_of_spec. split; [|reflexivity].
  set (size := subsize_of subdims).
  set (padded := flat ++ replicate _ _).
  cbn [reshape]. fold size. change (pad d0 size flat) with padded.
  destruct (bool_decide (subdims = []) || bool_decide (subdims = [0])) eqn:Hb.
  - exists (VList padded). split; [reflexivity|]. split; [reflexivity|].
    intros Hn H0. apply orb_true_iff in Hb as [Hb|Hb];
      apply bool_decide_eq_true in Hb; contradiction.
  - apply orb_false_iff in Hb
      as [Hn%bool_decide_eq_false H0%bool_decide_eq_false].
    destruct (mapR_Forall2
                (fun i => fst <$> reshape (slice padded i size) subdims)
                (range_step (Z.of_nat (length padded)) size))
      as (ys & Hys & HF).
    { intros i _. destruct (reshape_total subdims Hn (slice padded i size))
        as (r & fl & ->). cbn. eauto. }
    unfold mbind, result_bind. rewrite Hys. exists (VList ys).
    split; [reflexivity|]. split; [intros [?|?]; contradiction|].
    intros _ _. exists ys. split; [reflexivity|].
    assert (Hlen : 0 < size ->
              Z.of_nat (length ys) = (Z.of_nat (length padded) + size - 1) / size).
    { intros Hs.
      rewrite <- (Forall2_length _ _ _ HF), length_range_step by assumption.
      rewrite Z2Nat.id; [reflexivity|].
      apply Z.div_pos; lia. }
    split; [exact Hlen|]. split; [|split].
    + intros Hs. unfold range_step in HF.
      destruct (Z.ltb_spec 0 size); [lia|]. now inversion HF.
    + intros k c Hk.
      destruct (Forall2_lookup_r _ _ _ _ _ HF Hk) as (i & Hi & Hc).
      unfold range_step in Hi. destruct (Z.ltb_spec 0 size) as [Hs|]; [|done].
      rewrite list_lookup_fmap in Hi.
      destruct (seq 0 _ !! k) as [k'|] eqn:Hk'; [|discriminate].
      apply lookup_seq in Hk' as [-> _]. injection Hi as <-.
      unfold slice in Hc.
      rewrite Z2Nat.inj_mul, Nat2Z.id in Hc by lia.
      destruct (reshape _ subdims) as [[c' fl]|]; [|discriminate].
      injection Hc as <-. eauto.
    + intros Hs Hd Hflat. rewrite (Hlen Hs).
      unfold padded. rewrite length_app, length_replicate.
      replace (Z.of_nat (length flat
                          + Z.to_nat (d0 * size - Z.of_nat (length flat)))
               + size - 1)
        with (size - 1 + d0 * size) by lia.
      rewrite Z.div_add, Z.div_small by lia. lia.
Qed.

Lemma reshape_slices_witness :
  exists r,
    reshape (VInt <$> [1; 2; 3; 4; 5]) [1; 0; 2]
    = Ok (r, VInt <$> [1; 2; 3; 4; 5])
    /\ exists chunks,
         r = VList chunks
         /\ Z.of_nat (length chunks) = 3
         /\ chunks !! 2%nat = Some (VList [VList [VInt 5; VList []]]).
Proof.
  destruct (proj1 (reshape_slices (VInt <$> [1; 2; 3; 4; 5]) 1 [0; 2]))
    as (r & Hr & _ & Hch).
  destruct Hch as (chunks & -> & Hlen & _); [discriminate|discriminate|].
  exists (VList chunks). split; [exact Hr|]. exists chunks.
  split; [reflexivity|]. split; [now apply Hlen|].
  vm_compute in Hr. now injection Hr as <-.
Defined.

(** ** The list branch of [from_binary] (C1) *)

Lemma from_binary_cursor_as_tag (ua : ua_package) (n : nat) (tag : pyobj)
    (s : Buffer) :
  from_binary ua (S (S n)) PBuffer tag s = Err TypeError.
Proof. reflexivity. Qed.

Lemma startswith_ListOf (T : string) :
  startswith "ListOf" ("ListOf" +:+ T) = true.
Proof.
  unfold startswith. apply bool_decide_eq_true_2. destruct T; reflexivity.
Qed.

Lemma from_binary_ListOf (ua : ua_package) (m : nat) (T : string) (data : pyobj) :
  from_binary ua (S m) (PStr ("ListOf" +:+ T)) data
  = (size ← with_buffer data Primitives.Int32_unpack;
     VList <$> dec_repeat (Z.to_nat size)
       (from_binary ua m data (PStr (drop6 ("ListOf" +:+ T))))).
Proof.
  cbn [from_binary]. now rewrite startswith_ListOf.
Qed.

(** C1.  On a tag ["ListOf<T>"] [from_binary] reads the 4-byte signed
    count, but decodes no element: the call for each element passes the
    cursor where the tag belongs, so a count of one or more ends in a
    [TypeError] whatever follows, and only a count below one returns (the
    empty list). *)
Theorem from_binary_list_decodes_no_element (ua : ua_package) (n : nat)
    (T : string) (b0 b1 b2 b3 : byte) (rest : bytes) :
  let size := to_signed 4 (le_val [b0; b1; b2; b3]) in
  (1 <= size ->
   from_binary ua (S (S (S n))) (PStr ("ListOf" +:+ T)) PBuffer
     (b0 :: b1 :: b2 :: b3 :: rest) = Err TypeError)
  /\ (size <= 0 ->
      from_binary ua (S (S (S n))) (PStr ("ListOf" +:+ T)) PBuffer
        (b0 :: b1 :: b2 :: b3 :: rest) = Ok (VList [], rest)).
Proof.
  intros size. rewrite from_binary_ListOf.
  unfold mbind, dec_bind, with_buffer. rewrite Int32_unpack_cons. fold size.
  split; intros H.
  - destruct (Z.to_nat size) as [|k] eqn:Hk; [lia|].
    unfold fmap, dec_fmap. cbn [dec_repeat]. unfold mbind, dec_bind.
    now rewrite from_binary_cursor_as_tag.
  - now rewrite Z2Nat.nonpos by lia.
Qed.

Lemma from_binary_list_decodes_no_element_witness :
  from_binary ua0 3 (PStr "ListOfInt32") PBuffer
    [x01; x00; x00; x00; x07; x00; x00; x00] = Err TypeError
  /\ from_binary ua0 3 (PStr "Int32") PBuffer [x07; x00; x00; x00]
     = Ok (VInt 7, []).
Proof.
  split; [|reflexivity].
  apply (proj1 (from_binary_list_decodes_no_element ua0 0 "Int32"
                  x01 x00 x00 x00 [x07; x00; x00; x00])).
  vm_compute. discriminate.
Defined.

(** ** ExtensionObject (C7) *)

Lemma Buffer_skip_enough (n : Z) (s : Buffer) :
  0 <= n <= Z.of_nat (length s) -> Buffer_skip n s = Ok (tt, drop (Z.to_nat n) s).
Proof.
  intros H. unfold Buffer_skip.
  destruct (Z.ltb_spec n 0); [lia|].
  destruct (Z.ltb_spec (Z.of_nat (length s)) n); [lia|reflexivity].
Qed.

Lemma nodeid_from_binary_zero (ua : ua_package) (rest : bytes) :
  nodeid_from_binary ua (x00 :: x00 :: rest) = Ok (NodeId_new ua, rest).
Proof.
  unfold nodeid_from_binary, mbind, dec_bind.
  rewrite read_ord_cons.
  change (Z.land (byte_val x00) 63) with 0.
  cbn [NodeIdType.of_value Z.eqb lift].
  now rewrite read_ord_cons.
Qed.

Lemma extensionobject_from_binary_zero (ua : ua_package) (data : Buffer)
    (typeid : NodeId) (e : byte) (rest : Buffer) :
  nodeid_from_binary ua data = Ok (typeid, e :: rest) ->
  ident_is_zero (Identifier typeid) = true ->
  (Z.land (byte_val e) 1 = 0 ->
   extensionobject_from_binary ua data = Ok (VNone, rest))
  /\ (Z.land (byte_val e) 1 <> 0 ->
      forall (b0 b1 b2 b3 : byte) (body : bytes),
        rest = b0 :: b1 :: b2 :: b3 :: body ->
        let length := to_signed 4 (le_val [b0; b1; b2; b3]) in
        (length < 1 ->
         extensionobject_from_binary ua data = Ok (VNone, body))
        /\ (1 <= length <= Z.of_nat (List.length body) ->
            extensionobject_from_binary ua data
            = Ok (VNone, drop (Z.to_nat length) body))).
Proof.
  intros Hn Hz.
  assert (Hhead : extensionobject_from_binary ua data
                  = (typeid ← mret typeid;
                     Encoding ← mret (byte_val e);
                     body ← (if Z.land Encoding 1 =? 0 then mret None
                             else length ← Primitives.Int32_unpack;
                                  if length <? 1 then mret (Some [])
                                  else b ← Buffer_copy length;
                                       _ ← Buffer_skip length;
                                       mret (Some b));
                     mret VNone) rest).
  { unfold extensionobject_from_binary, mbind, dec_bind.
    rewrite Hn, read_ord_cons. cbn [mret dec_ret].
    change (Z.shiftl 1 0) with 1.
    destruct (if Z.land (byte_val e) 1 =? 0 then _ else _) as [[body s]|];
      [|reflexivity].
    now rewrite Hz. }
  rewrite Hhead. unfold mbind, dec_bind. cbn [mret dec_ret]. split.
  - now intros ->.
  - intros He b0 b1 b2 b3 body ->.
    destruct (Z.eqb_spec (Z.land (byte_val e) 1) 0); [contradiction|].
    rewrite Int32_unpack_cons.
    set (len := to_signed 4 (le_val [b0; b1; b2; b3])). split; intros Hl.
    + now destruct (Z.ltb_spec len 1); [|lia].
    + destruct (Z.ltb_spec len 1); [lia|].
      unfold Buffer_copy. now rewrite Buffer_skip_enough by lia.
Qed.

(** C7.  [extensionobject_to_binary] of the absent value emits the zero
    NodeId (00 00), the Encoding byte 00 and no body.
    [extensionobject_from_binary] of a stream whose TypeId decodes with
    Identifier 0 gives the "no value" sentinel whether or not a body
    follows: on every stream that holds the Encoding byte and, when its bit
    0 is set, the length prefix and the body bytes it announces (a length
    below one announces none).  The bytes of the absent value decode to the
    absent value. *)
Theorem extensionobject_absent (ua : ua_package) :
  (forall n, extensionobject_to_binary ua (S (S n)) VNone
             = Ok ([x00; x00] ++ [x00], VNone))
  /\ nodeid_to_binary (NodeId_new ua) = Ok [x00; x00]
  /\ (forall (data : Buffer) (typeid : NodeId) (e : byte) (rest : Buffer),
        nodeid_from_binary ua data = Ok (typeid, e :: rest) ->
        ident_is_zero (Identifier typeid) = true ->
        (Z.land (byte_val e) 1 = 0 ->
         extensionobject_from_binary ua data = Ok (VNone, rest))
        /\ (Z.land (byte_val e) 1 <> 0 ->
            forall (b0 b1 b2 b3 : byte) (body : bytes),
              rest = b0 :: b1 :: b2 :: b3 :: body ->
              let length := to_signed 4 (le_val [b0; b1; b2; b3]) in
              (length < 1 ->
               extensionobject_from_binary ua data = Ok (VNone, body))
              /\ (1 <= length <= Z.of_nat (List.length body) ->
                  extensionobject_from_binary ua data
                  = Ok (VNone, drop (Z.to_nat length) body))))
  /\ (forall rest : bytes,
        extensionobject_from_binary ua ([x00; x00; x00] ++ rest) = Ok (VNone, rest)).
Proof.
  split; [reflexivity|]. split; [reflexivity|].
  split; [apply extensionobject_from_binary_zero|].
  intros rest.
  now apply (extensionobject_from_binary_zero ua _ (NodeId_new ua) x00 rest
               (nodeid_from_binary_zero ua (x00 :: rest))).
Qed.

Lemma extensionobject_absent_witness :
  extensionobject_from_binary ua0
    [x00; x00; x01; x02; x00; x00; x00; x0a; x0b; x0c] = Ok (VNone, [x0c]).
Proof.
  refine (proj2 (proj2 (proj1 (proj2 (proj2 (extensionobject_absent ua0)))
            [x00; x00; x01; x02; x00; x00; x00; x0a; x0b; x0c] (NodeId_new ua0) x01
            [x02; x00; x00; x00; x0a; x0b; x0c] eq_refl eq_refl) _
            x02 x00 x00 x00 [x0a; x0b; x0c] eq_refl) _).
  - vm_compute. discriminate.
  - vm_compute. split; discriminate.
Defined.

(** ** Writes to caller-owned values (C3) *)

(** Induction on values through their nested sequences. *)
Lemma val_seq_ind (P : val -> Prop) :
  (forall v, is_seq v = false -> P v) ->
  (forall l, Forall P l -> P (VList l)) ->
  (forall l, Forall P l -> P (VTuple l)) ->
  forall v, P v.
Proof.
  intros Hb HL HT. fix IH 1.
  intros [| | | | |l|l| | | | | | | | |]; try (apply Hb; reflexivity).
  - apply HL. induction l as [|x l IHl]; constructor; [apply IH|exact IHl].
  - apply HT. induction l as [|x l IHl]; constructor; [apply IH|exact IHl].
Qed.

Lemma refill_VList l ls :
  refill (VList l) ls = let '(l', ls') := refill_list l ls in (VList l', ls').
Proof. reflexivity. Qed.
Lemma refill_VTuple l ls :
  refill (VTuple l) ls = let '(l', ls') := refill_list l ls in (VTuple l', ls').
Proof. reflexivity. Qed.

Lemma refill_list_leaves (l : list val) :
  Forall (fun v => forall rest, refill v (leaves v ++ rest) = (v, rest)) l ->
  forall rest, refill_list l (concat (map leaves l) ++ rest) = (l, rest).
Proof.
  induction 1 as [|x l Hx _ IH]; intros rest; [reflexivity|].
  cbn [map concat refill_list]. rewrite <- app_assoc, Hx.
  fold refill_list. now rewrite IH.
Qed.

Lemma refill_leaves (v : val) (rest : list val) :
  refill v (leaves v ++ rest) = (v, rest).
Proof.
  revert rest. induction v as [v Hv|l IH|l IH] using val_seq_ind; intros rest.
  - destruct v; try discriminate Hv; reflexivity.
  - rewrite refill_VList. cbn [leaves]. now rewrite refill_list_leaves.
  - rewrite refill_VTuple. cbn [leaves]. now rewrite refill_list_leaves.
Qed.

Lemma refill_val_flat (v : val) : refill_val v (flatten v) = v.
Proof.
  destruct v; try reflexivity; unfold flatten, refill_val;
    rewrite <- (app_nil_r (leaves _)); now rewrite refill_leaves.
Qed.

Lemma mapR_snd_id {A B} (f : A -> result (B * A)) (l : list A) (r : list (B * A)) :
  (forall x y, f x = Ok y -> snd y = x) ->
  mapR f l = Ok r -> snd <$> r = l.
Proof.
  intros Hf. revert r. induction l as [|x l IH]; intros r; cbn.
  - now intros [= <-].
  - destruct (f x) as [y|] eqn:Hy; [|discriminate].
    destruct (mapR f l) as [ys|]; [|discriminate].
    intros [= <-]. cbn. now rewrite (Hf _ _ Hy), (IH ys).
Qed.

Lemma pack_uatype_primitive (ua : ua_package) (fuel : nat) (vt : vtype)
    (value : val) (y : bytes * val) :
  is_Some (Primitives_getattr ua (vt_name vt)) ->
  pack_uatype ua fuel vt value = Ok y -> snd y = value.
Proof.
  intros [st Hst]. destruct fuel as [|n]; [discriminate|]. cbn [pack_uatype].
  rewrite Hst. unfold mbind, result_bind.
  destruct (pack st value); [|discriminate]. now intros [= <-].
Qed.

Lemma pack_uatype_array_primitive (ua : ua_package) (fuel : nat) (vt : vtype)
    (array : val) (y : bytes * val) :
  is_Some (Primitives_getattr ua (vt_name vt)) ->
  pack_uatype_array ua fuel vt array = Ok y ->
  snd y = array.
Proof.
  intros Hst. destruct fuel as [|n]; [discriminate|]. cbn [pack_uatype_array].
  unfold mbind, result_bind.
  destruct array; try discriminate; try (now intros [= <-]); cbn [as_seq];
    (destruct (mapR _ _) as [r|] eqn:Hr; [|discriminate]);
    (destruct (Primitives.Int32_pack _); [|discriminate]);
    intros [= <-]; cbn; try reflexivity;
    now rewrite (mapR_snd_id _ _ _ (fun x y => pack_uatype_primitive ua n vt x y Hst) Hr).
Qed.

Lemma variant_to_binary_frame (ua : ua_package) (fuel : nat) (var var' : Variant)
    (b : bytes) :
  variant_to_binary ua fuel var = Ok (b, var') ->
  VariantType var' = VariantType var
  /\ Dimensions var' = Dimensions var
  /\ is_array var' = is_array var || is_seq (Value var)
  /\ (is_Some (Primitives_getattr ua (vt_name (VariantType var))) ->
      Value var' = Value var).
Proof.
  destruct fuel as [|n]; [discriminate|]. cbn [variant_to_binary].
  unfold mbind, result_bind.
  destruct (is_array var || is_seq (Value var)) eqn:Harr.
  - destruct (pack Primitives.UInt8 _); [|discriminate].
    destruct (pack_uatype_array ua n (VariantType var) (flatten (Value var)))
      as [[b2 flat]|] eqn:Hflat; [|discriminate].
    destruct (match Dimensions var with Some _ => _ | None => _ end);
      [|discriminate].
    intros [= <- <-]. cbn [VariantType Dimensions is_array Value].
    repeat split. intros Hst.
    apply (pack_uatype_array_primitive _ _ _ _ _ Hst) in Hflat.
    cbn [snd] in Hflat. subst flat. apply refill_val_flat.
  - destruct (pack Primitives.UInt8 _); [|discriminate].
    destruct (pack_uatype ua n (VariantType var) (Value var))
      as [[b2 value]|] eqn:Hval; [|discriminate].
    intros [= <- <-]. cbn. apply orb_false_iff in Harr as [-> _].
    repeat split. intros Hst.
    now apply (pack_uatype_primitive _ _ _ _ _ Hst) in Hval.
Qed.

Lemma reshape_leaves_flat_padded (flat : list val) (d0 : Z) (subdims : list Z)
    (r : val) (flat' : list val) :
  reshape flat (d0 :: subdims) = Ok (r, flat') ->
  flat' = pad d0 (subsize_of subdims) flat.
Proof.
  cbn [reshape]. destruct (_ || _); [now intros [= _ <-]|].
  unfold mbind, result_bind. destruct (mapR _ _); [|discriminate].
  now intros [= _ <-].
Qed.

(** The claim of C3 as the spec words it has [variant_to_binary] and
    [reshape] leave their arguments as they were.  [variant_to_binary]
    writes [is_array] on a Variant whose value is a list, and [reshape]
    appends its placeholders to the caller's list. *)
Lemma encoders_mutate_counterexample :
  ~ (forall (ua : ua_package) (fuel : nat) (var var' : Variant) (b : bytes),
       variant_to_binary ua fuel var = Ok (b, var') -> var' = var)
  /\ ~ (forall (flat : list val) (dims : list Z) (r : val) (flat' : list val),
          reshape flat dims = Ok (r, flat') -> flat' = flat).
Proof.
  split; intros H.
  - specialize (H ua0 3%nat (mkVariant (VList [VInt 1; VInt 2]) Int32_t None false)
                  (mkVariant (VList [VInt 1; VInt 2]) Int32_t None true)
                  _ eq_refl).
    discriminate H.
  - specialize (H [VInt 1] [2] _ _ eq_refl). discriminate H.
Qed.

Lemma rtc_write_in_list (pre post : list val) (x x' : val) :
  rtc write x x' ->
  rtc write (VList (pre ++ x :: post)) (VList (pre ++ x' :: post)).
Proof.
  apply (rtc_congruence (fun x => VList (pre ++ x :: post))).
  intros; now apply write_in_list.
Qed.

Lemma rtc_write_in_tuple (pre post : list val) (x x' : val) :
  rtc write x x' ->
  rtc write (VTuple (pre ++ x :: post)) (VTuple (pre ++ x' :: post)).
Proof.
  apply (rtc_congruence (fun x => VTuple (pre ++ x :: post))).
  intros; now apply write_in_tuple.
Qed.

Lemma rtc_write_in_variant (var : Variant) (x' : val) :
  rtc write (Value var) x' ->
  rtc write (VVariant var)
    (VVariant (mkVariant x' (VariantType var) (Dimensions var) (is_array var))).
Proof.
  destruct var as [v vt dims arr]. cbn.
  apply (rtc_congruence (fun x => VVariant (mkVariant x vt dims arr))).
  intros x y H. exact (write_in_variant (mkVariant x vt dims arr) y H).
Qed.

Lemma rtc_write_in_record (k : klass) (name : string) (x x' : val) :
  rtc write x x' ->
  forall attrs : gmap string val,
    attrs !! name = Some x ->
    rtc write (VObj k attrs) (VObj k (<[name := x']> attrs)).
Proof.
  induction 1 as [x|x y z Hxy _ IH]; intros attrs Hx.
  - now rewrite insert_id.
  - eapply rtc_l; [exact (write_in_record k attrs name x y Hx Hxy)|].
    specialize (IH (<[name := y]> attrs) (lookup_insert_eq _ _ _)).
    now rewrite insert_insert_eq in IH.
Qed.

Lemma mapS_length (f : val -> val * result bytes) (l : list val) :
  length (fst (mapS f l)) = length l.
Proof.
  induction l as [|x l IH]; [reflexivity|]. cbn [mapS].
  destruct (f x) as [x' [b|e]]; [|reflexivity].
  destruct (mapS f l) as [r' bs]. cbn in *. now rewrite IH.
Qed.

Lemma mapS_writes (f : val -> val * result bytes) (l : list val) :
  (forall x, rtc write x (fst (f x))) ->
  Forall2 (rtc write) l (fst (mapS f l)).
Proof.
  intros Hf. induction l as [|x l IH]; [constructor|]. cbn [mapS].
  pose proof (Hf x) as Hx.
  destruct (f x) as [x' [b|e]]; cbn [fst] in Hx.
  - destruct (mapS f l) as [r' bs]. cbn [fst] in *. now constructor.
  - cbn [fst]. constructor; [exact Hx|]. apply Forall_Forall2_diag.
    now apply Forall_forall.
Qed.

Lemma Forall2_rtc_write_list (l l' : list val) :
  Forall2 (rtc write) l l' ->
  forall pre, rtc write (VList (pre ++ l)) (VList (pre ++ l'))
              /\ rtc write (VTuple (pre ++ l)) (VTuple (pre ++ l')).
Proof.
  induction 1 as [|x x' l l' Hx _ IH]; intros pre; [split; reflexivity|].
  destruct (IH (pre ++ [x'])) as [HL HT]. rewrite <- !app_assoc in HL, HT.
  split.
  - etrans; [apply rtc_write_in_list, Hx|exact HL].
  - etrans; [apply rtc_write_in_tuple, Hx|exact HT].
Qed.

Lemma same_seq_writes (v : val) (l l' : list val) :
  as_seq v = Ok l -> Forall2 (rtc write) l l' -> rtc write v (same_seq v l').
Proof.
  intros Hv HF. destruct v; try discriminate Hv; cbn [same_seq];
    try reflexivity; injection Hv as ->.
  - exact (proj1 (Forall2_rtc_write_list _ _ HF [])).
  - exact (proj2 (Forall2_rtc_write_list _ _ HF [])).
Qed.

Lemma refill_list_writes (l : list val) :
  Forall (fun v => forall ls' rest,
            Forall2 (rtc write) (leaves v) ls' ->
            rtc write v (fst (refill v (ls' ++ rest)))
            /\ snd (refill v (ls' ++ rest)) = rest) l ->
  forall ls' rest,
    Forall2 (rtc write) (concat (map leaves l)) ls' ->
    Forall2 (rtc write) l (fst (refill_list l (ls' ++ rest)))
    /\ snd (refill_list l (ls' ++ rest)) = rest.
Proof.
  induction 1 as [|x l Hx _ IH]; intros ls' rest HF.
  - cbn in HF. inversion HF; subst. split; [constructor|reflexivity].
  - cbn [map concat] in HF.
    apply Forall2_app_inv_l in HF as (l1 & l2 & H1 & H2 & ->).
    cbn [refill_list]. rewrite <- app_assoc.
    destruct (Hx l1 (l2 ++ rest) H1) as [Hw Hs].
    destruct (refill x (l1 ++ l2 ++ rest)) as [x' ls1]. cbn [fst snd] in Hw, Hs.
    subst ls1. fold refill_list.
    destruct (IH l2 rest H2) as [Hw' Hs'].
    destruct (refill_list l (l2 ++ rest)) as [r' ls2]. cbn [fst snd] in *.
    split; [now constructor|assumption].
Qed.

Lemma refill_writes (v : val) (ls' rest : list val) :
  Forall2 (rtc write) (leaves v) ls' ->
  rtc write v (fst (refill v (ls' ++ rest)))
  /\ snd (refill v (ls' ++ rest)) = rest.
Proof.
  revert ls' rest.
  induction v as [v Hv|l IH|l IH] using val_seq_ind; intros ls' rest HF.
  - assert (Hl : leaves v = [v]) by (destruct v; try discriminate Hv; reflexivity).
    rewrite Hl in HF. inversion HF as [|? y ? ? Hy Hnil]; subst.
    inversion Hnil; subst.
    destruct v; try discriminate Hv; cbn; auto.
  - rewrite refill_VList. cbn [leaves] in HF.
    destruct (refill_list_writes l IH ls' rest HF) as [Hw Hs].
    destruct (refill_list l (ls' ++ rest)) as [l' ls2]. cbn [fst snd] in *.
    split; [exact (proj1 (Forall2_rtc_write_list _ _ Hw []))|assumption].
  - rewrite refill_VTuple. cbn [leaves] in HF.
    destruct (refill_list_writes l IH ls' rest HF) as [Hw Hs].
    destruct (refill_list l (ls' ++ rest)) as [l' ls2]. cbn [fst snd] in *.
    split; [exact (proj2 (Forall2_rtc_write_list _ _ Hw []))|assumption].
Qed.

(** The leaves of a flattened value, once written, seen from the value. *)
Lemma refill_val_writes (v flat' : val) (l' : list val) :
  is_seq v = true ->
  Forall2 (rtc write) (leaves v) l' ->
  flat' = VList l' ->
  rtc write v (refill_val v flat').
Proof.
  intros _ HF ->. cbn [refill_val].
  rewrite <- (app_nil_r l'). exact (proj1 (refill_writes v l' [] HF)).
Qed.

Lemma getattr_Ok (attrs : gmap string val) (name : string) (v : val) :
  getattr attrs name = Ok v -> attrs !! name = Some v.
Proof. unfold getattr. destruct (attrs !! name); now intros [= <-]. Qed.

Lemma set_switches_loop_writes (k : klass)
    (switches : list (string * (string * Z))) :
  ua_switches k = Some switches ->
  forall (sw : list (string * (string * Z))) (attrs : gmap string val),
    (forall entry, entry ∈ sw -> entry ∈ switches) ->
    rtc write (VObj k attrs) (VObj k (fst (set_switches_loop attrs sw))).
Proof.
  intros Hk. induction sw as [|[name [cname idx]] sw IH]; intros attrs Hin;
    [reflexivity|].
  cbn [set_switches_loop].
  assert (Hrest : forall entry, entry ∈ sw -> entry ∈ switches)
    by (intros entry He; apply Hin; now right).
  destruct (set_switch attrs (name, (cname, idx))) as [attrs'|e] eqn:Hs;
    [|reflexivity].
  etrans; [|apply (IH attrs' Hrest)].
  unfold set_switch, mbind, result_bind in Hs.
  destruct (getattr attrs name) as [member|] eqn:Hm; [|discriminate].
  destruct (is_None member) eqn:Hn; [injection Hs as <-; reflexivity|].
  destruct (getattr attrs cname) as [cv|] eqn:Hc; [|discriminate].
  destruct (or_bit cv idx) as [cv'|] eqn:Ho; [|discriminate].
  injection Hs as <-. apply rtc_once.
  eapply (write_switch k attrs switches name cname idx member cv cv');
    eauto using getattr_Ok.
  apply Hin. now left.
Qed.

Lemma set_switches_st_writes (k : klass) (attrs : gmap string val) :
  rtc write (VObj k attrs) (VObj k (fst (set_switches_st k attrs))).
Proof.
  unfold set_switches_st.
  destruct (ua_switches k) as [switches|] eqn:Hk; [|reflexivity].
  now apply (set_switches_loop_writes k switches Hk).
Qed.

Lemma fields_loop_writes (k : klass)
    (tb : val -> option string -> val * result bytes)
    (ltb : val -> string -> val * result bytes) :
  (forall v t, rtc write v (fst (tb v t))) ->
  (forall v T, rtc write v (fst (ltb v T))) ->
  forall (fields : list (string * string)) (packet : bytes)
         (attrs : gmap string val),
    rtc write (VObj k attrs)
      (VObj k (fst (fields_loop (field_to_binary_st tb ltb k)
                      packet attrs fields))).
Proof.
  intros Htb Hltb.
  induction fields as [|[name uatype] fields IH]; intros packet attrs;
    [reflexivity|].
  cbn [fields_loop].
  assert (Hstep : rtc write (VObj k attrs)
                    (VObj k (fst (field_to_binary_st tb ltb k packet attrs
                                    (name, uatype))))).
  { unfold field_to_binary_st.
    destruct (getattr attrs name) as [value|] eqn:Hv; [|reflexivity].
    apply getattr_Ok in Hv.
    destruct (startswith "ListOf" uatype).
    - pose proof (Hltb value (drop6 uatype)) as Hw.
      destruct (ltb value (drop6 uatype)) as [value' r]. cbn [fst] in *.
      exact (rtc_write_in_record k name value value' Hw attrs Hv).
    - destruct (is_None value && in_switches k name); [reflexivity|].
      pose proof (Htb value (Some uatype)) as Hw.
      destruct (tb value (Some uatype)) as [value' r]. cbn [fst] in *.
      exact (rtc_write_in_record k name value value' Hw attrs Hv). }
  destruct (field_to_binary_st tb ltb k packet attrs (name, uatype))
    as [attrs' [packet'|e]]; cbn [fst] in Hstep; [|exact Hstep].
  etrans; [exact Hstep|apply IH].
Qed.

Lemma pack_uatype_array_st_scalar (ua : ua_package) (fuel : nat) (vt : vtype)
    (v : val) :
  is_seq v = false ->
  fst (pack_uatype_array_st ua fuel vt v) = v.
Proof.
  intros Hv. destruct fuel as [|n]; [reflexivity|].
  cbn [pack_uatype_array_st].
  destruct v; try discriminate Hv; try reflexivity; cbn [as_seq];
    now destruct (mapS _ _).
Qed.

(** What the encoders leave of their argument, whether they return or
    raise, is the argument after some writes. *)
Lemma encoders_write (ua : ua_package) :
  (forall v, rtc write v (fst (value_to_binary ua v))) ->
  forall fuel : nat,
    (forall v t, rtc write v (fst (to_binary_st ua fuel v t)))
    /\ (forall k attrs,
          rtc write (VObj k attrs) (fst (struct_to_binary_st ua fuel k attrs)))
    /\ (forall value T, rtc write value (fst (list_to_binary_st ua fuel value T)))
    /\ (forall var,
          rtc write (VVariant var)
            (VVariant (fst (variant_to_binary_st ua fuel var))))
    /\ (forall vt value, rtc write value (fst (pack_uatype_st ua fuel vt value)))
    /\ (forall vt array l,
          as_seq array = Ok l ->
          exists l',
            fst (pack_uatype_array_st ua fuel vt array) = same_seq array l'
            /\ Forall2 (rtc write) l l')
    /\ (forall obj, rtc write obj (fst (extensionobject_to_binary_st ua fuel obj))).
Proof.
  intros Hext.
  induction fuel as [|n (IHtb & IHst & IHl & IHv & IHp & IHpa & IHe)].
  { repeat split; intros; try reflexivity.
    exists l. split; [|apply Forall_Forall2_diag; now apply Forall_forall].
    destruct array; try discriminate; cbn in *; congruence. }
  split; [|split; [|split; [|split; [|split; [|split]]]]].
  - (* to_binary *)
    intros v t. cbn [to_binary_st].
    destruct (t ≫= Primitives_getattr ua); [reflexivity|].
    destruct v; try reflexivity;
      try (destruct (bool_decide (t = Some "ExtensionObject"));
           [apply IHe|reflexivity]).
    + pose proof (IHv v) as Hv.
      now destruct (variant_to_binary_st ua n v).
    + apply IHst.
  - (* struct_to_binary *)
    intros k attrs. cbn [struct_to_binary_st].
    pose proof (set_switches_st_writes k attrs) as Hs.
    destruct (set_switches_st k attrs) as [attrs1 [u|e]]; cbn [fst] in Hs;
      [|exact Hs].
    pose proof (fields_loop_writes k _ _ IHtb IHl (ua_types k) [] attrs1) as Hf.
    destruct (fields_loop _ [] attrs1 (ua_types k)) as [attrs2 r].
    cbn [fst] in *. etrans; eassumption.
  - (* list_to_binary *)
    intros value T. cbn [list_to_binary_st].
    assert (Hgen : rtc write value
              (fst match as_seq value with
                   | Ok l =>
                       match Primitives.Int32_pack (Z.of_nat (length l)) with
                       | Ok h =>
                           let '(l', r) :=
                             mapS (fun el => to_binary_st ua n el (Some T)) l in
                           (same_seq value l', (fun bs => h ++ concat bs) <$> r)
                       | Err e => (value, Err e)
                       end
                   | Err e => (value, Err e)
                   end)).
    { destruct (as_seq value) as [l|] eqn:Hl; [|reflexivity].
      destruct (Primitives.Int32_pack _); [|reflexivity].
      pose proof (mapS_writes (fun el => to_binary_st ua n el (Some T)) l
                    (fun x => IHtb x (Some T))) as HF.
      destruct (mapS _ l) as [l' r]. cbn [fst] in *.
      now apply (same_seq_writes value l l'). }
    destruct value; first [exact Hgen | reflexivity].
  - (* variant_to_binary *)
    intros var. cbn [variant_to_binary_st].
    destruct (is_array var || is_seq (Value var)) eqn:Harr.
    + eapply rtc_l; [exact (write_is_array var Harr)|].
      cbn [Value VariantType Dimensions is_array].
      destruct (pack Primitives.UInt8 _) as [b1|e]; [|reflexivity].
      assert (Hval : rtc write (Value var)
                (refill_val (Value var)
                   (fst (pack_uatype_array_st ua n (VariantType var)
                           (flatten (Value var)))))).
      { destruct (is_seq (Value var)) eqn:Hseq.
        - assert (Hf : flatten (Value var) = VList (leaves (Value var)))
            by (destruct (Value var); try discriminate; reflexivity).
          rewrite Hf.
          destruct (IHpa (VariantType var) (VList (leaves (Value var)))
                      (leaves (Value var)) eq_refl) as (l' & -> & HF).
          now apply (refill_val_writes _ _ l' Hseq).
        - assert (Hf : flatten (Value var) = Value var)
            by (destruct (Value var); try discriminate; reflexivity).
          rewrite Hf, pack_uatype_array_st_scalar by assumption.
          destruct (Value var); try discriminate; reflexivity. }
      destruct (pack_uatype_array_st ua n (VariantType var)
                  (flatten (Value var))) as [flat r]. cbn [fst] in Hval.
      assert (Hres : rtc write
                (VVariant (mkVariant (Value var) (VariantType var)
                             (Dimensions var) true))
                (VVariant (mkVariant (refill_val (Value var) flat)
                             (VariantType var) (Dimensions var) true)))
        by exact (rtc_write_in_variant
                    (mkVariant (Value var) (VariantType var) (Dimensions var) true)
                    _ Hval).
      now destruct r.
    + destruct (pack Primitives.UInt8 _) as [b1|e]; [|reflexivity].
      pose proof (IHp (VariantType var) (Value var)) as Hval.
      destruct (pack_uatype_st ua n (VariantType var) (Value var)) as [value r].
      cbn [fst] in *. now apply rtc_write_in_variant.
  - (* pack_uatype *)
    intros vt value. cbn [pack_uatype_st].
    destruct (Primitives_getattr ua (vt_name vt)); [reflexivity|].
    destruct (25 <? vt_value vt); [reflexivity|].
    destruct (bool_decide (vt_name vt = "ExtensionObject")); [apply IHe|].
    pose proof (Hext value) as Hv.
    destruct (value_to_binary ua value) as [value' [b|[]]]; exact Hv.
  - (* pack_uatype_array *)
    intros vt array l Hl. cbn [pack_uatype_array_st].
    destruct array; try discriminate Hl; rewrite Hl;
      (pose proof (mapS_writes (pack_uatype_st ua n vt) l (IHp vt)) as HF;
       destruct (mapS (pack_uatype_st ua n vt) l) as [l' r];
       exists l'; split; [reflexivity|exact HF]).
  - (* extensionobject_to_binary *)
    intros obj. cbn [extensionobject_to_binary_st].
    assert (Hgen : rtc write obj
              (fst match extension_object_ids ua (class_name obj) with
                   | Some TypeId =>
                       let '(obj', Body) := to_binary_st ua n obj None in
                       (obj', Body ← Body; Ok (TypeId, 1, Some Body))
                   | None => (obj, Err KeyError)
                   end)).
    { destruct (extension_object_ids ua (class_name obj)); [|reflexivity].
      pose proof (IHtb obj None) as Hw.
      now destruct (to_binary_st ua n obj None). }
    destruct obj; try reflexivity;
      match goal with
      | |- context [let '(_, _) := ?p in _] => now destruct p
      end.
Qed.

Lemma write_holds_object (v v' : val) : write v v' -> holds_object v = true.
Proof.
  induction 1; try reflexivity; cbn [holds_object];
    rewrite existsb_app; cbn [existsb]; rewrite IHwrite;
    now rewrite orb_true_r.
Qed.

Lemma rtc_write_frozen (v v' : val) :
  holds_object v = false -> rtc write v v' -> v' = v.
Proof.
  intros Hv H. destruct H as [|v u v' Hw _]; [reflexivity|].
  apply write_holds_object in Hw. congruence.
Qed.

(** No write changes the VariantType or the Dimensions of a Variant. *)
Lemma rtc_write_variant (u u' : val) :
  rtc write u u' ->
  forall var, u = VVariant var ->
  exists var',
    u' = VVariant var'
    /\ VariantType var' = VariantType var
    /\ Dimensions var' = Dimensions var
    /\ rtc write (Value var) (Value var').
Proof.
  induction 1 as [u|u w u' Hw _ IH]; intros var ->.
  - exists var. now repeat split.
  - inversion Hw; subst.
    + destruct (IH _ eq_refl) as (var' & -> & Ht & Hd & Hval).
      exists var'. now repeat split.
    + destruct (IH _ eq_refl) as (var' & -> & Ht & Hd & Hval).
      exists var'. repeat split; try assumption.
      cbn [Value] in Hval. eapply rtc_l; eassumption.
Qed.

Lemma variant_to_binary_st_is_array (ua : ua_package) (n : nat) (var : Variant) :
  is_array (fst (variant_to_binary_st ua (S n) var))
  = is_array var || is_seq (Value var).
Proof.
  cbn [variant_to_binary_st].
  destruct (is_array var || is_seq (Value var)) eqn:Harr.
  - cbn [Value VariantType Dimensions is_array].
    destruct (pack Primitives.UInt8 _); [|reflexivity].
    destruct (pack_uatype_array_st ua n _ _) as [flat [b2|e]]; reflexivity.
  - apply orb_false_iff in Harr as [Ha _].
    destruct (pack Primitives.UInt8 _); [|exact Ha].
    destruct (pack_uatype_st ua n _ _) as [value r]. exact Ha.
Qed.

Lemma reshape_pads (flat : list val) (d0 : Z) (subdims : list Z) :
  exists r,
    reshape flat (d0 :: subdims)
    = Ok (r, flat ++ replicate
               (Z.to_nat (d0 * spec_slice_size subdims - Z.of_nat (length flat)))
               (VList [])).
Proof.
  destruct (reshape_total (d0 :: subdims) ltac:(discriminate) flat)
    as (r & flat' & H).
  exists r. rewrite H. apply reshape_leaves_flat_padded in H as ->.
  now rewrite subsize_of_spec.
Qed.

(** C3, amended.  The encoders write to the values they are handed, and to
    the values held inside them (the elements of a list or a tuple, the
    value of a Variant, the fields of a record), in two ways only: the
    switch-container setting of [struct_to_binary], and [var.is_array = True]
    of [variant_to_binary], made on a Variant that is flagged as an array
    or whose value is a list or a tuple.  Given that the [to_binary] methods
    of the package's own classes write nothing else either, every encoder,
    whether it returns or raises, leaves its argument as it was up to such
    writes, and exactly as it was when the argument neither is nor holds,
    in its lists and tuples, a Variant or a record.  [variant_to_binary]
    leaves the VariantType and the Dimensions of the Variant as they were
    and [is_array] true exactly when it was true or the value is a list or
    a tuple, also when it raises after the assignment.  [reshape], the one
    decode helper that is handed a mutable value, returns for every
    non-empty [dims] and leaves its [flat] argument extended by the
    placeholders it appends: as many empty lists as [flat] lacks up to [d0]
    times the slice size, none when it is that long already. *)
Theorem encoders_write_only_flags (ua : ua_package)
    (Hpkg : forall v, rtc write v (fst (value_to_binary ua v))) (fuel : nat) :
  ((forall v t, rtc write v (fst (to_binary_st ua fuel v t)))
   /\ (forall k attrs,
         rtc write (VObj k attrs) (fst (struct_to_binary_st ua fuel k attrs)))
   /\ (forall value T, rtc write value (fst (list_to_binary_st ua fuel value T)))
   /\ (forall var,
         rtc write (VVariant var)
           (VVariant (fst (variant_to_binary_st ua fuel var))))
   /\ (forall vt value, rtc write value (fst (pack_uatype_st ua fuel vt value)))
   /\ (forall vt array,
         rtc write array (fst (pack_uatype_array_st ua fuel vt array)))
   /\ (forall obj,
         rtc write obj (fst (extensionobject_to_binary_st ua fuel obj))))
  /\ (forall v,
        holds_object v = false ->
        (forall t, fst (to_binary_st ua fuel v t) = v)
        /\ (forall T, fst (list_to_binary_st ua fuel v T) = v)
        /\ (forall vt, fst (pack_uatype_st ua fuel vt v) = v)
        /\ (forall vt, fst (pack_uatype_array_st ua fuel vt v) = v)
        /\ fst (extensionobject_to_binary_st ua fuel v) = v)
  /\ (forall var,
        let var' := fst (variant_to_binary_st ua (S fuel) var) in
        VariantType var' = VariantType var
        /\ Dimensions var' = Dimensions var
        /\ is_array var' = is_array var || is_seq (Value var)
        /\ (holds_object (Value var) = false -> Value var' = Value var))
  /\ (forall (flat : list val) (d0 : Z) (subdims : list Z),
        exists r,
          reshape flat (d0 :: subdims)
          = Ok (r, flat ++ replicate
                     (Z.to_nat (d0 * spec_slice_size subdims
                                - Z.of_nat (length flat)))
                     (VList []))).
Proof.
  assert (Hpa : forall n vt array,
            rtc write array (fst (pack_uatype_array_st ua n vt array))).
  { intros n vt array.
    destruct (encoders_write ua Hpkg n) as (_ & _ & _ & _ & _ & Hpa & _).
    destruct (as_seq array) as [l|e] eqn:Hl.
    - destruct (Hpa vt array l Hl) as (l' & -> & HF).
      now apply (same_seq_writes array l l').
    - destruct n as [|n]; [reflexivity|]. cbn [pack_uatype_array_st].
      rewrite Hl. now destruct array. }
  destruct (encoders_write ua Hpkg fuel) as (Htb & Hst & Hl & Hv & Hp & _ & He).
  split; [|split; [|split]].
  - repeat split; auto.
  - intros v Hv0. repeat split; intros; apply rtc_write_frozen; auto.
  - intros var. cbv zeta.
    destruct (encoders_write ua Hpkg (S fuel)) as (_ & _ & _ & HvS & _).
    destruct (rtc_write_variant _ _ (HvS var) var eq_refl)
      as (var' & [= <-] & Ht & Hd & Hval).
    repeat split; [exact Ht|exact Hd|apply variant_to_binary_st_is_array|].
    intros H0. now apply rtc_write_frozen.
  - apply reshape_pads.
Qed.

Lemma encoders_write_only_flags_witness :
  (forall v, rtc write v (fst (value_to_binary ua0 v)))
  /\ variant_to_binary_st ua0 3
       (mkVariant (VList [VInt 1; VStr []]) Int32_t None false)
     = (mkVariant (VList [VInt 1; VStr []]) Int32_t None true, Err StructError)
  /\ rtc write
       (VVariant (mkVariant (VList [VInt 1; VStr []]) Int32_t None false))
       (VVariant (mkVariant (VList [VInt 1; VStr []]) Int32_t None true))
  /\ exists r, reshape [VInt 1] [3] = Ok (r, [VInt 1; VList []; VList []]).
Proof.
  assert (H0 : forall v, rtc write v (fst (value_to_binary ua0 v)))
    by (intros v; apply rtc_refl).
  split; [exact H0|]. split; [reflexivity|]. split.
  - exact (proj1 (proj2 (proj2 (proj2
             (proj1 (encoders_write_only_flags ua0 H0 3%nat)))))
             (mkVariant (VList [VInt 1; VStr []]) Int32_t None false)).
  - exact (proj2 (proj2 (proj2 (encoders_write_only_flags ua0 H0 3%nat)))
             [VInt 1] 3 []).
Defined.

(** ** The two forms of the encoders *)





(** ** Optional fields and their switches (C2) *)

Lemma test_bit_spec (c j : Z) :
  0 <= j -> test_bit c j <> 0 <-> Z.testbit c j = true.
Proof.
  intros Hj. unfold test_bit. rewrite Z.shiftl_1_l. split.
  - intros H. destruct (Z.testbit c j) eqn:Hb; [reflexivity|].
    exfalso. apply H. apply Z.bits_inj'. intros k Hk.
    rewrite Z.land_spec, Z.bits_0, Z.pow2_bits_eqb by lia.
    destruct (Z.eqb_spec j k) as [->|]; [now rewrite Hb|apply andb_false_r].
  - intros Hb H. apply (f_equal (fun z => Z.testbit z j)) in H.
    rewrite Z.land_spec, Z.bits_0, Z.pow2_bits_eqb, Hb, Z.eqb_refl in H by lia.
    discriminate H.
Qed.

Lemma to_binary_int_untyped (ua : ua_package) (fuel : nat) (v : val) (z : Z) :
  int_of v = Some z -> exists e, to_binary ua fuel v None = Err e.
Proof.
  intros Hv. destruct fuel as [|n]; [now eexists|].
  destruct v; try discriminate Hv; cbn; eauto.
Qed.

Lemma extensionobject_to_binary_int (ua : ua_package) (fuel : nat) (v : val) (z : Z) :
  int_of v = Some z -> exists e, extensionobject_to_binary ua fuel v = Err e.
Proof.
  intros Hv. destruct fuel as [|n]; [now eexists|].
  destruct (to_binary_int_untyped ua n v z Hv) as [e He].
  destruct v; try discriminate Hv; cbn [extensionobject_to_binary class_name];
    (destruct (extension_object_ids ua _); [|cbn; eauto]);
    rewrite He; cbn; eauto.
Qed.

Lemma to_binary_int (ua : ua_package) (fuel : nat) (v v' : val) (z : Z)
    (uatype : option string) (b : bytes) :
  int_of v = Some z -> to_binary ua fuel v uatype = Ok (b, v') -> v' = v.
Proof.
  intros Hv. destruct fuel as [|n]; [discriminate|]. cbn [to_binary].
  destruct (uatype ≫= Primitives_getattr ua) as [st|].
  - unfold mbind, result_bind. destruct (pack st v); [|discriminate].
    now intros [= _ <-].
  - destruct (extensionobject_to_binary_int ua n v z Hv) as [e He].
    destruct v; try discriminate Hv; rewrite He;
      destruct (bool_decide _); discriminate.
Qed.

Lemma list_to_binary_int (ua : ua_package) (fuel : nat) (v : val) (z : Z)
    (uatype : string) (y : bytes * val) :
  int_of v = Some z -> list_to_binary ua fuel v uatype <> Ok y.
Proof.
  intros Hv. destruct fuel as [|n]; [discriminate|].
  destruct v; try discriminate Hv; discriminate.
Qed.

Lemma or_bit_Ok (cv : val) (idx : Z) (cv' : val) :
  or_bit cv idx = Ok cv' ->
  0 <= idx /\ exists z, int_of cv = Some z /\ cv' = VInt (Z.lor z (Z.shiftl 1 idx)).
Proof.
  unfold or_bit. destruct (Z.ltb_spec idx 0); [discriminate|].
  destruct cv; try discriminate; intros [= <-]; eauto.
Qed.

Lemma set_switch_spec (attrs attrs' : gmap string val) (name cn : string) (i : Z) :
  set_switch attrs (name, (cn, i)) = Ok attrs' ->
  (is_None <$> attrs !! name = Some true /\ attrs' = attrs)
  \/ (is_None <$> attrs !! name = Some false /\ 0 <= i
      /\ exists cv z, attrs !! cn = Some cv /\ int_of cv = Some z
           /\ attrs' = <[cn := VInt (Z.lor z (Z.shiftl 1 i))]> attrs).
Proof.
  unfold set_switch, getattr, mbind, result_bind.
  destruct (attrs !! name) as [member|]; [|discriminate]. cbn.
  destruct (is_None member); [intros [= <-]; now left|].
  destruct (attrs !! cn) as [cv|]; [|discriminate].
  destruct (or_bit cv i) as [cv'|] eqn:Hor; [|discriminate].
  apply or_bit_Ok in Hor as (Hi & z & Hz & ->).
  intros [= <-]. right. eauto 10.
Qed.

Lemma int_of_not_None (v : val) (z : Z) : int_of v = Some z -> is_None v = false.
Proof. now destruct v. Qed.

Lemma set_switch_presence (attrs attrs' : gmap string val)
    (e : string * (string * Z)) (key : string) :
  set_switch attrs e = Ok attrs' ->
  is_None <$> attrs' !! key = is_None <$> attrs !! key.
Proof.
  destruct e as [name [cn i]]. intros H.
  apply set_switch_spec in H as [[_ ->] | (_ & _ & cv & z & Hcv & Hz & ->)];
    [reflexivity|].
  destruct (decide (cn = key)) as [<-|Hne].
  - rewrite lookup_insert_eq, Hcv. cbn. now rewrite (int_of_not_None _ _ Hz).
  - now rewrite lookup_insert_ne.
Qed.

(** After the switch loop, a bit of a container is set exactly when it was
    set before or a present optional field is guarded by it. *)
Lemma set_switches_bits (sw : list (string * (string * Z))) :
  forall (attrs attrs' : gmap string val) (cname : string) (c : Z),
    foldlR set_switch attrs sw = Ok attrs' ->
    attrs !! cname = Some (VInt c) ->
    (forall key, is_None <$> attrs' !! key = is_None <$> attrs !! key)
    /\ exists c', attrs' !! cname = Some (VInt c')
         /\ forall j, 0 <= j ->
              Z.testbit c' j = true
              <-> Z.testbit c j = true
                  \/ exists name, (name, (cname, j)) ∈ sw
                       /\ is_None <$> attrs !! name = Some false.
Proof.
  induction sw as [|[name [cn i]] sw IH]; intros attrs attrs' cname c;
    cbn [foldlR].
  - intros [= <-] Hc. split; [reflexivity|]. exists c. split; [exact Hc|].
    intros j _. split; [now left|]. intros [H|(n & Hn & _)]; [exact H|].
    now apply elem_of_nil in Hn.
  - unfold mbind, result_bind.
    destruct (set_switch attrs (name, (cn, i))) as [attrs1|] eqn:Hstep;
      [|discriminate].
    intros Hfold Hc.
    pose proof (fun key => set_switch_presence _ _ _ key Hstep) as Hpres.
    apply set_switch_spec in Hstep
      as [[Hnone ->] | (Hsome & Hi & cv & z & Hcv & Hz & ->)].
    + destruct (IH _ _ _ _ Hfold Hc) as (Hp & c' & Hc' & Hbits).
      split; [exact Hp|]. exists c'. split; [exact Hc'|]. intros j Hj.
      rewrite (Hbits j Hj). split; (intros [H|(n & Hn & Hpn)]; [now left|right]).
      * exists n. split; [now right|exact Hpn].
      * apply elem_of_cons in Hn as [[= -> -> ->]|Hn]; [congruence|eauto].
    + destruct (decide (cn = cname)) as [->|Hne].
      * rewrite Hc in Hcv. injection Hcv as <-. injection Hz as <-.
        rewrite Z.shiftl_1_l in Hfold, Hpres.
        destruct (IH _ _ cname (Z.lor c (2 ^ i)) Hfold)
          as (Hp & c' & Hc' & Hbits); [apply lookup_insert_eq|].
        split; [intros key; rewrite Hp; apply Hpres|].
        exists c'. split; [exact Hc'|]. intros j Hj.
        rewrite (Hbits j Hj), Z.lor_spec, Z.pow2_bits_eqb, orb_true_iff by lia.
        split.
        -- intros [[H|H]|(n & Hn & Hpn)]; [now left| |].
           ++ apply Z.eqb_eq in H as ->. right. exists name. split; [now left|].
              exact Hsome.
           ++ right. exists n. split; [now right|]. rewrite (Hpres n) in Hpn; exact Hpn.
        -- intros [H|(n & Hn & Hpn)]; [now left; left|].
           apply elem_of_cons in Hn as [[= -> ->]|Hn].
           ++ left; right. apply Z.eqb_refl.
           ++ right. exists n. split; [exact Hn|]. rewrite (Hpres n); exact Hpn.
      * destruct (IH _ _ cname c Hfold) as (Hp & c' & Hc' & Hbits);
          [now rewrite lookup_insert_ne|].
        split; [intros key; rewrite Hp; apply Hpres|].
        exists c'. split; [exact Hc'|]. intros j Hj. rewrite (Hbits j Hj).
        split; (intros [H|(n & Hn & Hpn)]; [now left|right]).
        -- exists n. split; [now right|]. rewrite (Hpres n) in Hpn; exact Hpn.
        -- apply elem_of_cons in Hn as [[= -> -> ->]|Hn]; [congruence|].
           exists n. split; [exact Hn|]. rewrite (Hpres n); exact Hpn.
Qed.

Lemma field_to_binary_keeps_int (ua : ua_package) (n : nat) (k : klass)
    (acc acc' : bytes * gmap string val) (field : string * string)
    (cname : string) (c : Z) :
  field_to_binary (to_binary ua n) (list_to_binary ua n) k acc field = Ok acc' ->
  acc.2 !! cname = Some (VInt c) -> acc'.2 !! cname = Some (VInt c).
Proof.
  destruct acc as [packet attrs], field as [name uatype].
  unfold field_to_binary, getattr, mbind, result_bind. cbn [snd].
  destruct (attrs !! name) as [value|] eqn:Hval; [|discriminate].
  intros H Hc. destruct (startswith "ListOf" uatype).
  - destruct (list_to_binary ua n value (drop6 uatype)) as [[b value']|] eqn:Hl;
      [|discriminate].
    injection H as <-. cbn [snd]. destruct (decide (name = cname)) as [->|Hne];
      [|now rewrite lookup_insert_ne].
    rewrite Hc in Hval. injection Hval as <-.
    now apply (list_to_binary_int ua n (VInt c) c) in Hl.
  - destruct (is_None value && in_switches k name); [now injection H as <-|].
    destruct (to_binary ua n value (Some uatype)) as [[b value']|] eqn:Ht;
      [|discriminate].
    injection H as <-. cbn [snd]. destruct (decide (name = cname)) as [->|Hne];
      [|now rewrite lookup_insert_ne].
    rewrite Hc in Hval. injection Hval as <-.
    apply (to_binary_int ua n (VInt c) value' c) in Ht as ->; [|reflexivity].
    apply lookup_insert_eq.
Qed.

Lemma fields_to_binary_keep_int (ua : ua_package) (n : nat) (k : klass)
    (fields : list (string * string)) (cname : string) (c : Z) :
  forall acc acc' : bytes * gmap string val,
    foldlR (field_to_binary (to_binary ua n) (list_to_binary ua n) k) acc fields
    = Ok acc' ->
    acc.2 !! cname = Some (VInt c) -> acc'.2 !! cname = Some (VInt c).
Proof.
  induction fields as [|field fields IH]; intros acc acc'; cbn [foldlR].
  - now intros [= <-].
  - unfold mbind, result_bind.
    destruct (field_to_binary _ _ k acc field) as [acc1|] eqn:Hstep;
      [|discriminate].
    intros Hfold Hc. apply (IH _ _ Hfold).
    exact (field_to_binary_keeps_int _ _ _ _ _ _ _ _ Hstep Hc).
Qed.

Lemma present_iff (attrs : gmap string val) (name : string) :
  is_None <$> attrs !! name = Some false
  <-> exists member, attrs !! name = Some member /\ member <> VNone.
Proof.
  destruct (attrs !! name) as [member|]; cbn.
  - split.
    + intros [= H]. exists member. split; [reflexivity|]. now intros ->.
    + intros (m & [= <-] & Hm). destruct member; try reflexivity. congruence.
  - split; [discriminate|]. now intros (m & [=] & _).
Qed.

Lemma struct_to_binary_bits (ua : ua_package) (fuel : nat) (k : klass)
    (attrs : gmap string val) (b : bytes) (v' : val)
    (sw : list (string * (string * Z))) (cname : string) (c : Z) :
  struct_to_binary ua fuel k attrs = Ok (b, v') ->
  ua_switches k = Some sw ->
  attrs !! cname = Some (VInt c) ->
  exists attrs' c',
    v' = VObj k attrs' /\ attrs' !! cname = Some (VInt c')
    /\ forall j, 0 <= j ->
         test_bit c' j <> 0
         <-> test_bit c j <> 0
             \/ exists name member,
                  (name, (cname, j)) ∈ sw
                  /\ attrs !! name = Some member /\ member <> VNone.
Proof.
  destruct fuel as [|n]; [discriminate|]. cbn [struct_to_binary].
  unfold set_switches, mbind, result_bind. intros H Hsw Hc. rewrite Hsw in H.
  destruct (foldlR set_switch attrs sw) as [attrs1|] eqn:H1; [|discriminate].
  destruct (set_switches_bits sw _ _ cname c H1 Hc) as (_ & c' & Hc' & Hbits).
  destruct (foldlR _ ([], attrs1) (ua_types k)) as [[packet attrs2]|] eqn:H2;
    [|discriminate].
  injection H as <- <-.
  pose proof (fields_to_binary_keep_int _ _ _ _ cname c' _ _ H2 Hc') as Hc2.
  exists attrs2, c'. split; [reflexivity|]. split; [exact Hc2|].
  intros j Hj. rewrite !test_bit_spec, (Hbits j Hj) by assumption.
  split.
  - intros [H|(name & Hn & Hp)]; [now left|right].
    apply present_iff in Hp as (member & Hm & Hne). eauto.
  - intros [H|(name & member & Hn & Hm & Hne)]; [now left|right].
    exists name. split; [exact Hn|]. apply present_iff. eauto.
Qed.

Lemma field_from_binary_skips (from_binary : pyobj -> pyobj -> dec val)
    (k : klass) (data : pyobj) (attrs : gmap string val) (name uatype : string)
    (cname : string) (idx c : Z) (s : Buffer) :
  ua_switches k ≫= assoc name = Some (cname, idx) ->
  attrs !! cname = Some (VInt c) ->
  0 <= idx -> test_bit c idx = 0 ->
  field_from_binary from_binary k data attrs (name, uatype) s = Ok (attrs, s).
Proof.
  intros Hsw Hc Hidx Hbit.
  unfold field_from_binary. rewrite Hsw. unfold mbind, dec_bind.
  unfold getattr, test_bit_val. rewrite Hc. cbn [lift].
  destruct (Z.ltb_spec idx 0); [lia|]. cbn [lift]. now rewrite Hbit.
Qed.

Lemma struct_to_binary_preset_bit :
  struct_to_binary ua0 2 Switched (masked 4 VNone)
  = Ok ([x04], VObj Switched (masked 4 VNone)).
Proof. vm_compute. reflexivity. Qed.

(** The claim of C2 as the spec words it has the bit set after encoding
    exactly when the optional field is present.  The encoder only ever sets
    bits: a record whose bit 2 is already set and whose optional field is
    absent leaves the encoder with the bit still set. *)
Lemma switch_bit_counterexample :
  ~ (forall (ua : ua_package) (fuel : nat) (k : klass)
       (attrs attrs' : gmap string val) (b : bytes)
       (sw : list (string * (string * Z))) (name cname : string) (idx c' : Z)
       (member : val),
       struct_to_binary ua fuel k attrs = Ok (b, VObj k attrs') ->
       ua_switches k = Some sw ->
       (name, (cname, idx)) ∈ sw ->
       attrs !! name = Some member ->
       attrs' !! cname = Some (VInt c') ->
       test_bit c' idx <> 0 <-> member <> VNone).
Proof.
  intros H.
  destruct (H ua0 2%nat Switched (masked 4 VNone) (masked 4 VNone) [x04]
              [("Opt", ("Mask", 2))] "Opt" "Mask" 2 4 VNone
              struct_to_binary_preset_bit eq_refl) as [Hset _];
    [left|reflexivity|reflexivity|].
  now apply Hset.
Qed.

(** C2, amended.  Encoding a structured record leaves a bit of a bitmask
    container field set exactly when the bit was set before or an optional
    field guarded by that bit is present: the encoder sets the bit of every
    present optional field and clears none.  Decoding, at an optional field
    whose guarding bit in the container field decoded so far is unset,
    reads nothing from the cursor and leaves the record, so the field at its
    default, as it is. *)
Theorem optional_field_switch (ua : ua_package) :
  (forall (fuel : nat) (k : klass) (attrs : gmap string val) (b : bytes)
     (v' : val) (sw : list (string * (string * Z))) (cname : string) (c : Z),
     struct_to_binary ua fuel k attrs = Ok (b, v') ->
     ua_switches k = Some sw ->
     attrs !! cname = Some (VInt c) ->
     exists attrs' c',
       v' = VObj k attrs' /\ attrs' !! cname = Some (VInt c')
       /\ forall j, 0 <= j ->
            test_bit c' j <> 0
            <-> test_bit c j <> 0
                \/ exists name member,
                     (name, (cname, j)) ∈ sw
                     /\ attrs !! name = Some member /\ member <> VNone)
  /\ (forall (n : nat) (k : klass) (data : pyobj) (attrs : gmap string val)
        (name uatype cname : string) (idx c : Z) (s : Buffer),
        ua_switches k ≫= assoc name = Some (cname, idx) ->
        attrs !! cname = Some (VInt c) ->
        0 <= idx -> test_bit c idx = 0 ->
        field_from_binary (from_binary ua n) k data attrs (name, uatype) s
        = Ok (attrs, s)).
Proof.
  split.
  - intros fuel k attrs b v' sw cname c. apply struct_to_binary_bits.
  - intros n k data attrs name uatype cname idx c s.
    apply field_from_binary_skips.
Qed.

Lemma struct_to_binary_present :
  struct_to_binary ua0 2 Switched (masked 0 (VInt 7))
  = Ok ([x04; x07; x00; x00; x00], VObj Switched (masked 4 (VInt 7))).
Proof. vm_compute. reflexivity. Qed.

Lemma optional_field_switch_witness :
  (exists attrs' c',
     VObj Switched (masked 4 (VInt 7)) = VObj Switched attrs'
     /\ attrs' !! "Mask" = Some (VInt c') /\ test_bit c' 2 <> 0)
  /\ field_from_binary (from_binary ua0 1) Switched PBuffer (masked 0 VNone)
       ("Opt", "Int32") [x07; x00; x00; x00]
     = Ok (masked 0 VNone, [x07; x00; x00; x00])
  /\ struct_from_binary ua0 3 (PStr "Switched") PBuffer [x00; x07; x00; x00; x00]
     = Ok (VObj Switched (masked 0 VNone), [x07; x00; x00; x00]).
Proof.
  split; [|split].
  - destruct (proj1 (optional_field_switch ua0) 2%nat Switched
                (masked 0 (VInt 7)) _ _ [("Opt", ("Mask", 2))] "Mask" 0
                struct_to_binary_present eq_refl eq_refl)
      as (attrs' & c' & Hv & Hc & Hbits).
    exists attrs', c'. split; [exact Hv|]. split; [exact Hc|].
    apply (Hbits 2); [lia|]. right. exists "Opt", (VInt 7).
    split; [left|]. split; [reflexivity|discriminate].
  - apply (proj2 (optional_field_switch ua0) 1%nat Switched PBuffer
             (masked 0 VNone) "Opt" "Int32" "Mask" 2 0);
      [reflexivity|reflexivity|lia|reflexivity].
  - vm_compute. reflexivity.
Defined.

(** * Further properties of the codec *)

(** ** Bit flag helpers *)

Lemma testbit_pow2 (j k : Z) :
  0 <= j -> 0 <= k -> Z.testbit (Z.shiftl 1 j) k = (j =? k).
Proof. intros Hj Hk. rewrite Z.shiftl_1_l. now apply Z.pow2_bits_eqb. Qed.

(** X1.  The three helpers act on the one bit they name: after [set_bit] the bit
    tests as set, after [unset_bit] it tests as clear, and every other bit
    of the mask is as it was. *)
Theorem bit_helpers_act_on_one_bit (data offset : Z) :
  0 <= offset ->
  test_bit (set_bit data offset) offset <> 0
  /\ test_bit (unset_bit data offset) offset = 0
  /\ (forall k, 0 <= k -> k <> offset ->
        Z.testbit (set_bit data offset) k = Z.testbit data k
        /\ Z.testbit (unset_bit data offset) k = Z.testbit data k).
Proof.
  intros Ho. split; [|split].
  - apply test_bit_spec; [exact Ho|]. unfold set_bit.
    rewrite Z.lor_spec, testbit_pow2, Z.eqb_refl by lia. apply orb_true_r.
  - destruct (Z.eq_dec (test_bit (unset_bit data offset) offset) 0) as [|Hne];
      [assumption|].
    apply test_bit_spec in Hne; [|exact Ho]. unfold unset_bit in Hne.
    rewrite Z.land_spec, Z.lnot_spec, testbit_pow2, Z.eqb_refl in Hne by lia.
    now rewrite andb_false_r in Hne.
  - intros k Hk Hne. unfold set_bit, unset_bit.
    rewrite Z.lor_spec, Z.land_spec, Z.lnot_spec, testbit_pow2 by lia.
    destruct (Z.eqb_spec offset k); [congruence|].
    now rewrite orb_false_r, andb_true_r.
Qed.

Lemma bit_helpers_act_on_one_bit_witness :
  test_bit (set_bit 5 1) 1 <> 0 /\ test_bit (unset_bit 7 1) 1 = 0.
Proof.
  split.
  - apply (bit_helpers_act_on_one_bit 5 1). lia.
  - apply (bit_helpers_act_on_one_bit 7 1). lia.
Defined.

(** ** Fixed-width integers *)

Lemma byte_val_bounds (b : byte) : 0 <= byte_val b < 256.
Proof. unfold byte_val. pose proof (Byte.to_N_bounded b). lia. Qed.

Lemma byte_of_Z_val (b : byte) : byte_of_Z (byte_val b) = b.
Proof.
  unfold byte_val, byte_of_Z. now rewrite N2Z.id, Byte.of_to_N.
Qed.

Lemma length_le_bytes (w : nat) (v : Z) : length (le_bytes w v) = w.
Proof. revert v. induction w as [|w IH]; intros v; cbn; [reflexivity|now rewrite IH]. Qed.

Lemma bits_of_S (w : nat) : 2 ^ bits_of (S w) = 256 * 2 ^ bits_of w.
Proof.
  unfold bits_of. replace (8 * Z.of_nat (S w)) with (8 + 8 * Z.of_nat w) by lia.
  rewrite Z.pow_add_r by lia. reflexivity.
Qed.

Lemma le_val_le_bytes (w : nat) (v : Z) :
  0 <= v < 2 ^ bits_of w -> le_val (le_bytes w v) = v.
Proof.
  revert v. induction w as [|w IH]; intros v H.
  - change (2 ^ bits_of 0) with 1 in H. cbn. lia.
  - rewrite bits_of_S in H. cbn [le_bytes le_val].
    rewrite byte_val_of_Z by (apply Z.mod_pos_bound; lia).
    rewrite IH by (split; [apply Z.div_pos; lia|apply Z.div_lt_upper_bound; lia]).
    pose proof (Z.div_mod v 256). lia.
Qed.

Lemma le_val_bounds (bs : bytes) : 0 <= le_val bs < 2 ^ bits_of (length bs).
Proof.
  induction bs as [|b bs IH].
  - change (2 ^ bits_of (length [])) with 1. cbn. lia.
  - cbn [length le_val]. rewrite bits_of_S. pose proof (byte_val_bounds b). lia.
Qed.

Lemma le_bytes_le_val (bs : bytes) : le_bytes (length bs) (le_val bs) = bs.
Proof.
  induction bs as [|b bs IH]; [reflexivity|]. cbn [length le_bytes le_val].
  pose proof (byte_val_bounds b).
  rewrite (Z.mul_comm 256), Z.mod_add, Z.div_add by lia.
  rewrite Z.mod_small, Z.div_small, Z.add_0_l by lia.
  now rewrite byte_of_Z_val, IH.
Qed.

Lemma unpack_uint_app (w : nat) (bs rest : bytes) :
  length bs = w -> unpack_uint w (bs ++ rest) = Ok (le_val bs, rest).
Proof.
  intros <-. unfold unpack_uint, mbind, dec_bind. now rewrite Buffer_read_app.
Qed.

Lemma unpack_sint_app (w : nat) (bs rest : bytes) :
  length bs = w ->
  unpack_sint w (bs ++ rest) = Ok (to_signed w (le_val bs), rest).
Proof.
  intros <-. unfold unpack_sint, mbind, dec_bind. now rewrite Buffer_read_app.
Qed.

Lemma pack_uint_Ok (w : nat) (v : Z) (bs : bytes) :
  pack_uint w v = Ok bs ->
  0 <= v < 2 ^ bits_of w /\ bs = le_bytes w v.
Proof.
  unfold pack_uint.
  destruct (Z.leb_spec 0 v), (Z.ltb_spec v (2 ^ bits_of w)); cbn;
    try discriminate.
  intros [= <-]. auto.
Qed.

Lemma pack_uint_in_range (w : nat) (v : Z) :
  0 <= v < 2 ^ bits_of w -> pack_uint w v = Ok (le_bytes w v).
Proof.
  intros H. unfold pack_uint.
  destruct (Z.leb_spec 0 v), (Z.ltb_spec v (2 ^ bits_of w)); cbn;
    try lia; reflexivity.
Qed.

Lemma to_signed_mod (w : nat) (v : Z) :
  (0 < w)%nat ->
  - 2 ^ (bits_of w - 1) <= v < 2 ^ (bits_of w - 1) ->
  to_signed w (v mod 2 ^ bits_of w) = v.
Proof.
  intros Hw H. unfold to_signed.
  assert (Hp : 2 ^ bits_of w = 2 * 2 ^ (bits_of w - 1)).
  { rewrite <- Z.pow_succ_r by (unfold bits_of; lia). f_equal. lia. }
  assert (0 < 2 ^ (bits_of w - 1)) by (apply Z.pow_pos_nonneg; unfold bits_of; lia).
  destruct (Z_lt_le_dec v 0).
  - replace (v mod 2 ^ bits_of w) with (v + 2 ^ bits_of w).
    2:{ symmetry. rewrite <- (Z.mod_add v 1) by lia.
        rewrite Z.mul_1_l. apply Z.mod_small. lia. }
    destruct (Z.ltb_spec (v + 2 ^ bits_of w) (2 ^ (bits_of w - 1))); lia.
  - rewrite Z.mod_small by lia.
    destruct (Z.ltb_spec v (2 ^ (bits_of w - 1))); lia.
Qed.

Lemma uint_round_trip (w : nat) (v : Z) :
  0 <= v < 2 ^ bits_of w ->
  exists bs, pack (Primitives.uint w) (VInt v) = Ok bs /\ length bs = w
    /\ forall rest, unpack (Primitives.uint w) (bs ++ rest) = Ok (VInt v, rest).
Proof.
  intros H. cbn [pack unpack Primitives.uint as_int].
  unfold mbind, result_bind, fmap, dec_fmap.
  exists (le_bytes w v). rewrite pack_uint_in_range by assumption.
  split; [reflexivity|]. split; [apply length_le_bytes|]. intros rest.
  rewrite unpack_uint_app by apply length_le_bytes.
  now rewrite le_val_le_bytes.
Qed.

Lemma sint_round_trip (w : nat) (v : Z) :
  (0 < w)%nat ->
  - 2 ^ (bits_of w - 1) <= v < 2 ^ (bits_of w - 1) ->
  exists bs, pack (Primitives.sint w) (VInt v) = Ok bs /\ length bs = w
    /\ forall rest, unpack (Primitives.sint w) (bs ++ rest) = Ok (VInt v, rest).
Proof.
  intros Hw H. cbn [pack unpack Primitives.sint as_int].
  unfold mbind, result_bind, fmap, dec_fmap.
  exists (le_bytes w (v mod 2 ^ bits_of w)). unfold pack_sint.
  destruct (Z.leb_spec (- 2 ^ (bits_of w - 1)) v),
    (Z.ltb_spec v (2 ^ (bits_of w - 1))); try lia. cbn [andb].
  split; [reflexivity|]. split; [apply length_le_bytes|]. intros rest.
  rewrite unpack_sint_app by apply length_le_bytes.
  rewrite le_val_le_bytes
    by (apply Z.mod_pos_bound, Z.pow_pos_nonneg; unfold bits_of; lia).
  now rewrite to_signed_mod.
Qed.

(** X2.  The fixed-width integer codecs: a value in the range of the format packs
    to exactly [w] bytes and unpacks to itself, with what follows left on
    the cursor; a value outside the range is refused by [pack]. *)
Theorem integer_codecs_round_trip (w : nat) (v : Z) (rest : bytes) :
  (0 < w)%nat ->
  (0 <= v < 2 ^ bits_of w ->
   exists bs, pack (Primitives.uint w) (VInt v) = Ok bs /\ length bs = w
     /\ unpack (Primitives.uint w) (bs ++ rest) = Ok (VInt v, rest))
  /\ (- 2 ^ (bits_of w - 1) <= v < 2 ^ (bits_of w - 1) ->
      exists bs, pack (Primitives.sint w) (VInt v) = Ok bs /\ length bs = w
        /\ unpack (Primitives.sint w) (bs ++ rest) = Ok (VInt v, rest))
  /\ (~ 0 <= v < 2 ^ bits_of w ->
      pack (Primitives.uint w) (VInt v) = Err StructError)
  /\ (~ - 2 ^ (bits_of w - 1) <= v < 2 ^ (bits_of w - 1) ->
      pack (Primitives.sint w) (VInt v) = Err StructError).
Proof.
  intros Hw. repeat split.
  - intros H. destruct (uint_round_trip w v H) as (bs & Hp & Hl & Hu). eauto.
  - intros H. destruct (sint_round_trip w v Hw H) as (bs & Hp & Hl & Hu). eauto.
  - intros H. cbn [pack Primitives.uint as_int]. unfold mbind, result_bind, pack_uint.
    destruct (Z.leb_spec 0 v), (Z.ltb_spec v (2 ^ bits_of w)); cbn;
      try lia; reflexivity.
  - intros H. cbn [pack Primitives.sint as_int]. unfold mbind, result_bind, pack_sint.
    destruct (Z.leb_spec (- 2 ^ (bits_of w - 1)) v),
      (Z.ltb_spec v (2 ^ (bits_of w - 1))); cbn; try lia; reflexivity.
Qed.

Lemma integer_codecs_round_trip_witness :
  (exists bs, pack Primitives.UInt16 (VInt 65535) = Ok bs /\ length bs = 2%nat
     /\ unpack Primitives.UInt16 (bs ++ [x07]) = Ok (VInt 65535, [x07]))
  /\ (exists bs, pack Primitives.Int32 (VInt (-1)) = Ok bs /\ length bs = 4%nat
        /\ unpack Primitives.Int32 (bs ++ [x07]) = Ok (VInt (-1), [x07]))
  /\ pack Primitives.UInt8 (VInt 256) = Err StructError.
Proof.
  split; [|split].
  - apply (integer_codecs_round_trip 2 65535 [x07]); [lia|].
    vm_compute. split; [discriminate|reflexivity].
  - apply (integer_codecs_round_trip 4 (-1) [x07]); [lia|].
    vm_compute. split; [discriminate|reflexivity].
  - apply (integer_codecs_round_trip 1 256 [x07]); [lia|].
    vm_compute. intros [_ H]. discriminate H.
Defined.

Lemma pack_sint_unpack (w : nat) (v : Z) (bs rest : bytes) :
  (0 < w)%nat ->
  pack_sint w v = Ok bs ->
  length bs = w /\ unpack_sint w (bs ++ rest) = Ok (v, rest).
Proof.
  intros Hw. unfold pack_sint.
  destruct (Z.leb_spec (- 2 ^ (bits_of w - 1)) v),
    (Z.ltb_spec v (2 ^ (bits_of w - 1))); cbn [andb]; try discriminate.
  intros [= <-]. split; [apply length_le_bytes|].
  rewrite unpack_sint_app by apply length_le_bytes.
  rewrite le_val_le_bytes
    by (apply Z.mod_pos_bound, Z.pow_pos_nonneg; unfold bits_of; lia).
  now rewrite to_signed_mod by (assumption || lia).
Qed.

Lemma Int32_pack_unpack (n : Z) (h rest : bytes) :
  Primitives.Int32_pack n = Ok h ->
  Primitives.Int32_unpack (h ++ rest) = Ok (n, rest).
Proof.
  intros H. now apply (pack_sint_unpack 4 n h rest) in H as [_ H]; [|lia].
Qed.

Lemma Int32_pack_length (l : nat) :
  Z.of_nat l < 2 ^ 31 ->
  Primitives.Int32_pack (Z.of_nat l)
  = Ok (le_bytes 4 (Z.of_nat l mod 2 ^ bits_of 4)).
Proof.
  intros H. unfold Primitives.Int32_pack, pack_sint.
  change (2 ^ (bits_of 4 - 1)) with (2 ^ 31).
  destruct (Z.leb_spec (- 2 ^ 31) (Z.of_nat l)), (Z.ltb_spec (Z.of_nat l) (2 ^ 31));
    cbn [andb]; try lia; reflexivity.
Qed.

(** ** Time conversion: the round trip *)

Lemma datetime_to_win_epoch_div (dt : Z) :
  FILETIME_EPOCH_AS_DATETIME + datetime_to_win_epoch dt / 10 = dt.
Proof.
  unfold datetime_to_win_epoch, timegm.
  change (datetime_of 1970 1 1 0 0 0 0 / 1000000) with 62135596800.
  change FILETIME_EPOCH_AS_DATETIME with 50491123200000000.
  unfold EPOCH_AS_FILETIME, HUNDREDS_OF_NANOSECONDS.
  replace (116444736000000000 + (dt / 1000000 - 62135596800) * 10000000
           + dt mod 1000000 * 10)
    with ((11644473600000000 + (dt / 1000000 - 62135596800) * 1000000
           + dt mod 1000000) * 10) by lia.
  rewrite Z.div_mul by lia. pose proof (Z.div_mod dt 1000000). lia.
Qed.

(** X3.  A timestamp of the representable range converts to ticks and back to
    itself, without a warning, and so does its 8-byte wire form: the codec
    loses nothing at microsecond resolution. *)
Theorem datetime_round_trip (dt : Z) (rest : bytes) :
  0 <= dt <= datetime_max ->
  win_epoch_to_datetime (datetime_to_win_epoch dt) = Ok (dt, [])
  /\ exists bs,
       pack Primitives.DateTime (VDateTime dt) = Ok bs /\ length bs = 8%nat
       /\ unpack Primitives.DateTime (bs ++ rest) = Ok (VDateTime dt, rest).
Proof.
  intros H.
  assert (Hback : win_epoch_to_datetime (datetime_to_win_epoch dt) = Ok (dt, [])).
  { unfold win_epoch_to_datetime, timedelta_microseconds, datetime_add, mbind,
      result_bind.
    pose proof (datetime_to_win_epoch_div dt) as Hd.
    assert (-584388 <= datetime_to_win_epoch dt / 10 / US_PER_DAY <= 3652059).
    { change FILETIME_EPOCH_AS_DATETIME with 50491123200000000 in Hd.
      change datetime_max with 315537897599999999 in H.
      unfold US_PER_DAY. split.
      - apply Z.div_le_lower_bound; lia.
      - apply Z.div_le_upper_bound; lia. }
    destruct (Z.leb_spec (Z.abs (datetime_to_win_epoch dt / 10 / US_PER_DAY))
                999999999); [|lia].
    rewrite Hd.
    destruct (Z.leb_spec 0 dt); [|lia].
    destruct (Z.leb_spec dt datetime_max); [reflexivity|lia]. }
  split; [exact Hback|].
  assert (Hrange : - 2 ^ (bits_of 8 - 1) <= datetime_to_win_epoch dt
                   < 2 ^ (bits_of 8 - 1)).
  { pose proof (datetime_to_win_epoch_div dt) as Hd.
    change FILETIME_EPOCH_AS_DATETIME with 50491123200000000 in Hd.
    change datetime_max with 315537897599999999 in H.
    pose proof (Z.div_mod (datetime_to_win_epoch dt) 10).
    pose proof (Z.mod_pos_bound (datetime_to_win_epoch dt) 10).
    change (2 ^ (bits_of 8 - 1)) with 9223372036854775808. lia. }
  destruct (sint_round_trip 8 _ ltac:(lia) Hrange) as (bs & Hp & _).
  cbn [pack Primitives.sint as_int] in Hp. unfold mbind, result_bind in Hp.
  cbn [pack unpack Primitives.DateTime]. exists bs. split; [exact Hp|].
  apply (pack_sint_unpack 8 _ _ rest) in Hp as [Hlen Hun]; [|lia].
  split; [exact Hlen|]. unfold mbind, dec_bind. rewrite Hun.
  now rewrite Hback.
Qed.

Lemma datetime_round_trip_witness :
  win_epoch_to_datetime (datetime_to_win_epoch (datetime_of 1970 1 1 0 0 0 0))
  = Ok (datetime_of 1970 1 1 0 0 0 0, [])
  /\ datetime_to_win_epoch (datetime_of 1970 1 1 0 0 0 0) = 116444736000000000.
Proof.
  split; [|reflexivity].
  apply (datetime_round_trip (datetime_of 1970 1 1 0 0 0 0) []).
  vm_compute. split; discriminate.
Defined.

(** ** Byte strings and arrays: the round trips *)

(** X4.  A byte string shorter than 2^31 packs to its 4-byte length and its
    bytes, and unpacks to itself with what follows left on the cursor. *)
Theorem bytes_round_trip (b rest : bytes) :
  Z.of_nat (length b) < 2 ^ 31 ->
  exists bs,
    pack Primitives.Bytes (VBytes b) = Ok bs
    /\ length bs = (4 + length b)%nat
    /\ unpack Primitives.Bytes (bs ++ rest) = Ok (VBytes b, rest).
Proof.
  intros H. cbn [pack unpack Primitives.Bytes Primitives.String_pack].
  rewrite Int32_pack_length by assumption. unfold mbind, result_bind.
  eexists. split; [reflexivity|]. split.
  - now rewrite length_app, length_le_bytes.
  - unfold fmap, dec_fmap, Primitives.Bytes_unpack, mbind, dec_bind.
    rewrite <- app_assoc.
    rewrite (Int32_pack_unpack (Z.of_nat (length b)))
      by now apply Int32_pack_length.
    destruct (Z.eqb_spec (Z.of_nat (length b)) (-1)); [lia|].
    unfold fmap, dec_fmap. now rewrite Buffer_read_app.
Qed.

Lemma bytes_round_trip_witness :
  exists bs,
    pack Primitives.Bytes (VBytes [x0a; x0b]) = Ok bs
    /\ length bs = 6%nat
    /\ unpack Primitives.Bytes (bs ++ [x07]) = Ok (VBytes [x0a; x0b], [x07]).
Proof.
  apply (bytes_round_trip [x0a; x0b] [x07]). vm_compute. reflexivity.
Defined.

Lemma dec_repeat_packed (self : codec) (l : list val) (bss : list bytes)
    (rest : bytes) :
  Forall2 (fun x bs => forall rest, unpack self (bs ++ rest) = Ok (x, rest)) l bss ->
  dec_repeat (length l) (unpack self) (concat bss ++ rest) = Ok (l, rest).
Proof.
  induction 1 as [|x bs l bss Hx _ IH]; [reflexivity|].
  cbn [length dec_repeat concat]. unfold mbind, dec_bind.
  rewrite <- app_assoc, Hx. fold (@concat byte). now rewrite IH.
Qed.

(** X5.  The generic array codec over elements that round-trip: a list shorter
    than 2^31 whose elements each pack and unpack to themselves packs to
    its count and its elements and unpacks to the same list, with what
    follows left on the cursor.  The empty list comes back as the empty
    list. *)
Theorem array_round_trip (self : codec) (l : list val) (rest : bytes) :
  Z.of_nat (length l) < 2 ^ 31 ->
  Forall (fun x => exists bs, pack self x = Ok bs
                    /\ forall rest, unpack self (bs ++ rest) = Ok (x, rest)) l ->
  exists bs,
    Primitives.pack_array self (VList l) = Ok bs
    /\ Primitives.unpack_array self (bs ++ rest) = Ok (VList l, rest).
Proof.
  intros Hlen Hl.
  assert (Hm : exists bss, mapR (pack self) l = Ok bss
            /\ Forall2 (fun x bs => forall rest,
                          unpack self (bs ++ rest) = Ok (x, rest)) l bss).
  { induction Hl as [|x l (bs & Hp & Hu) _ IH]; cbn [mapR].
    - exists []. split; [reflexivity|constructor].
    - destruct IH as (bss & -> & HF); [cbn [length] in Hlen; lia|].
      rewrite Hp. exists (bs :: bss). split; [reflexivity|now constructor]. }
  destruct Hm as (bss & Hm & HF).
  unfold Primitives.pack_array. cbn [as_seq]. unfold mbind, result_bind.
  rewrite Hm, Int32_pack_length by assumption.
  eexists. split; [reflexivity|].
  unfold Primitives.unpack_array, mbind, dec_bind. rewrite <- app_assoc.
  rewrite (Int32_pack_unpack (Z.of_nat (length l)))
    by now apply Int32_pack_length.
  destruct (Z.eqb_spec (Z.of_nat (length l)) (-1)); [lia|].
  destruct (Z.eqb_spec (Z.of_nat (length l)) 0) as [H0|H0].
  - destruct l; [|cbn [length] in H0; lia]. inversion HF; subst. reflexivity.
  - unfold fmap, dec_fmap. rewrite Nat2Z.id.
    now rewrite (dec_repeat_packed self l bss rest HF).
Qed.

Lemma Int32_element_round_trip (v : Z) :
  - 2 ^ 31 <= v < 2 ^ 31 ->
  exists bs, pack Primitives.Int32 (VInt v) = Ok bs
    /\ forall rest, unpack Primitives.Int32 (bs ++ rest) = Ok (VInt v, rest).
Proof.
  intros H. destruct (sint_round_trip 4 v ltac:(lia) H) as (bs & Hp & _ & Hu).
  eauto.
Qed.

Lemma array_round_trip_witness :
  exists bs,
    Primitives.pack_array Primitives.Int32 (VList [VInt 1; VInt 2]) = Ok bs
    /\ Primitives.unpack_array Primitives.Int32 (bs ++ [x07])
       = Ok (VList [VInt 1; VInt 2], [x07]).
Proof.
  apply (array_round_trip Primitives.Int32 [VInt 1; VInt 2] [x07]).
  - vm_compute. reflexivity.
  - apply Forall_cons. split; [apply Int32_element_round_trip; lia|].
    apply Forall_cons. split; [apply Int32_element_round_trip; lia|].
    apply Forall_nil_2.
Defined.

(** ** GUIDs: the round trip *)

Lemma le_val_app (x y : bytes) :
  le_val (x ++ y) = le_val x + 2 ^ bits_of (length x) * le_val y.
Proof.
  induction x as [|b x IH].
  - change (2 ^ bits_of (length [])) with 1. cbn. lia.
  - cbn [app length le_val]. rewrite IH, bits_of_S. lia.
Qed.

Lemma field_div_mod (g shift width : Z) :
  0 <= shift -> 0 <= width ->
  Primitives.field g shift width = (g / 2 ^ shift) mod 2 ^ width.
Proof.
  intros Hs Hw. unfold Primitives.field.
  replace (2 ^ width - 1) with (Z.ones width) by (rewrite Z.ones_equiv; lia).
  now rewrite Z.land_ones, Z.shiftr_div_pow2.
Qed.

Lemma le_bytes_app (a b : nat) (v : Z) :
  le_bytes (a + b) v = le_bytes a v ++ le_bytes b (v / 2 ^ bits_of a).
Proof.
  revert v. induction a as [|a IH]; intros v.
  - change (2 ^ bits_of 0) with 1. now rewrite Z.div_1_r.
  - cbn [Nat.add le_bytes app]. rewrite IH, bits_of_S, Z.div_div by
      (try apply Z.pow_pos_nonneg; unfold bits_of; lia).
    reflexivity.
Qed.

Lemma be_bytes_8_drop (n : Z) :
  0 <= n < 2 ^ 48 -> drop 2 (be_bytes 8 n) = reverse (le_bytes 6 n).
Proof.
  intros H. unfold be_bytes.
  change 8%nat with (6 + 2)%nat. rewrite le_bytes_app.
  change (2 ^ bits_of 6) with (2 ^ 48). rewrite Z.div_small by lia.
  now rewrite reverse_app.
Qed.

Lemma guid_fields (g : Z) :
  0 <= g < 2 ^ 128 ->
  let A := Primitives.field g 96 32 in
  let B := Primitives.field g 80 16 in
  let C := Primitives.field g 64 16 in
  let a := Primitives.field g 56 8 in
  let b := Primitives.field g 48 8 in
  let N := Primitives.field g 0 48 in
  (0 <= A < 2 ^ 32 /\ 0 <= B < 2 ^ 16 /\ 0 <= C < 2 ^ 16
   /\ 0 <= a < 2 ^ 8 /\ 0 <= b < 2 ^ 8 /\ 0 <= N < 2 ^ 48)
  /\ g = N + 2 ^ 48 * (b + 2 ^ 8 * (a + 2 ^ 8 * (C + 2 ^ 16 * (B + 2 ^ 16 * A)))).
Proof.
  intros H A B C a b N. subst A B C a b N.
  rewrite !field_div_mod by lia.
  change (2 ^ 0) with 1. rewrite Z.div_1_r.
  assert (H96 : g / 2 ^ 80 / 2 ^ 16 = g / 2 ^ 96) by (rewrite Z.div_div by lia; reflexivity).
  assert (H80 : g / 2 ^ 64 / 2 ^ 16 = g / 2 ^ 80) by (rewrite Z.div_div by lia; reflexivity).
  assert (H64 : g / 2 ^ 56 / 2 ^ 8 = g / 2 ^ 64) by (rewrite Z.div_div by lia; reflexivity).
  assert (H56 : g / 2 ^ 48 / 2 ^ 8 = g / 2 ^ 56) by (rewrite Z.div_div by lia; reflexivity).
  assert (Hhi : 0 <= g / 2 ^ 96 < 2 ^ 32).
  { split; [apply Z.div_pos; lia|apply Z.div_lt_upper_bound; lia]. }
  pose proof (Z.div_mod (g / 2 ^ 80) (2 ^ 16)).
  pose proof (Z.div_mod (g / 2 ^ 64) (2 ^ 16)).
  pose proof (Z.div_mod (g / 2 ^ 56) (2 ^ 8)).
  pose proof (Z.div_mod (g / 2 ^ 48) (2 ^ 8)).
  pose proof (Z.div_mod g (2 ^ 48)).
  pose proof (Z.mod_pos_bound (g / 2 ^ 80) (2 ^ 16)).
  pose proof (Z.mod_pos_bound (g / 2 ^ 64) (2 ^ 16)).
  pose proof (Z.mod_pos_bound (g / 2 ^ 56) (2 ^ 8)).
  pose proof (Z.mod_pos_bound (g / 2 ^ 48) (2 ^ 8)).
  pose proof (Z.mod_pos_bound g (2 ^ 48)).
  rewrite (Z.mod_small (g / 2 ^ 96)) by lia.
  rewrite H96, H80, H64, H56 in *. lia.
Qed.

Lemma Buffer_read_len (n : Z) (bs rest : bytes) :
  Z.of_nat (length bs) = n -> Buffer_read n (bs ++ rest) = Ok (bs, rest).
Proof. intros <-. apply Buffer_read_app. Qed.

Lemma Guid_pack_unpack (g : Z) (rest : bytes) :
  0 <= g < 2 ^ 128 ->
  exists bs,
    Primitives.Guid_pack (VGuid g) = Ok bs /\ length bs = 16%nat
    /\ Primitives.Guid_unpack (bs ++ rest) = Ok (g, rest).
Proof.
  intros H. destruct (guid_fields g H) as [(HA & HB & HC & Ha & Hb & HN) Hg].
  cbn [Primitives.Guid_pack].
  rewrite !pack_uint_in_range by assumption. unfold mbind, result_bind.
  rewrite be_bytes_8_drop by assumption.
  eexists. split; [reflexivity|]. split.
  { rewrite !length_app, length_reverse, !length_le_bytes. reflexivity. }
  unfold Primitives.Guid_unpack, mbind, dec_bind.
  rewrite <- !app_assoc.
  rewrite unpack_uint_app by apply length_le_bytes.
  rewrite unpack_uint_app by apply length_le_bytes.
  rewrite unpack_uint_app by apply length_le_bytes.
  rewrite !le_val_le_bytes by assumption.
  rewrite (app_assoc (le_bytes 1 _)), (app_assoc (le_bytes 1 _ ++ le_bytes 1 _)).
  rewrite (Buffer_read_len 8) by
    now rewrite !length_app, length_reverse, !length_le_bytes.
  unfold mret, dec_ret. f_equal. f_equal.
  unfold be_val, be_bytes.
  rewrite !reverse_app, !reverse_involutive, <- !app_assoc.
  rewrite !le_val_app, !length_reverse, !length_le_bytes.
  change (reverse (le_bytes 1 (Primitives.field g 48 8)))
    with (le_bytes 1 (Primitives.field g 48 8)).
  change (reverse (le_bytes 1 (Primitives.field g 56 8)))
    with (le_bytes 1 (Primitives.field g 56 8)).
  rewrite !le_val_le_bytes by assumption.
  symmetry. exact Hg.
Qed.

(** X6.  A UUID (a 128-bit integer) packs to 16 bytes in the protocol's field
    layout and unpacks to itself, with what follows left on the cursor. *)
Theorem guid_round_trip (g : Z) (rest : bytes) :
  0 <= g < 2 ^ 128 ->
  exists bs,
    pack Primitives.Guid (VGuid g) = Ok bs /\ length bs = 16%nat
    /\ unpack Primitives.Guid (bs ++ rest) = Ok (VGuid g, rest).
Proof.
  intros H. destruct (Guid_pack_unpack g rest H) as (bs & Hp & Hl & Hu).
  exists bs. cbn [pack unpack Primitives.Guid]. split; [exact Hp|].
  split; [exact Hl|]. unfold fmap, dec_fmap. now rewrite Hu.
Qed.

Lemma guid_round_trip_witness :
  exists bs,
    pack Primitives.Guid (VGuid (2 ^ 127 + 5)) = Ok bs /\ length bs = 16%nat
    /\ unpack Primitives.Guid (bs ++ [x07]) = Ok (VGuid (2 ^ 127 + 5), [x07]).
Proof.
  apply (guid_round_trip (2 ^ 127 + 5) [x07]).
  vm_compute. split; [discriminate|reflexivity].
Defined.

(** ** Text: UTF-8 and the String codec *)

Lemma land_mul_pow2_small (h lo k : Z) :
  0 <= k -> 0 <= lo < 2 ^ k -> Z.land (h * 2 ^ k) lo = 0.
Proof.
  intros Hk Hlo. apply Z.bits_inj'. intros n Hn.
  rewrite Z.land_spec, Z.bits_0. destruct (Z_lt_le_dec n k).
  - now rewrite Z.mul_pow2_bits_low by lia.
  - replace (Z.testbit lo n) with false; [apply andb_false_r|].
    symmetry. apply Z.testbit_false; [exact Hn|].
    rewrite Z.div_small; [reflexivity|].
    split; [lia|]. apply Z.lt_le_trans with (2 ^ k); [lia|].
    apply Z.pow_le_mono_r; lia.
Qed.

Lemma lor_mul_pow2_add (h lo k : Z) :
  0 <= k -> 0 <= lo < 2 ^ k -> Z.lor (h * 2 ^ k) lo = h * 2 ^ k + lo.
Proof.
  intros Hk Hlo. symmetry. apply Z.add_nocarry_lor.
  now apply land_mul_pow2_small.
Qed.

Lemma land_mask (x k : Z) : 0 <= k -> Z.land x (Z.ones k) = x mod 2 ^ k.
Proof. intros Hk. now apply Z.land_ones. Qed.

Lemma land_63 (x : Z) : Z.land x 63 = x mod 64.
Proof. exact (land_mask x 6 ltac:(lia)). Qed.

Lemma land_31 (x : Z) : Z.land x 31 = x mod 32.
Proof. exact (land_mask x 5 ltac:(lia)). Qed.

Lemma land_15 (x : Z) : Z.land x 15 = x mod 16.
Proof. exact (land_mask x 4 ltac:(lia)). Qed.

Lemma land_7 (x : Z) : Z.land x 7 = x mod 8.
Proof. exact (land_mask x 3 ltac:(lia)). Qed.

Lemma lor_128 (l : Z) : 0 <= l < 64 -> Z.lor 128 l = 128 + l.
Proof. intros H. exact (lor_mul_pow2_add 2 l 6 ltac:(lia) H). Qed.

Lemma lor_192 (h : Z) : 0 <= h < 32 -> Z.lor 192 h = 192 + h.
Proof. intros H. exact (lor_mul_pow2_add 6 h 5 ltac:(lia) H). Qed.

Lemma lor_224 (h : Z) : 0 <= h < 16 -> Z.lor 224 h = 224 + h.
Proof. intros H. exact (lor_mul_pow2_add 14 h 4 ltac:(lia) H). Qed.

Lemma lor_240 (h : Z) : 0 <= h < 8 -> Z.lor 240 h = 240 + h.
Proof. intros H. exact (lor_mul_pow2_add 30 h 3 ltac:(lia) H). Qed.

Lemma lor_shiftl (h lo k : Z) :
  0 <= k -> 0 <= lo < 2 ^ k -> Z.lor (Z.shiftl h k) lo = h * 2 ^ k + lo.
Proof.
  intros Hk Hlo. rewrite Z.shiftl_mul_pow2 by exact Hk.
  now apply lor_mul_pow2_add.
Qed.

Lemma cont_val (x : Z) : byte_val (cont x) = 128 + x mod 64.
Proof.
  unfold cont. rewrite land_63. pose proof (Z.mod_pos_bound x 64).
  rewrite lor_128 by lia. apply byte_val_of_Z. lia.
Qed.

Lemma low6_val (b : byte) (l : Z) :
  0 <= l < 64 -> byte_val b = 128 + l -> low6 b = l.
Proof.
  intros Hl Hb. unfold low6. rewrite land_63, Hb.
  replace (128 + l) with (l + 2 * 64) by lia.
  rewrite Z.mod_add by lia. apply Z.mod_small. lia.
Qed.

Lemma utf8_decode_1 (b0 : byte) (rest : bytes) :
  byte_val b0 < 128 ->
  utf8_decode (b0 :: rest) = cons (byte_val b0) <$> utf8_decode rest.
Proof.
  intros H. cbn [utf8_decode].
  now destruct (Z.ltb_spec (byte_val b0) 128); [|lia].
Qed.

Lemma in_range_true (lo hi : Z) (b : byte) :
  lo <= byte_val b <= hi -> in_range lo hi b = true.
Proof.
  intros H. unfold in_range.
  destruct (Z.leb_spec lo (byte_val b)), (Z.leb_spec (byte_val b) hi);
    try lia; reflexivity.
Qed.

Lemma in_range_false (lo hi : Z) (b : byte) :
  byte_val b < lo \/ hi < byte_val b -> in_range lo hi b = false.
Proof.
  intros H. unfold in_range.
  destruct (Z.leb_spec lo (byte_val b)), (Z.leb_spec (byte_val b) hi);
    try lia; reflexivity.
Qed.

Lemma utf8_decode_2 (b0 b1 : byte) (rest : bytes) :
  194 <= byte_val b0 <= 223 -> 128 <= byte_val b1 <= 191 ->
  utf8_decode (b0 :: b1 :: rest)
  = cons (Z.lor (Z.shiftl (Z.land (byte_val b0) 31) 6) (low6 b1))
      <$> utf8_decode rest.
Proof.
  intros H0 H1. cbn [utf8_decode].
  destruct (Z.ltb_spec (byte_val b0) 128); [lia|].
  now rewrite (in_range_true 194 223), (in_range_true 128 191).
Qed.

Lemma utf8_decode_3 (b0 b1 b2 : byte) (rest : bytes) :
  224 <= byte_val b0 <= 239 ->
  (if byte_val b0 =? 224 then 160 else 128) <= byte_val b1
  <= (if byte_val b0 =? 237 then 159 else 191) ->
  128 <= byte_val b2 <= 191 ->
  utf8_decode (b0 :: b1 :: b2 :: rest)
  = cons (Z.lor (Z.shiftl (Z.land (byte_val b0) 15) 12)
            (Z.lor (Z.shiftl (low6 b1) 6) (low6 b2)))
      <$> utf8_decode rest.
Proof.
  intros H0 H1 H2. cbn [utf8_decode].
  destruct (Z.ltb_spec (byte_val b0) 128); [lia|].
  rewrite (in_range_false 194 223), (in_range_true 224 239) by lia.
  now rewrite (in_range_true _ _ b1), (in_range_true 128 191 b2).
Qed.

Lemma utf8_decode_4 (b0 b1 b2 b3 : byte) (rest : bytes) :
  240 <= byte_val b0 <= 244 ->
  (if byte_val b0 =? 240 then 144 else 128) <= byte_val b1
  <= (if byte_val b0 =? 244 then 143 else 191) ->
  128 <= byte_val b2 <= 191 -> 128 <= byte_val b3 <= 191 ->
  utf8_decode (b0 :: b1 :: b2 :: b3 :: rest)
  = cons (Z.lor (Z.shiftl (Z.land (byte_val b0) 7) 18)
            (Z.lor (Z.shiftl (low6 b1) 12)
               (Z.lor (Z.shiftl (low6 b2) 6) (low6 b3))))
      <$> utf8_decode rest.
Proof.
  intros H0 H1 H2 H3. cbn [utf8_decode].
  destruct (Z.ltb_spec (byte_val b0) 128); [lia|].
  rewrite (in_range_false 194 223), (in_range_false 224 239),
    (in_range_true 240 244) by lia.
  now rewrite (in_range_true _ _ b1), (in_range_true 128 191 b2),
    (in_range_true 128 191 b3).
Qed.

Lemma utf8_char_round_trip (c : Z) (bs rest : bytes) :
  utf8_encode_char c = Ok bs ->
  utf8_decode (bs ++ rest) = cons c <$> utf8_decode rest.
Proof.
  unfold utf8_encode_char. rewrite !Z.shiftr_div_pow2 by lia.
  change (2 ^ 6) with 64. change (2 ^ 12) with 4096. change (2 ^ 18) with 262144.
  destruct (Z.ltb_spec c 0); [discriminate|].
  destruct (Z.ltb_spec c 128).
  { intros [= <-]. cbn [app].
    rewrite utf8_decode_1; rewrite byte_val_of_Z by lia; [reflexivity|lia]. }
  pose proof (Z.div_mod c 64 ltac:(lia)) as E64.
  pose proof (Z.mod_pos_bound c 64 ltac:(lia)) as B64.
  destruct (Z.ltb_spec c 2048).
  { intros [= <-]. cbn [app].
    assert (Hh : 2 <= c / 64 < 32) by lia.
    assert (Hb0 : byte_val (byte_of_Z (Z.lor 192 (c / 64))) = 192 + c / 64).
    { rewrite lor_192 by lia. apply byte_val_of_Z. lia. }
    rewrite utf8_decode_2 by (rewrite ?Hb0, ?cont_val; lia).
    rewrite Hb0, land_31, (low6_val _ (c mod 64)) by (rewrite ?cont_val; lia).
    replace ((192 + c / 64) mod 32) with (c / 64).
    2:{ replace (192 + c / 64) with (c / 64 + 6 * 32) by lia.
        rewrite Z.mod_add by lia. symmetry. apply Z.mod_small. lia. }
    rewrite lor_shiftl by (change (2 ^ 6) with 64; lia).
    change (2 ^ 6) with 64. f_equal. f_equal. lia. }
  pose proof (Z.div_mod (c / 64) 64 ltac:(lia)) as E4096.
  pose proof (Z.mod_pos_bound (c / 64) 64 ltac:(lia)) as B4096.
  assert (D4096 : c / 64 / 64 = c / 4096) by (rewrite Z.div_div by lia; reflexivity).
  rewrite D4096 in E4096.
  destruct (Z.ltb_spec c 65536).
  { destruct (Z.leb_spec 55296 c), (Z.leb_spec c 57343); cbn [andb];
      try discriminate; intros [= <-]; cbn [app].
    all: assert (Hh : 0 <= c / 4096 < 16) by lia.
    all: assert (Hb0 : byte_val (byte_of_Z (Z.lor 224 (c / 4096))) = 224 + c / 4096)
      by (rewrite lor_224 by lia; apply byte_val_of_Z; lia).
    all: rewrite utf8_decode_3;
      [|rewrite Hb0; lia
       |rewrite Hb0, cont_val;
        destruct (Z.eqb_spec (224 + c / 4096) 224),
          (Z.eqb_spec (224 + c / 4096) 237); lia
       |rewrite cont_val; lia].
    all: rewrite Hb0, land_15, (low6_val _ ((c / 64) mod 64)),
      (low6_val _ (c mod 64)) by (rewrite ?cont_val; lia).
    all: replace ((224 + c / 4096) mod 16) with (c / 4096)
      by (replace (224 + c / 4096) with (c / 4096 + 14 * 16) by lia;
          rewrite Z.mod_add by lia; symmetry; apply Z.mod_small; lia).
    all: rewrite (lor_shiftl ((c / 64) mod 64)) by (change (2 ^ 6) with 64; lia).
    all: rewrite lor_shiftl by (change (2 ^ 6) with 64; change (2 ^ 12) with 4096; lia).
    all: change (2 ^ 6) with 64; change (2 ^ 12) with 4096; f_equal; f_equal; lia. }
  pose proof (Z.div_mod (c / 4096) 64 ltac:(lia)) as E18.
  pose proof (Z.mod_pos_bound (c / 4096) 64 ltac:(lia)) as B18.
  assert (D18 : c / 4096 / 64 = c / 262144) by (rewrite Z.div_div by lia; reflexivity).
  rewrite D18 in E18.
  destruct (Z.ltb_spec c 1114112); [|discriminate].
  intros [= <-]. cbn [app].
  assert (Hh : 0 <= c / 262144 < 8) by lia.
  assert (Hb0 : byte_val (byte_of_Z (Z.lor 240 (c / 262144))) = 240 + c / 262144)
    by (rewrite lor_240 by lia; apply byte_val_of_Z; lia).
  rewrite utf8_decode_4;
    [|rewrite Hb0; lia
     |rewrite Hb0, cont_val;
      destruct (Z.eqb_spec (240 + c / 262144) 240),
        (Z.eqb_spec (240 + c / 262144) 244); lia
     |rewrite cont_val; lia
     |rewrite cont_val; lia].
  rewrite Hb0, land_7, (low6_val _ ((c / 4096) mod 64)),
    (low6_val _ ((c / 64) mod 64)), (low6_val _ (c mod 64))
    by (rewrite ?cont_val; lia).
  replace ((240 + c / 262144) mod 8) with (c / 262144)
    by (replace (240 + c / 262144) with (c / 262144 + 30 * 8) by lia;
        rewrite Z.mod_add by lia; symmetry; apply Z.mod_small; lia).
  rewrite (lor_shiftl ((c / 64) mod 64)) by (change (2 ^ 6) with 64; lia).
  rewrite (lor_shiftl ((c / 4096) mod 64))
    by (change (2 ^ 6) with 64; change (2 ^ 12) with 4096; lia).
  rewrite lor_shiftl
    by (change (2 ^ 6) with 64; change (2 ^ 12) with 4096;
        change (2 ^ 18) with 262144; lia).
  change (2 ^ 6) with 64; change (2 ^ 12) with 4096; change (2 ^ 18) with 262144.
  f_equal. f_equal. lia.
Qed.

Lemma utf8_decode_encoded (s : text) (bss : list bytes) (rest : bytes) :
  mapR utf8_encode_char s = Ok bss ->
  utf8_decode (concat bss ++ rest) = app s <$> utf8_decode rest.
Proof.
  revert bss. induction s as [|c s IH]; intros bss; cbn [mapR].
  - intros [= <-]. cbn. now destruct (utf8_decode rest).
  - destruct (utf8_encode_char c) as [bs|] eqn:Hc; [|discriminate].
    destruct (mapR utf8_encode_char s) as [bss'|]; [|discriminate].
    intros [= <-]. cbn [concat]. rewrite <- app_assoc.
    rewrite (utf8_char_round_trip c bs _ Hc), (IH bss' eq_refl).
    now destruct (utf8_decode rest).
Qed.

Lemma utf8_round_trip (s : text) (b : bytes) :
  utf8_encode s = Ok b -> utf8_decode b = Ok s.
Proof.
  unfold utf8_encode, fmap, result_fmap.
  destruct (mapR utf8_encode_char s) as [bss|] eqn:Hm; [|discriminate].
  intros [= <-]. rewrite <- (app_nil_r (concat bss)).
  rewrite (utf8_decode_encoded s bss [] Hm). cbn. now rewrite app_nil_r.
Qed.

Lemma utf8_encode_scalars (s : text) :
  Forall (fun c => 0 <= c < 1114112 /\ ~ 55296 <= c <= 57343) s ->
  exists b, utf8_encode s = Ok b.
Proof.
  intros Hs. unfold utf8_encode, fmap, result_fmap.
  assert (exists bss, mapR utf8_encode_char s = Ok bss) as [bss ->]; [|eauto].
  induction Hs as [|c s [Hc Hsur] _ [bss IH]]; cbn [mapR]; [eauto|].
  rewrite IH.
  assert (exists bs, utf8_encode_char c = Ok bs) as [bs ->]; [|eauto].
  unfold utf8_encode_char.
  destruct (Z.ltb_spec c 0); [lia|].
  destruct (Z.ltb_spec c 128); [eauto|].
  destruct (Z.ltb_spec c 2048); [eauto|].
  destruct (Z.ltb_spec c 65536).
  - destruct (Z.leb_spec 55296 c), (Z.leb_spec c 57343); cbn [andb]; eauto.
    lia.
  - destruct (Z.ltb_spec c 1114112); [eauto|lia].
Qed.

(** X7.  Text made of Unicode scalar values (code points below 0x110000 that
    are no surrogates) has a UTF-8 encoding that decodes to the same text,
    and, when that encoding is shorter than 2^31 bytes, the String codec
    packs the text to its length and its encoding and unpacks it to
    itself, with what follows left on the cursor. *)
Theorem string_round_trip (s : text) (rest : bytes) :
  Forall (fun c => 0 <= c < 1114112 /\ ~ 55296 <= c <= 57343) s ->
  exists b,
    utf8_encode s = Ok b /\ utf8_decode b = Ok s
    /\ (Z.of_nat (length b) < 2 ^ 31 ->
        exists bs,
          pack Primitives.String (VStr s) = Ok bs
          /\ unpack Primitives.String (bs ++ rest) = Ok (VStr s, rest)).
Proof.
  intros Hs. destruct (utf8_encode_scalars s Hs) as [b Hb].
  exists b. split; [exact Hb|]. split; [exact (utf8_round_trip s b Hb)|].
  intros Hlen. cbn [pack unpack Primitives.String Primitives.String_pack].
  rewrite Hb. unfold mbind, result_bind.
  rewrite Int32_pack_length by assumption.
  eexists. split; [reflexivity|].
  unfold fmap, dec_fmap, Primitives.String_unpack, Primitives.Bytes_unpack,
    mbind, dec_bind.
  rewrite <- app_assoc.
  rewrite (Int32_pack_unpack (Z.of_nat (length b)))
    by now apply Int32_pack_length.
  destruct (Z.eqb_spec (Z.of_nat (length b)) (-1)); [lia|].
  unfold fmap, dec_fmap. rewrite Buffer_read_app.
  unfold lift. now rewrite (utf8_round_trip s b Hb).
Qed.

Lemma string_round_trip_witness :
  exists b,
    utf8_encode [233; 8364; 65; 128512] = Ok b
    /\ utf8_decode b = Ok [233; 8364; 65; 128512]
    /\ (Z.of_nat (length b) < 2 ^ 31 ->
        exists bs,
          pack Primitives.String (VStr [233; 8364; 65; 128512]) = Ok bs
          /\ unpack Primitives.String (bs ++ [x07])
             = Ok (VStr [233; 8364; 65; 128512], [x07])).
Proof.
  apply (string_round_trip [233; 8364; 65; 128512] [x07]).
  repeat (apply Forall_cons; split; [lia|]). apply Forall_nil_2.
Defined.

(** ** NodeId: the round trip and the extended fields *)

Lemma String_unpack_packed (v : val) (bs rest : bytes) :
  Primitives.String_pack v = Ok bs ->
  match v with
  | VNone =>
      Primitives.String_unpack (bs ++ rest) = Ok (None, rest)
      /\ Primitives.Bytes_unpack (bs ++ rest) = Ok (None, rest)
  | VStr s => Primitives.String_unpack (bs ++ rest) = Ok (Some s, rest)
  | VBytes b => Primitives.Bytes_unpack (bs ++ rest) = Ok (Some b, rest)
  | _ => True
  end.
Proof.
  destruct v; try exact (fun _ => I); cbn [Primitives.String_pack];
    unfold Primitives.String_unpack, Primitives.Bytes_unpack, mbind, dec_bind,
      result_bind, fmap, dec_fmap.
  - intros Hp. rewrite !(Int32_pack_unpack (-1) bs rest Hp). cbn. auto.
  - destruct (utf8_encode s) as [b|] eqn:Hb; [|discriminate].
    destruct (Primitives.Int32_pack _) as [h|] eqn:Hh; [|discriminate].
    intros [= <-]. rewrite <- app_assoc, (Int32_pack_unpack _ h _ Hh).
    destruct (Z.eqb_spec (Z.of_nat (length b)) (-1)); [lia|].
    rewrite Buffer_read_app. unfold lift.
    now rewrite (utf8_round_trip s b Hb).
  - destruct (Primitives.Int32_pack _) as [h|] eqn:Hh; [|discriminate].
    intros [= <-]. rewrite <- app_assoc, (Int32_pack_unpack _ h _ Hh).
    destruct (Z.eqb_spec (Z.of_nat (length b)) (-1)); [lia|].
    now rewrite Buffer_read_app.
Qed.

Lemma le_val_le_bytes_1 (z : Z) (bs : bytes) :
  pack_uint 1 z = Ok bs -> bs = [byte_of_Z z] /\ byte_val (byte_of_Z z) = z.
Proof.
  intros H. apply pack_uint_1_head in H as [-> Hz]. split; [reflexivity|].
  now apply byte_val_of_Z.
Qed.

Lemma nodeid_from_binary_core (ua : ua_package) (t : NodeIdType.t)
    (data : bytes) :
  (forall v, t <> NodeIdType.Other v) ->
  let uri := NodeId_NamespaceUri ua in
  let srv := NodeId_ServerIndex ua in
  nodeid_from_binary ua (byte_of_Z (NodeIdType.value t) :: data)
  = (nid ← match t with
           | NodeIdType.TwoByte =>
               i ← read_ord; mret (mkNodeId t 0 (IdInt i) uri srv)
           | NodeIdType.FourByte =>
               b ← Buffer_read 3;
               mret (mkNodeId t (le_val (take 1 b)) (IdInt (le_val (drop 1 b)))
                       uri srv)
           | NodeIdType.Numeric =>
               b ← Buffer_read 6;
               mret (mkNodeId t (le_val (take 2 b)) (IdInt (le_val (drop 2 b)))
                       uri srv)
           | NodeIdType.String =>
               ns ← unpack_uint 2;
               s ← Primitives.String_unpack;
               mret (mkNodeId t ns (from_option IdStr IdNone s) uri srv)
           | NodeIdType.ByteString =>
               ns ← unpack_uint 2;
               b ← Primitives.Bytes_unpack;
               mret (mkNodeId t ns (from_option IdBytes IdNone b) uri srv)
           | NodeIdType.Guid =>
               ns ← unpack_uint 2;
               g ← Primitives.Guid_unpack;
               mret (mkNodeId t ns (IdGuid g) uri srv)
           | NodeIdType.Other _ => raise (UaError "Unknown NodeId encoding")
           end;
     mret nid) data.
Proof.
  intros Ht. cbv zeta.
  unfold nodeid_from_binary at 1. unfold mbind at 1. unfold dec_bind at 1.
  rewrite read_ord_cons.
  destruct t as [| | | | | |v]; try reflexivity. now destruct (Ht v).
Qed.

Lemma pack_uint_unpack (w : nat) (z : Z) (bs rest : bytes) :
  pack_uint w z = Ok bs ->
  length bs = w /\ le_val bs = z /\ unpack_uint w (bs ++ rest) = Ok (z, rest).
Proof.
  intros H. apply pack_uint_Ok in H as [Hz ->].
  split; [apply length_le_bytes|]. split; [now apply le_val_le_bytes|].
  rewrite unpack_uint_app by apply length_le_bytes.
  now rewrite le_val_le_bytes.
Qed.

Lemma nodeid_to_binary_from_binary (ua : ua_package) (n : NodeId)
    (bs rest : bytes) :
  nodeid_to_binary n = Ok bs ->
  ident_matches (NodeIdType n) (NamespaceIndex n) (Identifier n) = true ->
  nodeid_from_binary ua (bs ++ rest)
  = Ok (mkNodeId (NodeIdType n) (NamespaceIndex n) (Identifier n)
          (NamespaceUri (NodeId_new ua)) (ServerIndex (NodeId_new ua)),
        rest).
Proof.
  destruct n as [t ns i uri srv]. cbn [NodeIdType NamespaceIndex Identifier].
  cbn [NodeId_new NamespaceUri ServerIndex].
  unfold nodeid_to_binary, nodeid_header. cbn [NodeIdType NamespaceIndex Identifier].
  unfold mbind at 1 2 3 4 5 6 7 8 9 10 11 12. unfold result_bind.
  destruct t, i; try discriminate;
    cbn [ident_matches ident_int pack_ident val_of_ident];
    intros Hp Hm;
    (destruct (pack_uint 1 _) as [tb|] eqn:Ht; [|discriminate]);
    apply le_val_le_bytes_1 in Ht as [-> _].
  - (* TwoByte *)
    destruct (pack_uint 1 z) as [ib|] eqn:Hi; [|discriminate].
    injection Hp as <-. apply le_val_le_bytes_1 in Hi as [-> Hz].
    apply Z.eqb_eq in Hm as ->. cbn [app].
    rewrite (nodeid_from_binary_core ua NodeIdType.TwoByte) by discriminate. cbv zeta. unfold mbind, dec_bind.
    rewrite read_ord_cons. now rewrite Hz.
  - (* FourByte *)
    destruct (pack_uint 1 ns) as [nb|] eqn:Hn; [|discriminate].
    destruct (pack_uint 2 z) as [ib|] eqn:Hi; [|discriminate].
    injection Hp as <-.
    destruct (pack_uint_unpack _ _ _ [] Hn) as (Hnl & Hnv & _).
    destruct (pack_uint_unpack _ _ _ [] Hi) as (Hil & Hiv & _).
    cbn [app]. rewrite (nodeid_from_binary_core ua NodeIdType.FourByte) by discriminate. cbv zeta. unfold mbind, dec_bind.
    rewrite <- app_assoc, (app_assoc nb ib rest).
    rewrite (Buffer_read_len 3) by (rewrite length_app; lia).
    cbn [mret dec_ret]. rewrite <- Hnl at 1 2.
    now rewrite take_app_length, drop_app_length, Hnv, Hiv.
  - (* Numeric *)
    destruct (pack_uint 2 ns) as [nb|] eqn:Hn; [|discriminate].
    destruct (pack_uint 4 z) as [ib|] eqn:Hi; [|discriminate].
    injection Hp as <-.
    destruct (pack_uint_unpack _ _ _ [] Hn) as (Hnl & Hnv & _).
    destruct (pack_uint_unpack _ _ _ [] Hi) as (Hil & Hiv & _).
    cbn [app]. rewrite (nodeid_from_binary_core ua NodeIdType.Numeric) by discriminate. cbv zeta. unfold mbind, dec_bind.
    rewrite <- app_assoc, (app_assoc nb ib rest).
    rewrite (Buffer_read_len 6) by (rewrite length_app; lia).
    cbn [mret dec_ret]. rewrite <- Hnl at 1 2.
    now rewrite take_app_length, drop_app_length, Hnv, Hiv.
  - (* String, absent *)
    destruct (pack_uint 2 ns) as [nb|] eqn:Hn; [|discriminate].
    destruct (Primitives.String_pack VNone) as [ib|] eqn:Hi; [|discriminate].
    injection Hp as <-. cbn [app]. rewrite (nodeid_from_binary_core ua NodeIdType.String) by discriminate. cbv zeta.
    unfold mbind, dec_bind. rewrite <- app_assoc.
    destruct (pack_uint_unpack _ _ _ (ib ++ rest) Hn) as (_ & _ & ->).
    now destruct (String_unpack_packed VNone ib rest Hi) as [-> _].
  - (* String, text *)
    destruct (pack_uint 2 ns) as [nb|] eqn:Hn; [|discriminate].
    destruct (Primitives.String_pack (VStr s)) as [ib|] eqn:Hi; [|discriminate].
    injection Hp as <-. cbn [app]. rewrite (nodeid_from_binary_core ua NodeIdType.String) by discriminate. cbv zeta.
    unfold mbind, dec_bind. rewrite <- app_assoc.
    destruct (pack_uint_unpack _ _ _ (ib ++ rest) Hn) as (_ & _ & ->).
    now rewrite (String_unpack_packed (VStr s) ib rest Hi).
  - (* Guid *)
    destruct (pack_uint 2 ns) as [nb|] eqn:Hn; [|discriminate].
    destruct (Primitives.Guid_pack (VGuid int)) as [ib|] eqn:Hi; [|discriminate].
    injection Hp as <-. cbn [app]. rewrite (nodeid_from_binary_core ua NodeIdType.Guid) by discriminate. cbv zeta.
    unfold mbind, dec_bind. rewrite <- app_assoc.
    destruct (pack_uint_unpack _ _ _ (ib ++ rest) Hn) as (_ & _ & ->).
    apply andb_true_iff in Hm as [H0%Z.leb_le H1%Z.ltb_lt].
    destruct (Guid_pack_unpack int rest (conj H0 H1)) as (ib' & Hi' & _ & Hu).
    rewrite Hi in Hi'. injection Hi' as <-. now rewrite Hu.
  - (* ByteString, absent *)
    destruct (pack_uint 2 ns) as [nb|] eqn:Hn; [|discriminate].
    destruct (Primitives.String_pack VNone) as [ib|] eqn:Hi; [|discriminate].
    injection Hp as <-. cbn [app]. rewrite (nodeid_from_binary_core ua NodeIdType.ByteString) by discriminate. cbv zeta.
    unfold mbind, dec_bind. rewrite <- app_assoc.
    destruct (pack_uint_unpack _ _ _ (ib ++ rest) Hn) as (_ & _ & ->).
    now destruct (String_unpack_packed VNone ib rest Hi) as [_ ->].
  - (* ByteString, bytes *)
    destruct (pack_uint 2 ns) as [nb|] eqn:Hn; [|discriminate].
    destruct (Primitives.String_pack (VBytes b)) as [ib|] eqn:Hi; [|discriminate].
    injection Hp as <-. cbn [app]. rewrite (nodeid_from_binary_core ua NodeIdType.ByteString) by discriminate. cbv zeta.
    unfold mbind, dec_bind. rewrite <- app_assoc.
    destruct (pack_uint_unpack _ _ _ (ib ++ rest) Hn) as (_ & _ & ->).
    now rewrite (String_unpack_packed (VBytes b) ib rest Hi).
Qed.

(** X8.  A NodeId whose Identifier has the shape its NodeIdType encodes decodes
    from its own encoding to the same NodeIdType, NamespaceIndex and
    Identifier, with what follows left on the cursor.  Its NamespaceUri and
    ServerIndex are not those of the encoded NodeId: they are what the
    constructor [ua.NodeId()] gives a fresh NodeId. *)
Theorem nodeid_round_trip (ua : ua_package) (n : NodeId) (bs rest : bytes) :
  nodeid_to_binary n = Ok bs ->
  ident_matches (NodeIdType n) (NamespaceIndex n) (Identifier n) = true ->
  nodeid_from_binary ua (bs ++ rest)
  = Ok (mkNodeId (NodeIdType n) (NamespaceIndex n) (Identifier n)
          (NamespaceUri (NodeId_new ua)) (ServerIndex (NodeId_new ua)),
        rest).
Proof. apply nodeid_to_binary_from_binary. Qed.

Lemma nodeid_round_trip_witness :
  nodeid_from_binary ua0 ([x01; x01; x2c; x01] ++ [x07])
  = Ok (mkNodeId NodeIdType.FourByte 1 (IdInt 300) (Some []) (Some 0), [x07]).
Proof.
  apply (nodeid_round_trip ua0
           (mkNodeId NodeIdType.FourByte 1 (IdInt 300) (Some [65]) (Some 3))
           [x01; x01; x2c; x01] [x07]); reflexivity.
Defined.

Lemma twobyte_nodeid_from_binary (ua : ua_package) (z : Z) (rest : bytes) :
  0 <= z < 256 ->
  nodeid_from_binary ua ([x00; byte_of_Z z] ++ rest)
  = Ok (mkNodeId NodeIdType.TwoByte 0 (IdInt z)
          (NamespaceUri (NodeId_new ua)) (ServerIndex (NodeId_new ua)), rest).
Proof.
  intros Hz. cbn [app].
  rewrite (nodeid_from_binary_core ua NodeIdType.TwoByte) by discriminate. cbv zeta. unfold mbind, dec_bind.
  rewrite read_ord_cons. now rewrite byte_val_of_Z.
Qed.

(** X9.  The TwoByte encoding has no room for a namespace: a TwoByte NodeId
    with a NamespaceIndex other than 0 encodes without it, in two bytes, and
    decodes with NamespaceIndex 0 (and with the NamespaceUri and ServerIndex
    the constructor [ua.NodeId()] gives, whatever the encoded NodeId had). *)
Theorem twobyte_drops_namespace (ua : ua_package) (ns z : Z)
    (uri : option text) (srv : option Z) (rest : bytes) :
  0 <= z < 256 ->
  exists bs,
    nodeid_to_binary (mkNodeId NodeIdType.TwoByte ns (IdInt z) uri srv) = Ok bs
    /\ length bs = 2%nat
    /\ nodeid_from_binary ua (bs ++ rest)
       = Ok (mkNodeId NodeIdType.TwoByte 0 (IdInt z)
               (NamespaceUri (NodeId_new ua)) (ServerIndex (NodeId_new ua)),
             rest).
Proof.
  intros Hz. exists [x00; byte_of_Z z]. split.
  - unfold nodeid_to_binary. cbn [NodeIdType Identifier ident_int].
    unfold mbind, result_bind. cbn [NodeIdType.value].
    rewrite (pack_uint_in_range 1 z) by (change (2 ^ bits_of 1) with 256; lia).
    cbn [le_bytes]. now rewrite Z.mod_small by lia.
  - split; [reflexivity|].
    apply (twobyte_nodeid_from_binary ua z rest Hz).
Qed.

Lemma twobyte_drops_namespace_witness :
  exists bs,
    nodeid_to_binary (mkNodeId NodeIdType.TwoByte 9 (IdInt 5) None None) = Ok bs
    /\ length bs = 2%nat
    /\ nodeid_from_binary ua0 (bs ++ [x07])
       = Ok (mkNodeId NodeIdType.TwoByte 0 (IdInt 5) (Some []) (Some 0), [x07]).
Proof. apply (twobyte_drops_namespace ua0 9 5 None None [x07]). lia. Defined.

Lemma NodeIdType_of_value_Ok (v : Z) (t : NodeIdType.t) :
  NodeIdType.of_value v = Ok t -> NodeIdType.value t = v.
Proof.
  unfold NodeIdType.of_value.
  repeat match goal with
         | |- context [?a =? ?b] => destruct (Z.eqb_spec a b)
         end; try discriminate; intros [= <-]; cbn; congruence.
Qed.

(** One read of the NodeId decoder: split on its outcome. *)
Ltac decoder_step :=
  match goal with
  | |- context [read_ord ?s] => destruct (read_ord s) as [[? ?]|]
  | |- context [Buffer_read ?n ?s] => destruct (Buffer_read n s) as [[? ?]|]
  | |- context [unpack_uint ?w ?s] => destruct (unpack_uint w s) as [[? ?]|]
  | |- context [Primitives.String_unpack ?s] =>
      destruct (Primitives.String_unpack s) as [[? ?]|]
  | |- context [Primitives.Bytes_unpack ?s] =>
      destruct (Primitives.Bytes_unpack s) as [[? ?]|]
  | |- context [Primitives.Guid_unpack ?s] =>
      destruct (Primitives.Guid_unpack s) as [[? ?]|]
  end; [cbn [mret dec_ret]|discriminate].

Lemma unpack_uint_bounds (w : nat) (s s' : Buffer) (z : Z) :
  unpack_uint w s = Ok (z, s') -> 0 <= z < 2 ^ bits_of w.
Proof.
  unfold unpack_uint, mbind, dec_bind, Buffer_read.
  destruct (Z.ltb_spec (Z.of_nat w) 0); [discriminate|].
  destruct (Z.ltb_spec (Z.of_nat (length s)) (Z.of_nat w)); [discriminate|].
  cbn [orb mret dec_ret]. intros [= <- _]. rewrite Nat2Z.id.
  pose proof (le_val_bounds (take w s)) as Hb.
  rewrite length_take, Nat.min_l in Hb by lia. exact Hb.
Qed.

(** X10.  The fields of a decoded NodeId follow the flag bits of its leading
    byte: the NodeIdType is the one the low six bits name; with bit 7 clear
    the NamespaceUri, and with bit 6 clear the ServerIndex, is what the
    constructor [ua.NodeId()] gave it; with bit 6 set the ServerIndex is the
    unsigned 32-bit number read from the stream. *)
Theorem nodeid_extended_fields (ua : ua_package) (b : byte)
    (data rest : bytes) (nid : NodeId) :
  nodeid_from_binary ua (b :: data) = Ok (nid, rest) ->
  NodeIdType.value (NodeIdType nid) = Z.land (byte_val b) 63
  /\ (test_bit (byte_val b) 7 = 0 ->
      NamespaceUri nid = NamespaceUri (NodeId_new ua))
  /\ (test_bit (byte_val b) 6 = 0 ->
      ServerIndex nid = ServerIndex (NodeId_new ua))
  /\ (test_bit (byte_val b) 6 <> 0 ->
      exists srv, ServerIndex nid = Some srv /\ 0 <= srv < 2 ^ 32).
Proof.
  unfold nodeid_from_binary, mbind, dec_bind. rewrite read_ord_cons.
  destruct (NodeIdType.of_value _) as [t|] eqn:Ht; cbn [lift]; [|discriminate].
  apply NodeIdType_of_value_Ok in Ht. rewrite <- Ht. clear Ht.
  destruct t; try discriminate; repeat decoder_step;
    (destruct (Z.eqb_spec (test_bit (byte_val b) 7) 0) as [H7|H7];
     [cbn [mret dec_ret]|decoder_step]);
    (destruct (Z.eqb_spec (test_bit (byte_val b) 6) 0) as [H6|H6];
     [cbn [mret dec_ret]
     |match goal with
      | |- context [unpack_uint 4 ?s] =>
          destruct (unpack_uint 4 s) as [[srv s']|] eqn:Hs; [|discriminate];
          apply unpack_uint_bounds in Hs; cbn [mret dec_ret]
      end]);
    intros [= <- <-]; cbn;
    (split; [reflexivity|]); (split; [tauto|]); (split; [tauto|]);
    intros; try tauto; eauto.
Qed.

Lemma nodeid_extended_fields_witness :
  NodeIdType.value NodeIdType.Numeric = Z.land (byte_val x42) 63
  /\ (test_bit (byte_val x42) 7 = 0 -> Some [] = NamespaceUri (NodeId_new ua0))
  /\ (test_bit (byte_val x42) 6 = 0 -> Some 9 = ServerIndex (NodeId_new ua0))
  /\ (test_bit (byte_val x42) 6 <> 0 ->
      exists srv, Some 9 = Some srv /\ 0 <= srv < 2 ^ 32).
Proof.
  exact (nodeid_extended_fields ua0 x42
           [x01; x00; x05; x00; x00; x00; x09; x00; x00; x00] []
           (mkNodeId NodeIdType.Numeric 1 (IdInt 5) (Some []) (Some 9)) eq_refl).
Defined.

(** ** The message header: the round trip *)

Lemma pack_s_exact (n : nat) (b : bytes) : length b = n -> pack_s n b = b.
Proof.
  intros <-. unfold pack_s. rewrite firstn_all, Nat.sub_diag. apply app_nil_r.
Qed.

(** X11.  A header with a 3-byte MessageType and a 1-byte ChunkType encodes to 8
    bytes, or to 12 when the MessageType is one of the three secure-channel
    kinds, and decodes to the same MessageType, ChunkType and body size; the
    decoded packet size is the body size plus the header's own length; a
    secure header gives back its ChannelId, and any other header has the
    ChannelId the constructor [ua.Header()] gives, whatever the encoded
    header had. *)
Theorem header_round_trip (ua : ua_package) (hdr : Header) (bs rest : bytes) :
  length (MessageType hdr) = 3%nat ->
  length (ChunkType hdr) = 1%nat ->
  header_to_binary hdr = Ok bs ->
  length bs = (if is_secure (MessageType hdr) then 12 else 8)%nat
  /\ exists hdr',
       header_from_string ua (bs ++ rest) = Ok (hdr', rest)
       /\ MessageType hdr' = MessageType hdr
       /\ ChunkType hdr' = ChunkType hdr
       /\ body_size hdr' = body_size hdr
       /\ packet_size hdr' = body_size hdr + Z.of_nat (length bs)
       /\ ChannelId hdr' = (if is_secure (MessageType hdr) then ChannelId hdr
                            else Header_ChannelId ua).
Proof.
  intros Hmt Hct. unfold header_to_binary, header_from_string, mbind,
    result_bind, dec_bind.
  rewrite !pack_s_exact by assumption.
  destruct (pack_uint 4 _) as [sb|] eqn:Hs; [|discriminate].
  destruct (pack_uint_unpack _ _ _ [] Hs) as (Hsl & Hsv & _).
  assert (Hread : forall tail,
             Buffer_read 8 ((MessageType hdr ++ ChunkType hdr ++ sb) ++ tail)
             = Ok (MessageType hdr ++ ChunkType hdr ++ sb, tail)).
  { intros tail. apply Buffer_read_len. rewrite !length_app. lia. }
  assert (Hparts : take 3 (MessageType hdr ++ ChunkType hdr ++ sb) = MessageType hdr
                   /\ take 1 (drop 3 (MessageType hdr ++ ChunkType hdr ++ sb))
                      = ChunkType hdr
                   /\ drop 4 (MessageType hdr ++ ChunkType hdr ++ sb) = sb).
  { rewrite <- Hmt at 1 2. rewrite take_app_length, drop_app_length.
    rewrite <- Hct at 1. rewrite take_app_length.
    replace 4%nat with (length (MessageType hdr ++ ChunkType hdr))
      by (rewrite length_app; lia).
    now rewrite app_assoc, drop_app_length. }
  destruct Hparts as (Htake & Hchunk & Hdrop).
  destruct (is_secure (MessageType hdr)) eqn:Hsec.
  - destruct (pack_uint 4 (ChannelId hdr)) as [cb|] eqn:Hc; [|discriminate].
    intros [= <-].
    destruct (pack_uint_unpack _ _ _ rest Hc) as (Hcl & _ & Hcu).
    split; [rewrite !length_app; lia|].
    rewrite <- !app_assoc, (app_assoc (MessageType hdr)),
      (app_assoc (MessageType hdr ++ ChunkType hdr)), <- (app_assoc (MessageType hdr)).
    rewrite Hread, Htake, Hchunk, Hdrop, Hsec, Hcu, Hsv.
    eexists. split; [reflexivity|]. cbn.
    rewrite !length_app. repeat split; lia.
  - intros [= <-]. split; [rewrite !length_app; lia|].
    rewrite <- !app_assoc, (app_assoc (MessageType hdr)),
      (app_assoc (MessageType hdr ++ ChunkType hdr)), <- (app_assoc (MessageType hdr)).
    rewrite Hread, Htake, Hchunk, Hdrop, Hsec, Hsv.
    eexists. split; [reflexivity|]. cbn.
    rewrite !length_app. repeat split; lia.
Qed.

Lemma header_round_trip_witness :
  length [x4d; x53; x47; x46; x16; x00; x00; x00; x2a; x00; x00; x00] = 12%nat
  /\ exists hdr',
       header_from_string ua0
         ([x4d; x53; x47; x46; x16; x00; x00; x00; x2a; x00; x00; x00] ++ [x07])
       = Ok (hdr', [x07])
       /\ MessageType hdr' = SecureMessage
       /\ ChunkType hdr' = [x46]
       /\ body_size hdr' = 10
       /\ packet_size hdr' = 10 + 12
       /\ ChannelId hdr' = (if true then 42 else Header_ChannelId ua0).
Proof.
  exact (header_round_trip ua0 (mkHeader SecureMessage [x46] 10 0 42)
           [x4d; x53; x47; x46; x16; x00; x00; x00; x2a; x00; x00; x00] [x07]
           eq_refl eq_refl eq_refl).
Defined.

(** ** ExtensionObject: unknown and bodiless payloads *)

Lemma extensionobject_from_binary_head (ua : ua_package) (data : Buffer)
    (typeid : NodeId) (e : byte) (rest : Buffer) :
  nodeid_from_binary ua data = Ok (typeid, e :: rest) ->
  extensionobject_from_binary ua data
  = (body ← (if Z.land (byte_val e) 1 =? 0 then mret None
             else length ← Primitives.Int32_unpack;
                  if length <? 1 then mret (Some [])
                  else b ← Buffer_copy length;
                       _ ← Buffer_skip length;
                       mret (Some b));
     if ident_is_zero (Identifier typeid) then mret VNone
     else
       match extension_object_classes ua typeid with
       | Some klass =>
           match body with
           | None => raise (UaError "parsing ExtensionObject without data")
           | Some body => lift (fst <$> klass_from_binary ua klass body)
           end
       | None =>
           mret (VExtensionObject (mkExtensionObject typeid (byte_val e) body))
       end) rest.
Proof.
  intros Hn. unfold extensionobject_from_binary, mbind, dec_bind.
  now rewrite Hn, read_ord_cons.
Qed.

(** X12.  A payload whose TypeId is not zero and is not in the registry is passed
    through: the decoder returns a generic ExtensionObject with that TypeId,
    the Encoding byte, and the raw body bytes when bit 0 of the Encoding
    byte announces a body (no body otherwise), and leaves the cursor right
    after the body. *)
Theorem extensionobject_opaque_passthrough (ua : ua_package) (data : Buffer)
    (typeid : NodeId) (e : byte) (rest : Buffer) :
  nodeid_from_binary ua data = Ok (typeid, e :: rest) ->
  ident_is_zero (Identifier typeid) = false ->
  extension_object_classes ua typeid = None ->
  (Z.land (byte_val e) 1 = 0 ->
   extensionobject_from_binary ua data
   = Ok (VExtensionObject (mkExtensionObject typeid (byte_val e) None), rest))
  /\ (Z.land (byte_val e) 1 <> 0 ->
      forall (h body tail : bytes),
        Primitives.Int32_pack (Z.of_nat (length body)) = Ok h ->
        body <> [] ->
        rest = h ++ body ++ tail ->
        extensionobject_from_binary ua data
        = Ok (VExtensionObject (mkExtensionObject typeid (byte_val e) (Some body)),
              tail)).
Proof.
  intros Hn Hz Hreg. rewrite (extensionobject_from_binary_head ua _ _ _ _ Hn).
  unfold mbind, dec_bind. split.
  - intros ->. cbn. now rewrite Hz, Hreg.
  - intros He h body tail Hh Hne ->.
    destruct (Z.eqb_spec (Z.land (byte_val e) 1) 0); [contradiction|].
    rewrite (Int32_pack_unpack _ _ _ Hh).
    assert (0 < length body)%nat by (destruct body; [congruence|cbn; lia]).
    destruct (Z.ltb_spec (Z.of_nat (length body)) 1); [lia|].
    unfold Buffer_copy. rewrite Buffer_skip_enough by (rewrite length_app; lia).
    rewrite Nat2Z.id, take_app_length, drop_app_length.
    cbn. now rewrite Hz, Hreg.
Qed.

Lemma extensionobject_opaque_passthrough_witness :
  extensionobject_from_binary ua0
    [x00; x05; x01; x02; x00; x00; x00; x0a; x0b; x0c]
  = Ok (VExtensionObject
          (mkExtensionObject (mkNodeId NodeIdType.TwoByte 0 (IdInt 5) (Some []) (Some 0))
             1 (Some [x0a; x0b])), [x0c]).
Proof.
  refine (proj2 (extensionobject_opaque_passthrough ua0
                   [x00; x05; x01; x02; x00; x00; x00; x0a; x0b; x0c]
                   (mkNodeId NodeIdType.TwoByte 0 (IdInt 5) (Some []) (Some 0)) x01
                   [x02; x00; x00; x00; x0a; x0b; x0c] eq_refl eq_refl eq_refl)
            _ [x02; x00; x00; x00] [x0a; x0b] [x0c] eq_refl _ eq_refl);
    discriminate.
Defined.

(** X13.  A payload whose TypeId is in the registry but whose Encoding byte
    announces no body is refused with the module's own error, after the
    TypeId and the Encoding byte are read. *)
Theorem extensionobject_registered_without_body (ua : ua_package)
    (data : Buffer) (typeid : NodeId) (klass : klass) (e : byte) (rest : Buffer) :
  nodeid_from_binary ua data = Ok (typeid, e :: rest) ->
  ident_is_zero (Identifier typeid) = false ->
  extension_object_classes ua typeid = Some klass ->
  Z.land (byte_val e) 1 = 0 ->
  extensionobject_from_binary ua data
  = Err (UaError "parsing ExtensionObject without data").
Proof.
  intros Hn Hz Hreg He. rewrite (extensionobject_from_binary_head ua _ _ _ _ Hn).
  unfold mbind, dec_bind. rewrite He. cbn. now rewrite Hz, Hreg.
Qed.

Lemma extensionobject_registered_without_body_witness :
  extensionobject_from_binary ua1 [x00; x05; x00; x07]
  = Err (UaError "parsing ExtensionObject without data").
Proof.
  apply (extensionobject_registered_without_body ua1 [x00; x05; x00; x07]
           (mkNodeId NodeIdType.TwoByte 0 (IdInt 5) (Some []) (Some 0)) Switched
           x00 [x07]); reflexivity.
Defined.

(** ** Lists of a record: absent and empty *)

(** X14.  [list_to_binary] writes an absent list as the count -1 and an empty
    list as the count 0, and the list branch of [from_binary] decodes both
    to the empty list: through this path an absent list does not come back
    as absent. *)
Theorem list_field_absent_decodes_empty (ua : ua_package) (n : nat)
    (T : string) (rest : bytes) :
  list_to_binary ua (S n) VNone T = Ok ([xff; xff; xff; xff], VNone)
  /\ list_to_binary ua (S n) (VList []) T = Ok ([x00; x00; x00; x00], VList [])
  /\ from_binary ua (S n) (PStr ("ListOf" +:+ T)) PBuffer
       ([xff; xff; xff; xff] ++ rest) = Ok (VList [], rest)
  /\ from_binary ua (S n) (PStr ("ListOf" +:+ T)) PBuffer
       ([x00; x00; x00; x00] ++ rest) = Ok (VList [], rest).
Proof.
  split; [reflexivity|]. split; [reflexivity|].
  rewrite !from_binary_ListOf. unfold mbind, dec_bind, with_buffer.
  cbn [app]. rewrite !Int32_unpack_cons. split; reflexivity.
Qed.

(** ** The Variant's leading byte *)

Lemma land_63_high_bits (v : Z) :
  Z.testbit (Z.land v 63) 6 = false /\ Z.testbit (Z.land v 63) 7 = false.
Proof. rewrite !Z.land_spec. split; apply andb_false_r. Qed.

Lemma variant_to_binary_head (ua : ua_package) (fuel : nat) (var var' : Variant)
    (bs : bytes) :
  variant_to_binary ua fuel var = Ok (bs, var') ->
  let encoding := Z.land (vt_value (VariantType var)) 63 in
  let encoding :=
    if is_array var || is_seq (Value var)
    then (if Dimensions var is Some _
          then set_bit (set_bit encoding 7) 6 else set_bit encoding 7)
    else encoding in
  exists rest, bs = byte_of_Z encoding :: rest /\ 0 <= encoding < 256.
Proof.
  destruct fuel as [|n]; [discriminate|]. cbn [variant_to_binary].
  cbn [pack Primitives.UInt8 Primitives.uint as_int].
  unfold mbind, result_bind.
  destruct (is_array var || is_seq (Value var)).
  - destruct (pack_uint 1 _) as [b1|] eqn:H1; [|discriminate].
    apply pack_uint_1_head in H1 as [-> Hr].
    destruct (pack_uatype_array _ _ _ _) as [[b2 flat]|]; [|discriminate].
    destruct (Dimensions var) as [dims|];
      (destruct (_ <$> _) as [b3|] || idtac); try discriminate;
      intros [= <- _]; eauto.
  - destruct (pack_uint 1 _) as [b1|] eqn:H1; [|discriminate].
    apply pack_uint_1_head in H1 as [-> Hr].
    destruct (pack_uatype _ _ _ _) as [[b2 value]|]; [|discriminate].
    intros [= <- _]. eauto.
Qed.

(** X15.  The leading byte of an encoded Variant: its low six bits are those of
    the VariantType ordinal, bit 7 is set exactly when the value is encoded
    as an array, and bit 6 exactly when it is an array and has Dimensions;
    the Dimensions of a scalar are not announced. *)
Theorem variant_leading_byte (ua : ua_package) (fuel : nat) (var var' : Variant)
    (bs : bytes) :
  variant_to_binary ua fuel var = Ok (bs, var') ->
  exists b rest,
    bs = b :: rest
    /\ Z.land (byte_val b) 63 = Z.land (vt_value (VariantType var)) 63
    /\ (test_bit (byte_val b) 7 <> 0
        <-> is_array var || is_seq (Value var) = true)
    /\ (test_bit (byte_val b) 6 <> 0
        <-> is_array var || is_seq (Value var) = true
            /\ Dimensions var <> None).
Proof.
  intros H. apply variant_to_binary_head in H as (rest & -> & Hr).
  eexists _, rest. split; [reflexivity|]. rewrite byte_val_of_Z by exact Hr.
  clear Hr. rewrite !test_bit_spec by lia.
  destruct (land_63_high_bits (vt_value (VariantType var))) as [H6 H7].
  assert (Hidem : Z.land (Z.land (vt_value (VariantType var)) 63) 63
                  = Z.land (vt_value (VariantType var)) 63)
    by (now rewrite <- Z.land_assoc).
  unfold set_bit. change (Z.shiftl 1 7) with 128. change (Z.shiftl 1 6) with 64.
  destruct (is_array var || is_seq (Value var));
    [destruct (Dimensions var) as [dims|]|].
  - rewrite !Z.land_lor_distr_l, Hidem, !Z.lor_spec, H6, H7.
    change (Z.land 128 63) with 0. change (Z.land 64 63) with 0.
    rewrite !Z.lor_0_r. cbn. repeat split; congruence.
  - rewrite !Z.land_lor_distr_l, Hidem, !Z.lor_spec, H6, H7.
    change (Z.land 128 63) with 0. rewrite !Z.lor_0_r. cbn.
    repeat split; try congruence. intros [_ Hd]. congruence.
  - rewrite Hidem, H6, H7. repeat split; try congruence.
    intros [Hf _]. congruence.
Qed.

Lemma variant_leading_byte_witness :
  exists b rest,
    [xc6; x01; x00; x00; x00; x07; x00; x00; x00; x01; x00; x00; x00;
     x01; x00; x00; x00] = b :: rest
    /\ Z.land (byte_val b) 63 = Z.land 6 63
    /\ (test_bit (byte_val b) 7 <> 0 <-> false || true = true)
    /\ (test_bit (byte_val b) 6 <> 0
        <-> false || true = true /\ Some [1] <> None).
Proof.
  exact (variant_leading_byte ua0 3
           (mkVariant (VList [VInt 7]) Int32_t (Some [1]) false)
           (mkVariant (VList [VInt 7]) Int32_t (Some [1]) true)
           _ eq_refl).
Defined.

(** ** Reshaping never fails on dimensions *)

(** X16.  [reshape] raises only for an empty dimension list; for every other
    dimension list it returns a list, whatever the length of the flat
    sequence: missing elements are made up by placeholders. *)
Theorem reshape_fails_only_without_dimensions (flat : list val) (dims : list Z) :
  (dims = [] -> reshape flat dims = Err IndexError)
  /\ (dims <> [] ->
      exists r flat', reshape flat dims = Ok (VList r, flat')).
Proof.
  split; [now intros ->|]. intros Hne.
  destruct dims as [|d0 subdims]; [congruence|]. cbn [reshape].
  destruct (bool_decide (subdims = []) || bool_decide (subdims = [0])) eqn:Hb;
    [eauto|].
  apply orb_false_iff in Hb as [Hn%bool_decide_eq_false _].
  destruct (mapR_Forall2
              (fun i => fst <$> reshape (slice (pad d0 (subsize_of subdims) flat)
                                           i (subsize_of subdims)) subdims)
              (range_step (Z.of_nat (length (pad d0 (subsize_of subdims) flat)))
                 (subsize_of subdims))) as (ys & -> & _); [|cbn; eauto].
  intros i _.
  destruct (reshape_total subdims Hn
              (slice (pad d0 (subsize_of subdims) flat) i (subsize_of subdims)))
    as (r & fl & ->).
  cbn. eauto.
Qed.

Lemma reshape_fails_only_without_dimensions_witness :
  reshape [VInt 1] [] = Err IndexError
  /\ exists r flat', reshape [VInt 1] [2; 2] = Ok (VList r, flat').
Proof.
  split.
  - now apply (reshape_fails_only_without_dimensions [VInt 1] []).
  - now apply (reshape_fails_only_without_dimensions [VInt 1] [2; 2]).
Defined.

(** ** Variant round trips *)

Lemma mapR_Ok_Forall2 {A B} (f : A -> result B) (l : list A) (r : list B) :
  mapR f l = Ok r -> Forall2 (fun x y => f x = Ok y) l r.
Proof.
  revert r. induction l as [|x l IH]; intros r; cbn [mapR].
  - intros [= <-]. constructor.
  - destruct (f x) as [y|] eqn:Hy; [|discriminate].
    destruct (mapR f l) as [ys|]; [|discriminate]. intros [= <-].
    constructor; auto.
Qed.

Lemma test_bit_land_63 (v j : Z) :
  j = 6 \/ j = 7 -> test_bit (Z.land v 63) j = 0.
Proof.
  intros Hj.
  destruct (Z.eq_dec (test_bit (Z.land v 63) j) 0) as [|Hne]; [assumption|].
  apply test_bit_spec in Hne; [|lia].
  destruct (land_63_high_bits v) as [H6 H7]. destruct Hj as [-> | ->]; congruence.
Qed.

Lemma land_63_bounds (v : Z) : 0 <= Z.land v 63 < 64.
Proof. rewrite land_63. apply Z.mod_pos_bound. lia. Qed.

Lemma land_63_idem (v : Z) : Z.land (Z.land v 63) 63 = Z.land v 63.
Proof. now rewrite <- Z.land_assoc. Qed.

(** What a generic array of a primitive kind is packed to: the bytes of
    [_Primitive.pack_array]. *)
Lemma mapR_pack_uatype (ua : ua_package) (n : nat) (vt : vtype) (st : codec)
    (l : list val) (r : list (bytes * val)) :
  Primitives_getattr ua (vt_name vt) = Some st ->
  mapR (pack_uatype ua n vt) l = Ok r ->
  mapR (pack st) l = Ok (fst <$> r).
Proof.
  intros Hst. revert r. induction l as [|x l IH]; intros r; cbn [mapR].
  - now intros [= <-].
  - destruct (pack_uatype ua n vt x) as [y|] eqn:Hy; [|discriminate].
    destruct (mapR (pack_uatype ua n vt) l) as [ys|]; [|discriminate].
    intros [= <-]. rewrite (IH ys eq_refl).
    destruct n as [|m]; [discriminate|]. cbn [pack_uatype] in Hy.
    rewrite Hst in Hy. unfold mbind, result_bind in Hy.
    destruct (pack st x) as [b|]; [|discriminate].
    now injection Hy as <-.
Qed.

Lemma pack_uatype_array_primitive_bytes (ua : ua_package) (fuel : nat)
    (vt : vtype) (st : codec) (l : list val) (y : bytes * val) :
  Primitives_getattr ua (vt_name vt) = Some st ->
  pack_uatype_array ua fuel vt (VList l) = Ok y ->
  Primitives.pack_array st (VList l) = Ok (fst y).
Proof.
  intros Hst. destruct fuel as [|n]; [discriminate|].
  cbn [pack_uatype_array Primitives.pack_array as_seq].
  unfold mbind, result_bind.
  destruct (mapR (pack_uatype ua n vt) l) as [r|] eqn:Hr; [|discriminate].
  rewrite (mapR_pack_uatype ua n vt st l r Hst Hr).
  destruct (Primitives.Int32_pack _) as [h|]; [|discriminate].
  now intros [= <-].
Qed.

Lemma unpack_array_packed (self : codec) (l : list val) (bs rest : bytes) :
  Primitives.pack_array self (VList l) = Ok bs ->
  Forall (fun x => forall b tail,
            pack self x = Ok b -> unpack self (b ++ tail) = Ok (x, tail)) l ->
  Primitives.unpack_array self (bs ++ rest) = Ok (VList l, rest).
Proof.
  unfold Primitives.pack_array. cbn [as_seq]. unfold mbind, result_bind.
  destruct (mapR (pack self) l) as [bss|] eqn:Hm; [|discriminate].
  destruct (Primitives.Int32_pack _) as [h|] eqn:Hh; [|discriminate].
  intros [= <-] Hl.
  assert (HF : Forall2 (fun x bs => forall rest,
                          unpack self (bs ++ rest) = Ok (x, rest)) l bss).
  { apply mapR_Ok_Forall2 in Hm. clear Hh. induction Hm as [|x b l bss Hx _ IH].
    - constructor.
    - apply Forall_cons in Hl as [Hx' Hl]. constructor; auto. }
  unfold Primitives.unpack_array, mbind, dec_bind. rewrite <- app_assoc.
  rewrite (Int32_pack_unpack _ _ _ Hh).
  destruct (Z.eqb_spec (Z.of_nat (length l)) (-1)); [lia|].
  destruct (Z.eqb_spec (Z.of_nat (length l)) 0) as [H0|H0].
  - destruct l; [|cbn [length] in H0; lia]. inversion HF; subst. reflexivity.
  - unfold fmap, dec_fmap. rewrite Nat2Z.id.
    now rewrite (dec_repeat_packed self l bss rest HF).
Qed.

Lemma Int32_unpack_packed (x : val) (b tail : bytes) :
  pack Primitives.Int32 x = Ok b ->
  forall z, x = VInt z -> unpack Primitives.Int32 (b ++ tail) = Ok (VInt z, tail).
Proof.
  intros Hp z ->. cbn in Hp.
  destruct (pack_sint_unpack 4 z b tail ltac:(lia) Hp) as [_ Hu].
  cbn. unfold fmap, dec_fmap. now rewrite Hu.
Qed.

Lemma mapR_as_int_VInt (dims : list Z) : mapR as_int (VInt <$> dims) = Ok dims.
Proof.
  induction dims as [|d dims IH]; [reflexivity|].
  cbn [fmap list_fmap mapR as_int]. fold (VInt <$> dims). now rewrite IH.
Qed.

Lemma Primitives_getattr_Int32 (ua : ua_package) (v : Z) :
  Primitives_getattr ua (vt_name (mkVtype "Int32" v)) = Some Primitives.Int32.
Proof. reflexivity. Qed.

(** The tag byte of an array Variant, with and without Dimensions. *)
Lemma variant_tag_bits (v : Z) (dims : bool) :
  let encoding := set_bit (Z.land v 63) 7 in
  let encoding := if dims then set_bit encoding 6 else encoding in
  0 <= encoding < 256
  /\ Z.land encoding 63 = Z.land v 63
  /\ (test_bit encoding 7 =? 0) = false
  /\ (test_bit encoding 6 =? 0) = negb dims.
Proof.
  pose proof (land_63_bounds v) as Hb.
  destruct (land_63_high_bits v) as [H6 H7].
  pose proof (land_63_idem v) as Hidem.
  set (e := Z.land v 63) in *. unfold set_bit.
  change (Z.shiftl 1 7) with 128. change (Z.shiftl 1 6) with 64.
  assert (E7 : Z.lor e 128 = 128 + e).
  { rewrite Z.lor_comm. exact (lor_mul_pow2_add 2 e 6 ltac:(lia) Hb). }
  assert (E76 : Z.lor (Z.lor e 128) 64 = 192 + e).
  { rewrite <- Z.lor_assoc. change (Z.lor 128 64) with 192. rewrite Z.lor_comm.
    exact (lor_mul_pow2_add 3 e 6 ltac:(lia) Hb). }
  assert (T : forall c j, 0 <= j ->
                (test_bit c j =? 0) = negb (Z.testbit c j)).
  { intros c j Hj. pose proof (test_bit_spec c j Hj) as Hs.
    destruct (Z.eqb_spec (test_bit c j) 0) as [H0|H0], (Z.testbit c j);
      try reflexivity.
    - exfalso. apply (proj2 Hs eq_refl H0).
    - apply Hs in H0. discriminate. }
  cbv zeta. destruct dims.
  - split; [rewrite E76; lia|]. rewrite !T by lia.
    rewrite !Z.land_lor_distr_l, Hidem, !Z.lor_spec, H6, H7.
    change (Z.land 128 63) with 0. change (Z.land 64 63) with 0.
    now rewrite !Z.lor_0_r.
  - split; [rewrite E7; lia|]. rewrite !T by lia.
    rewrite !Z.land_lor_distr_l, Hidem, !Z.lor_spec, H6, H7.
    change (Z.land 128 63) with 0. now rewrite !Z.lor_0_r.
Qed.

(** A scalar Variant of a primitive kind: the tag byte, then the value. *)
Lemma variant_to_binary_scalar (ua : ua_package) (fuel : nat)
    (var var' : Variant) (st : codec) (bs : bytes) :
  Primitives_getattr ua (vt_name (VariantType var)) = Some st ->
  is_array var || is_seq (Value var) = false ->
  variant_to_binary ua fuel var = Ok (bs, var') ->
  exists b, pack st (Value var) = Ok b
    /\ bs = byte_of_Z (Z.land (vt_value (VariantType var)) 63) :: b.
Proof.
  intros Hst Hsc. destruct fuel as [|n]; [discriminate|].
  cbn [variant_to_binary]. rewrite Hsc.
  cbn [pack Primitives.UInt8 Primitives.uint as_int].
  unfold mbind, result_bind.
  destruct (pack_uint 1 _) as [b1|] eqn:H1; [|discriminate].
  apply pack_uint_1_head in H1 as [-> _].
  destruct n as [|m]; [discriminate|]. cbn [pack_uatype]. rewrite Hst.
  unfold mbind, result_bind.
  destruct (pack st (Value var)) as [b|]; [|discriminate].
  intros [= <- _]. eauto.
Qed.

(** An array Variant of a primitive kind: the tag byte, the flattened value
    as a primitive array, then the Dimensions as an Int32 array. *)
Lemma variant_to_binary_array (ua : ua_package) (fuel : nat)
    (var var' : Variant) (st : codec) (bs : bytes) :
  Primitives_getattr ua (vt_name (VariantType var)) = Some st ->
  is_seq (Value var) = true ->
  variant_to_binary ua fuel var = Ok (bs, var') ->
  exists b2 b3,
    Primitives.pack_array st (VList (leaves (Value var))) = Ok b2
    /\ match Dimensions var with
       | Some dims =>
           Primitives.pack_array Primitives.Int32 (VList (VInt <$> dims)) = Ok b3
       | None => b3 = []
       end
    /\ bs = byte_of_Z
              (let encoding := set_bit (Z.land (vt_value (VariantType var)) 63) 7 in
               if Dimensions var is Some _ then set_bit encoding 6 else encoding)
            :: b2 ++ b3.
Proof.
  intros Hst Hseq. destruct fuel as [|n]; [discriminate|].
  cbn [variant_to_binary]. rewrite Hseq, orb_true_r.
  cbn [pack Primitives.UInt8 Primitives.uint as_int].
  unfold mbind, result_bind.
  destruct (pack_uint 1 _) as [b1|] eqn:H1; [|discriminate].
  apply pack_uint_1_head in H1 as [-> _].
  assert (Hfl : flatten (Value var) = VList (leaves (Value var)))
    by (destruct (Value var); try discriminate; reflexivity).
  rewrite Hfl.
  destruct (pack_uatype_array ua n _ (VList _)) as [[b2 flat]|] eqn:H2;
    [|discriminate].
  apply (pack_uatype_array_primitive_bytes ua n _ st _ _ Hst) in H2.
  cbn [fst] in H2.
  destruct (Dimensions var) as [dims|].
  - destruct (pack_uatype_array ua n _ (VList (VInt <$> dims))) as [[b3 d']|] eqn:H3;
      [|discriminate].
    apply (pack_uatype_array_primitive_bytes ua n _ Primitives.Int32 _ _
             (Primitives_getattr_Int32 ua _)) in H3.
    cbn. intros [= <- _]. eauto.
  - cbn. intros [= <- _]. exists b2, []. now rewrite app_nil_r.
Qed.

(** X17.  A scalar Variant of a primitive kind decodes to the Variant it was: the
    same value and type, not an array, without Dimensions (those of a scalar
    are not written).  The kind's codec has to give the value back, and the
    VariantType has to be the one the package lists under its ordinal. *)
Theorem variant_scalar_round_trip (ua : ua_package) (fuel : nat)
    (var var' : Variant) (st : codec) (bs rest : bytes) :
  Primitives_getattr ua (vt_name (VariantType var)) = Some st ->
  (forall b tail, pack st (Value var) = Ok b ->
                  unpack st (b ++ tail) = Ok (Value var, tail)) ->
  is_array var = false ->
  is_seq (Value var) = false ->
  datatype_to_varianttype ua (Z.land (vt_value (VariantType var)) 63)
  = Ok (VariantType var) ->
  variant_to_binary ua fuel var = Ok (bs, var') ->
  variant_from_binary ua (bs ++ rest)
  = Ok (mkVariant (Value var) (VariantType var) None false, rest).
Proof.
  intros Hst Hrt Harr Hseq Hvt Henc.
  destruct (variant_to_binary_scalar ua fuel var var' st bs Hst
              ltac:(now rewrite Harr, Hseq) Henc) as (b & Hb & ->).
  unfold variant_from_binary, mbind, dec_bind. cbn [app].
  rewrite read_ord_cons, byte_val_of_Z
    by (pose proof (land_63_bounds (vt_value (VariantType var))); lia).
  rewrite land_63_idem, Hvt. cbn [lift].
  rewrite !test_bit_land_63 by auto. cbn [Z.eqb].
  unfold unpack_uatype. rewrite Hst, (Hrt b rest Hb). reflexivity.
Qed.

Lemma variant_scalar_round_trip_witness :
  variant_from_binary ua1 ([x06; x07; x00; x00; x00] ++ [x09])
  = Ok (mkVariant (VInt 7) Int32_t None false, [x09]).
Proof.
  apply (variant_scalar_round_trip ua1 3
           (mkVariant (VInt 7) Int32_t (Some [1]) false)
           (mkVariant (VInt 7) Int32_t (Some [1]) false)
           Primitives.Int32 [x06; x07; x00; x00; x00] [x09]);
    try reflexivity.
  intros b tail Hb. now apply (Int32_unpack_packed (VInt 7)).
Defined.

(** X18.  An array Variant of a primitive kind comes back as an array of the same
    type.  Without Dimensions the value comes back flattened; with
    Dimensions the flat elements are re-nested by [reshape] along them; with
    an empty Dimensions list the encoder succeeds and the decoder raises
    IndexError. *)
Theorem variant_array_round_trip (ua : ua_package) (fuel : nat)
    (var var' : Variant) (st : codec) (bs rest : bytes) :
  Primitives_getattr ua (vt_name (VariantType var)) = Some st ->
  is_seq (Value var) = true ->
  Forall (fun x => forall b tail,
            pack st x = Ok b -> unpack st (b ++ tail) = Ok (x, tail))
         (leaves (Value var)) ->
  datatype_to_varianttype ua (Z.land (vt_value (VariantType var)) 63)
  = Ok (VariantType var) ->
  variant_to_binary ua fuel var = Ok (bs, var') ->
  match Dimensions var with
  | None =>
      variant_from_binary ua (bs ++ rest)
      = Ok (mkVariant (VList (leaves (Value var))) (VariantType var) None true,
            rest)
  | Some [] => variant_from_binary ua (bs ++ rest) = Err IndexError
  | Some dims =>
      exists v flat',
        reshape (leaves (Value var)) dims = Ok (v, flat')
        /\ variant_from_binary ua (bs ++ rest)
           = Ok (mkVariant v (VariantType var) (Some dims) true, rest)
  end.
Proof.
  intros Hst Hseq Hrt Hvt Henc.
  destruct (variant_to_binary_array ua fuel var var' st bs Hst Hseq Henc)
    as (b2 & b3 & H2 & H3 & ->).
  assert (Hdims : forall dims b3 tail,
            Primitives.pack_array Primitives.Int32 (VList (VInt <$> dims)) = Ok b3 ->
            Primitives.unpack_array Primitives.Int32 (b3 ++ tail)
            = Ok (VList (VInt <$> dims), tail)).
  { intros dims b tail Hp. apply (unpack_array_packed _ _ _ _ Hp).
    apply Forall_fmap, Forall_forall. intros z _ bz tz Hz.
    now apply (Int32_unpack_packed (VInt z)). }
  assert (Hhead : forall dims : bool,
            let encoding := set_bit (Z.land (vt_value (VariantType var)) 63) 7 in
            let encoding := if dims then set_bit encoding 6 else encoding in
            variant_from_binary ua (byte_of_Z encoding :: (b2 ++ b3) ++ rest)
            = (if dims
               then
                 dimensions ← Primitives.unpack_array Primitives.Int32;
                 dimensions ← lift (dims_of_val dimensions);
                 value ← lift (reshape_val (VList (leaves (Value var))) dimensions);
                 mret (mkVariant value (VariantType var) dimensions true)
               else mret (mkVariant (VList (leaves (Value var)))
                            (VariantType var) None true)) (b3 ++ rest)).
  { intros dims.
    destruct (variant_tag_bits (vt_value (VariantType var)) dims)
      as (Hb & Hl & H7 & H6). cbv zeta in Hb, Hl, H7, H6 |- *.
    unfold variant_from_binary, mbind, dec_bind. rewrite read_ord_cons.
    rewrite byte_val_of_Z by exact Hb. rewrite Hl, Hvt. cbn [lift].
    rewrite H7, H6. unfold unpack_uatype_array at 1. rewrite Hst.
    rewrite <- app_assoc.
    rewrite (unpack_array_packed st _ b2 (b3 ++ rest) H2 Hrt).
    unfold mret, dec_ret. destruct dims; cbn [negb]; [|reflexivity].
    unfold unpack_uatype_array. now rewrite Primitives_getattr_Int32. }
  pose proof (Hhead true) as Ht. pose proof (Hhead false) as Hf.
  cbv beta iota zeta in Ht, Hf. clear Hhead.
  destruct (Dimensions var) as [[|d0 dims]|]; cbn [app].
  - rewrite Ht. unfold mbind, dec_bind.
    now rewrite (Hdims [] b3 rest H3).
  - destruct (reshape_total (d0 :: dims) ltac:(discriminate)
                (leaves (Value var))) as (v & flat' & Hr).
    exists v, flat'. split; [assumption|].
    rewrite Ht. unfold mbind, dec_bind.
    rewrite (Hdims (d0 :: dims) b3 rest H3).
    cbn [lift dims_of_val]. unfold fmap at 1, result_fmap.
    rewrite mapR_as_int_VInt. cbn [lift reshape_val].
    unfold fmap, result_fmap. now rewrite Hr.
  - rewrite Hf. subst b3. reflexivity.
Qed.

Lemma variant_array_round_trip_witness :
  exists v flat',
    reshape (leaves (VList [VList [VInt 1; VInt 2]; VList [VInt 3; VInt 4]])) [2; 2]
    = Ok (v, flat')
    /\ variant_from_binary ua1
         ([xc6; x04; x00; x00; x00; x01; x00; x00; x00; x02; x00; x00; x00;
           x03; x00; x00; x00; x04; x00; x00; x00;
           x02; x00; x00; x00; x02; x00; x00; x00; x02; x00; x00; x00] ++ [x09])
       = Ok (mkVariant v Int32_t (Some [2; 2]) true, [x09]).
Proof.
  apply (variant_array_round_trip ua1 4
           (mkVariant (VList [VList [VInt 1; VInt 2]; VList [VInt 3; VInt 4]])
              Int32_t (Some [2; 2]) false)
           (mkVariant (VList [VList [VInt 1; VInt 2]; VList [VInt 3; VInt 4]])
              Int32_t (Some [2; 2]) true)
           Primitives.Int32); try reflexivity.
  repeat constructor; intros b tail Hb;
    (eapply Int32_unpack_packed; [exact Hb|reflexivity]).
Defined.

(** ** Re-nesting a flattened array *)

Lemma subsize_of_pos (ds : list Z) :
  Forall (fun d => 0 < d) ds -> 0 < subsize_of ds.
Proof.
  induction 1 as [|d ds Hd _ IH]; [reflexivity|].
  rewrite subsize_of_cons. destruct (Z.eqb_spec d 0); lia.
Qed.

Lemma forallb_Forall {A} (f : A -> bool) (l : list A) :
  forallb f l = true -> Forall (fun x => f x = true) l.
Proof.
  induction l as [|x l IH]; [constructor|]. cbn [forallb].
  intros [Hx Hl]%andb_true_iff. constructor; auto.
Qed.

Lemma leaves_flat (l : list val) :
  forallb (fun x => negb (is_seq x)) l = true -> concat (map leaves l) = l.
Proof.
  induction l as [|x l IH]; [reflexivity|]. cbn [forallb map concat].
  intros [Hx Hl]%andb_true_iff. rewrite (IH Hl).
  now destruct x.
Qed.

Lemma length_concat_const {A} (n : nat) (ls : list (list A)) :
  Forall (fun l => length l = n) ls -> length (concat ls) = (length ls * n)%nat.
Proof.
  induction 1 as [|l ls Hl _ IH]; [reflexivity|].
  cbn [concat length]. rewrite length_app, IH, Hl. lia.
Qed.

Lemma shaped_length (dims : list Z) (v : val) :
  Forall (fun d => 0 < d) dims -> shaped dims v = true ->
  Z.of_nat (length (leaves v)) = subsize_of dims.
Proof.
  intros Hd. revert v. induction Hd as [|d ds Hd Hds IH]; intros v; [discriminate|].
  cbn [shaped]. destruct v; try discriminate.
  intros [Hlen Hall]%andb_true_iff. apply Z.eqb_eq in Hlen.
  rewrite subsize_of_cons. destruct (Z.eqb_spec d 0); [lia|].
  cbn [leaves]. destruct ds as [|d1 ds'].
  - rewrite (leaves_flat _ Hall). change (subsize_of []) with 1. lia.
  - rewrite (length_concat_const (Z.to_nat (subsize_of (d1 :: ds')))).
    + pose proof (subsize_of_pos _ Hds).
      now rewrite length_map, Nat2Z.inj_mul, Z2Nat.id, Hlen by lia.
    + apply Forall_map. apply forallb_Forall in Hall.
      eapply Forall_impl; [exact Hall|]. intros x Hx. cbn beta in Hx.
      apply IH in Hx. now rewrite <- Hx, Nat2Z.id.
Qed.

(** The list comprehension of [reshape] over a flat sequence that is the
    concatenation of chunks of the slice size. *)
Lemma mapR_chunks (F : list val -> result val) (step : Z) (l : list val) :
  0 < step ->
  Forall (fun x => Z.of_nat (length (leaves x)) = step /\ F (leaves x) = Ok x) l ->
  forall (pre : list val) (j : nat),
    Z.of_nat (length pre) = Z.of_nat j * step ->
    mapR (fun i => F (slice (pre ++ concat (map leaves l)) i step))
         (map (fun k => Z.of_nat k * step) (seq j (length l)))
    = Ok l.
Proof.
  intros Hstep. induction 1 as [|x l [Hx HF] _ IH]; intros pre j Hpre;
    [reflexivity|].
  cbn [length seq map mapR concat].
  assert (Hs : slice (pre ++ leaves x ++ concat (map leaves l))
                 (Z.of_nat j * step) step = leaves x).
  { unfold slice. rewrite <- Hpre, Nat2Z.id, drop_app_length.
    rewrite <- Hx, Nat2Z.id. apply take_app_length. }
  rewrite Hs, HF.
  specialize (IH (pre ++ leaves x) (S j)).
  rewrite <- app_assoc in IH. rewrite IH; [reflexivity|].
  rewrite length_app. lia.
Qed.

(** X19.  [reshape] undoes [ua.flatten]: the flattened elements of a nested list
    that has the shape [dims], all extents positive, are re-nested to that
    very list, and nothing is appended to the flat sequence. *)
Theorem reshape_inverts_flatten (dims : list Z) (v : val) :
  Forall (fun d => 0 < d) dims ->
  shaped dims v = true ->
  flatten v = VList (leaves v)
  /\ reshape (leaves v) dims = Ok (v, leaves v).
Proof.
  intros Hd Hv. split; [destruct dims, v; try discriminate; reflexivity|].
  revert v Hv. induction Hd as [|d ds Hd Hds IH]; intros v Hv; [discriminate|].
  pose proof (shaped_length (d :: ds) v ltac:(now constructor) Hv) as Hlen.
  rewrite subsize_of_cons in Hlen. destruct (Z.eqb_spec d 0); [lia|].
  cbn [reshape]. rewrite pad_enough by lia.
  cbn [shaped] in Hv. destruct v as [| | | | |l| | | | | | | | | |]; try discriminate.
  apply andb_true_iff in Hv as [Hl Hall]. apply Z.eqb_eq in Hl.
  destruct ds as [|d1 ds'].
  - cbn [leaves]. rewrite (leaves_flat _ Hall). reflexivity.
  - rewrite !bool_decide_eq_false_2; [|inversion Hds; intros [= -> _]; lia|discriminate].
    cbn [orb]. pose proof (subsize_of_pos _ Hds) as Hpos.
    set (step := subsize_of (d1 :: ds')) in *.
    unfold range_step. destruct (Z.ltb_spec 0 step); [|lia].
    replace ((Z.of_nat (length (leaves (VList l))) + step - 1) / step)
      with (Z.of_nat (length l)).
    2:{ rewrite Hlen, Hl. symmetry.
        replace (d * step + step - 1) with ((step - 1) + d * step) by lia.
        rewrite Z.div_add by lia. rewrite Z.div_small by lia. lia. }
    rewrite Nat2Z.id. cbn [leaves].
    assert (HF : Forall (fun x => Z.of_nat (length (leaves x)) = step
                           /\ fst <$> reshape (leaves x) (d1 :: ds') = Ok x) l).
    { apply forallb_Forall in Hall.
      eapply Forall_impl; [exact Hall|]. intros x Hx. cbn beta in Hx.
      split; [exact (shaped_length _ x Hds Hx)|].
      now rewrite (IH x Hx). }
    pose proof (mapR_chunks (fun chunk => fst <$> reshape chunk (d1 :: ds'))
                  step l Hpos HF [] 0%nat eq_refl) as Hc.
    cbn [app] in Hc. cbn beta in Hc. unfold mbind, result_bind. now rewrite Hc.
Qed.

Lemma reshape_inverts_flatten_witness :
  flatten (VList [VList [VInt 1; VInt 2; VInt 3]; VList [VInt 4; VInt 5; VInt 6]])
  = VList (VInt <$> [1; 2; 3; 4; 5; 6])
  /\ reshape (VInt <$> [1; 2; 3; 4; 5; 6]) [2; 3]
     = Ok (VList [VList [VInt 1; VInt 2; VInt 3]; VList [VInt 4; VInt 5; VInt 6]],
           VInt <$> [1; 2; 3; 4; 5; 6]).
Proof.
  apply (reshape_inverts_flatten [2; 3]
           (VList [VList [VInt 1; VInt 2; VInt 3];
                   VList [VInt 4; VInt 5; VInt 6]])).
  - repeat constructor.
  - reflexivity.
Defined.

(** ** Records of primitive fields *)

Lemma Primitives_getattr_not_ListOf (ua : ua_package) (s : string) (st : codec) :
  Primitives_getattr ua s = Some st -> startswith "ListOf" s = false.
Proof.
  unfold Primitives_getattr. cbn [assoc].
  repeat (destruct (decide _) as [<-|_]; [reflexivity|]).
  discriminate.
Qed.

(** The field loop of [struct_to_binary] over primitive fields of a class
    without switches: the attributes stay as they are and every field adds
    the bytes of its value. *)
Lemma fields_to_binary_primitive (ua : ua_package) (n : nat) (k : klass)
    (attrs : gmap string val) (fs : list (string * string)) :
  ua_switches k = None ->
  Forall (fun f => is_Some (Primitives_getattr ua f.2)) fs ->
  forall (packet packet' : bytes) (attrs' : gmap string val),
    foldlR (field_to_binary (to_binary ua n) (list_to_binary ua n) k)
           (packet, attrs) fs = Ok (packet', attrs') ->
    attrs' = attrs
    /\ exists bss,
         packet' = packet ++ concat bss
         /\ Forall2 (fun f b => exists st v,
                       Primitives_getattr ua f.2 = Some st
                       /\ attrs !! f.1 = Some v /\ pack st v = Ok b) fs bss.
Proof.
  intros Hsw. induction 1 as [|[name uatype] fs [st Hst] _ IH];
    intros packet packet' attrs'; cbn [foldlR].
  - intros [= <- <-]. split; [reflexivity|]. exists []. split; [|constructor].
    now rewrite app_nil_r.
  - unfold mbind at 1, result_bind at 1. cbn [snd] in Hst.
    destruct (field_to_binary _ _ _ _ _) as [[p1 a1]|] eqn:Hf; [|discriminate].
    unfold field_to_binary in Hf.
    rewrite (Primitives_getattr_not_ListOf ua _ _ Hst) in Hf.
    unfold in_switches in Hf. rewrite Hsw in Hf.
    unfold getattr, mbind, result_bind in Hf.
    destruct (attrs !! name) as [v|] eqn:Hv; [|discriminate].
    rewrite andb_false_r in Hf.
    destruct n as [|m]; [discriminate|]. cbn [to_binary mbind option_bind] in Hf.
    rewrite Hst in Hf. unfold mbind, result_bind in Hf.
    destruct (pack st v) as [b|] eqn:Hb; [|discriminate].
    injection Hf as <- <-. rewrite (insert_id _ _ _ Hv).
    intros Hrest. destruct (IH _ _ _ Hrest) as (-> & bss & -> & HF).
    split; [reflexivity|]. exists (b :: bss). split.
    + cbn [concat]. now rewrite app_assoc.
    + constructor; [|exact HF]. exists st, v. auto.
Qed.

Lemma field_from_binary_primitive (ua : ua_package) (m : nat) (k : klass)
    (acc : gmap string val) (name uatype : string) (st : codec) (s : Buffer) :
  ua_switches k = None ->
  Primitives_getattr ua uatype = Some st ->
  field_from_binary (from_binary ua (S m)) k PBuffer acc (name, uatype) s
  = match unpack st s with
    | Ok (v, s') => Ok (<[name := v]> acc, s')
    | Err e => Err e
    end.
Proof.
  intros Hsw Hst. unfold field_from_binary. rewrite Hsw. cbn [mbind option_bind].
  unfold mbind, dec_bind, mret, dec_ret. cbn [from_binary].
  rewrite (Primitives_getattr_not_ListOf ua _ _ Hst), Hst.
  cbn [with_buffer]. now destruct (unpack st s) as [[v s']|].
Qed.

(** The field loop of [struct_from_binary] over the bytes of primitive
    fields. *)
Lemma fields_from_binary_primitive (ua : ua_package) (m : nat) (k : klass)
    (attrs : gmap string val) (fs : list (string * string)) (bss : list bytes)
    (rest : bytes) :
  ua_switches k = None ->
  Forall2 (fun f b => exists st v,
             Primitives_getattr ua f.2 = Some st
             /\ attrs !! f.1 = Some v
             /\ forall tail, unpack st (b ++ tail) = Ok (v, tail)) fs bss ->
  forall acc : gmap string val,
    exists acc',
      dec_foldl (field_from_binary (from_binary ua (S m)) k PBuffer) acc fs
        (concat bss ++ rest) = Ok (acc', rest)
      /\ (forall name, name ∈ fs.*1 -> acc' !! name = attrs !! name)
      /\ (forall name, name ∉ fs.*1 -> acc' !! name = acc !! name).
Proof.
  intros Hsw.
  induction 1 as [|[name uatype] b fs bss (st & v & Hst & Hv & Hu) _ IH];
    intros acc.
  - exists acc. split; [reflexivity|]. split; [|reflexivity].
    intros name Hn. cbn in Hn. now apply elem_of_nil in Hn.
  - cbn [fst snd] in Hst, Hv.
    destruct (IH (<[name := v]> acc)) as (acc' & Hd & Hin & Hout).
    exists acc'. split; [|split].
    + cbn [dec_foldl concat]. unfold mbind at 1, dec_bind at 1.
      rewrite (field_from_binary_primitive ua m k acc name uatype st _ Hsw Hst).
      rewrite <- app_assoc, Hu. exact Hd.
    + intros x Hx. cbn [fmap list_fmap fst] in Hx.
      destruct (decide (x ∈ fs.*1)) as [Hi|Hni]; [now apply Hin|].
      apply elem_of_cons in Hx as [->|Hx]; [|contradiction].
      now rewrite (Hout name Hni), lookup_insert_eq.
    + intros x Hx. cbn [fmap list_fmap fst] in Hx.
      apply not_elem_of_cons in Hx as [Hne Hni].
      now rewrite (Hout x Hni), lookup_insert_ne.
Qed.

(** X20.  A record of a class without switches whose fields are all of primitive
    kinds decodes to a record of the same class: every declared field has
    the value it was encoded with, and every other attribute is as the
    class's constructor leaves it.  Each field's codec has to give the
    field's value back. *)
Theorem struct_round_trip (ua : ua_package) (n m : nat) (k : klass)
    (attrs : gmap string val) (bs rest : bytes) (obj' : val) :
  ua_switches k = None ->
  Forall (fun f => exists st,
            Primitives_getattr ua f.2 = Some st
            /\ forall v b tail, attrs !! f.1 = Some v -> pack st v = Ok b ->
                 unpack st (b ++ tail) = Ok (v, tail)) (ua_types k) ->
  struct_to_binary ua n k attrs = Ok (bs, obj') ->
  obj' = VObj k attrs
  /\ exists attrs',
       struct_from_binary ua (S (S m)) (PClass k) PBuffer (bs ++ rest)
       = Ok (VObj k attrs', rest)
       /\ (forall name, name ∈ (ua_types k).*1 -> attrs' !! name = attrs !! name)
       /\ (forall name, name ∉ (ua_types k).*1 ->
             attrs' !! name = klass_new ua k !! name).
Proof.
  intros Hsw Hrt. destruct n as [|n]; [discriminate|].
  cbn [struct_to_binary]. unfold set_switches. rewrite Hsw.
  unfold mbind, result_bind.
  destruct (foldlR _ _ _) as [[packet attrs1]|] eqn:Hf; [|discriminate].
  intros [= <- <-].
  destruct (fields_to_binary_primitive ua n k attrs (ua_types k) Hsw
              ltac:(eapply Forall_impl; [exact Hrt|]; intros f (st & -> & _); eauto)
              _ _ _ Hf) as (-> & bss & -> & HF).
  split; [reflexivity|]. cbn [app].
  destruct (fields_from_binary_primitive ua m k attrs (ua_types k) bss rest Hsw)
    with (acc := klass_new ua k) as (attrs' & Hd & Hin & Hout).
  - clear Hf. induction HF as [|f b fs bss (st & v & Hst & Hv & Hb) _ IH].
    + constructor.
    + apply Forall_cons in Hrt as [(st' & Hst' & Hu) Hrt].
      constructor; [|now apply IH].
      rewrite Hst in Hst'. injection Hst' as <-.
      exists st, v. repeat split; try assumption.
      intros tail. now apply Hu.
  - exists attrs'. split; [|split; assumption].
    cbn [struct_from_binary]. unfold mbind, dec_bind, mret, dec_ret.
    now rewrite Hd.
Qed.

Lemma struct_round_trip_witness :
  exists attrs',
    struct_from_binary ua0 2 (PClass Pair) PBuffer
      ([x05; x00; x00; x00; xff; xff; xff; xff] ++ [x09])
    = Ok (VObj Pair attrs', [x09])
    /\ (forall name, name ∈ (ua_types Pair).*1 ->
          attrs' !! name
          = (<["First" := VInt 5]> (<["Second" := VInt (-1)]> ∅)
               : gmap string val) !! name)
    /\ (forall name, name ∉ (ua_types Pair).*1 ->
          attrs' !! name = klass_new ua0 Pair !! name).
Proof.
  refine (proj2 (struct_round_trip ua0 2 0 Pair
                   (<["First" := VInt 5]> (<["Second" := VInt (-1)]> ∅))
                   [x05; x00; x00; x00; xff; xff; xff; xff] [x09] _
                   eq_refl _ eq_refl)).
  repeat constructor; exists Primitives.Int32; (split; [reflexivity|]);
    intros v b tail Hv Hb.
  - injection Hv as <-. now apply (Int32_unpack_packed (VInt 5)).
  - injection Hv as <-. now apply (Int32_unpack_packed (VInt (-1))).
Defined.

(** ** ExtensionObject: a registered object, encoded and decoded *)

Lemma to_binary_NodeId (ua : ua_package) (n : nat) (nid : NodeId) (y : bytes * val) :
  to_binary ua n (VNodeId nid) None = Ok y -> nodeid_to_binary nid = Ok (fst y).
Proof.
  destruct n as [|m]; [discriminate|]. cbn [to_binary mbind option_bind].
  unfold mbind, result_bind. destruct (nodeid_to_binary nid); [|discriminate].
  now intros [= <-].
Qed.

(** X21.  An instance of a registered class is written as the class's TypeId, the
    Encoding byte 1 and, only when its encoding is not empty, that encoding
    as a length-prefixed body.  The decoder then hands exactly the encoded
    body to the registered class and leaves the cursor after it.  When the
    encoding is empty no length is written although the Encoding byte
    announces a body: the decoder takes the next four bytes for the length,
    and fails when fewer follow. *)
Theorem extensionobject_registered_round_trip (ua : ua_package) (n : nat)
    (k klass : klass) (attrs : gmap string val) (TypeId : NodeId) (obj' : val)
    (bs rest : bytes) :
  extension_object_ids ua (k_name k) = Some TypeId ->
  ident_matches (NodeIdType TypeId) (NamespaceIndex TypeId) (Identifier TypeId)
  = true ->
  ident_is_zero (Identifier TypeId) = false ->
  extension_object_classes ua
    (mkNodeId (NodeIdType TypeId) (NamespaceIndex TypeId) (Identifier TypeId)
       (NamespaceUri (NodeId_new ua)) (ServerIndex (NodeId_new ua)))
  = Some klass ->
  extensionobject_to_binary ua (S n) (VObj k attrs) = Ok (bs, obj') ->
  exists t Body,
    nodeid_to_binary TypeId = Ok t
    /\ to_binary ua n (VObj k attrs) None = Ok (Body, obj')
    /\ (Body <> [] ->
        (exists h, Primitives.Int32_pack (Z.of_nat (length Body)) = Ok h
                   /\ bs = t ++ [x01] ++ h ++ Body)
        /\ extensionobject_from_binary ua (bs ++ rest)
           = lift (fst <$> klass_from_binary ua klass Body) rest)
    /\ (Body = [] ->
        bs = t ++ [x01]
        /\ ((length rest < 4)%nat ->
            extensionobject_from_binary ua (bs ++ rest) = Err NotEnoughData)).
Proof.
  intros Hid Hm Hz Hreg. cbn [extensionobject_to_binary class_name].
  rewrite Hid. unfold mbind, result_bind.
  destruct (to_binary ua n (VObj k attrs) None) as [[Body o]|] eqn:HB;
    [|discriminate].
  destruct (to_binary ua n (VNodeId TypeId) None) as [[t o2]|] eqn:Ht;
    [|discriminate].
  apply to_binary_NodeId in Ht. cbn [fst] in Ht.
  change (pack Primitives.UInt8 (VInt 1)) with (Ok [x01] : result bytes).
  cbv beta iota.
  assert (Hn : forall tail,
            nodeid_from_binary ua (t ++ x01 :: tail)
            = Ok (mkNodeId (NodeIdType TypeId) (NamespaceIndex TypeId)
                    (Identifier TypeId) (NamespaceUri (NodeId_new ua))
                    (ServerIndex (NodeId_new ua)), x01 :: tail))
    by (intros tail; now apply nodeid_to_binary_from_binary).
  destruct Body as [|b0 Body].
  - intros [= <- <-]. exists t, []. split; [assumption|]. split; [reflexivity|].
    split; [congruence|]. intros _. split; [reflexivity|]. intros Hlen.
    rewrite <- app_assoc. cbn [app].
    rewrite (extensionobject_from_binary_head ua _ _ _ _ (Hn rest)).
    unfold mbind, dec_bind. change (Z.land (byte_val x01) 1 =? 0) with false.
    cbv iota. unfold Primitives.Int32_unpack, unpack_sint, mbind, dec_bind.
    unfold Buffer_read. cbn [Z.of_nat Z.ltb Z.compare orb].
    destruct (Z.ltb_spec (Z.of_nat (length rest)) (Z.of_nat 4)); [reflexivity|lia].
  - cbn [pack Primitives.Bytes Primitives.String_pack]. unfold mbind, result_bind.
    destruct (Primitives.Int32_pack _) as [h|] eqn:Hh; [|discriminate].
    intros [= <- <-]. exists t, (b0 :: Body). split; [assumption|].
    split; [reflexivity|]. split; [|discriminate]. intros _. split; [eauto|].
    rewrite <- app_assoc. cbn [app]. rewrite <- app_assoc.
    rewrite (extensionobject_from_binary_head ua _ _ _ _ (Hn _)).
    unfold mbind, dec_bind. change (Z.land (byte_val x01) 1 =? 0) with false.
    cbv beta iota. rewrite (Int32_pack_unpack _ _ _ Hh).
    destruct (Z.ltb_spec (Z.of_nat (length (b0 :: Body))) 1);
      [cbn [length] in *; lia|].
    unfold Buffer_copy. rewrite Buffer_skip_enough by (rewrite length_app; lia).
    rewrite Nat2Z.id.
    change (b0 :: Body ++ rest) with ((b0 :: Body) ++ rest).
    rewrite take_app_length, drop_app_length.
    unfold mret, dec_ret. cbn [Identifier]. rewrite Hz, Hreg. reflexivity.
Qed.

Lemma extensionobject_registered_round_trip_witness :
  exists t Body,
    nodeid_to_binary (mkNodeId NodeIdType.TwoByte 0 (IdInt 5) None None) = Ok t
    /\ to_binary ua1 3 (VObj Switched (masked 0 VNone)) None
       = Ok (Body, VObj Switched (masked 0 VNone))
    /\ (Body <> [] ->
        (exists h, Primitives.Int32_pack (Z.of_nat (length Body)) = Ok h
                   /\ [x00; x05; x01; x01; x00; x00; x00; x00]
                      = t ++ [x01] ++ h ++ Body)
        /\ extensionobject_from_binary ua1
             ([x00; x05; x01; x01; x00; x00; x00; x00] ++ [x09])
           = lift (fst <$> klass_from_binary ua1 Switched Body) [x09])
    /\ (Body = [] ->
        [x00; x05; x01; x01; x00; x00; x00; x00] = t ++ [x01]
        /\ ((length [x09] < 4)%nat ->
            extensionobject_from_binary ua1
              ([x00; x05; x01; x01; x00; x00; x00; x00] ++ [x09])
            = Err NotEnoughData)).
Proof.
  apply (extensionobject_registered_round_trip ua1 3 Switched Switched
           (masked 0 VNone) (mkNodeId NodeIdType.TwoByte 0 (IdInt 5) None None)
           (VObj Switched (masked 0 VNone))
           [x00; x05; x01; x01; x00; x00; x00; x00] [x09]); reflexivity.
Defined.

(** ** Booleans and application-defined kinds *)

(** X22.  The Boolean codec on integers and booleans: the value is written as
    one byte, 1 when it is not zero and 0 when it is, and reads back as the
    boolean that says whether it was not zero; on the reading side every
    byte that is not zero is true. *)
Theorem boolean_codec_normalises (v : val) (z : Z) (b : byte) (rest : bytes) :
  int_of v = Some z ->
  (exists bs, pack Primitives.Boolean v = Ok bs /\ length bs = 1%nat
     /\ unpack Primitives.Boolean (bs ++ rest)
        = Ok (VBool (negb (z =? 0)), rest))
  /\ unpack Primitives.Boolean (b :: rest)
     = Ok (VBool (negb (byte_val b =? 0)), rest).
Proof.
  intros Hv.
  assert (Hu : forall c tail,
            unpack Primitives.Boolean (c :: tail)
            = Ok (VBool (negb (byte_val c =? 0)), tail)).
  { intros c tail. cbn [unpack Primitives.Boolean]. unfold mbind, dec_bind.
    change (c :: tail) with ([c] ++ tail).
    rewrite (unpack_uint_app 1 [c] tail eq_refl). cbn [le_val].
    now rewrite Z.mul_0_r, Z.add_0_r. }
  split; [|apply Hu].
  eexists. split; [reflexivity|]. split; [reflexivity|].
  cbn [app]. rewrite Hu.
  destruct v as [|c|n| | | | | | | | | | | | |]; try discriminate;
    injection Hv as <-; cbn [truthy].
  - now destruct c.
  - now destruct (Z.eqb_spec n 0).
Qed.

Lemma boolean_codec_normalises_witness :
  (exists bs, pack Primitives.Boolean (VInt 5) = Ok bs /\ length bs = 1%nat
     /\ unpack Primitives.Boolean (bs ++ [x09]) = Ok (VBool true, [x09]))
  /\ unpack Primitives.Boolean (x02 :: [x09]) = Ok (VBool true, [x09]).
Proof.
  exact (boolean_codec_normalises (VInt 5) 5 x02 [x09] eq_refl).
Defined.

Lemma Bytes_pack_unpack (b bs rest : bytes) :
  pack Primitives.Bytes (VBytes b) = Ok bs ->
  unpack Primitives.Bytes (bs ++ rest) = Ok (VBytes b, rest).
Proof.
  cbn [pack unpack Primitives.Bytes]. intros Hp.
  pose proof (String_unpack_packed (VBytes b) bs rest Hp) as Hu. cbn in Hu.
  unfold fmap, dec_fmap. now rewrite Hu.
Qed.

(** X23.  A value of a VariantType that is no primitive kind and whose ordinal is
    above 25 travels as a byte string in both directions: a bytes value of
    such a kind is packed with its length in front and unpacks to the same
    bytes, no class of the package being consulted. *)
Theorem custom_vtype_travels_as_bytes (ua : ua_package) (n : nat) (vt : vtype)
    (b rest : bytes) :
  Primitives_getattr ua (vt_name vt) = None ->
  25 < vt_value vt ->
  Z.of_nat (length b) < 2 ^ 31 ->
  exists h,
    Primitives.Int32_pack (Z.of_nat (length b)) = Ok h
    /\ pack_uatype ua (S n) vt (VBytes b) = Ok (h ++ b, VBytes b)
    /\ unpack_uatype ua vt ((h ++ b) ++ rest) = Ok (VBytes b, rest).
Proof.
  intros Hp Hv Hlen. rewrite (Int32_pack_length _ Hlen). eexists.
  split; [reflexivity|]. cbn [pack_uatype]. unfold unpack_uatype. rewrite Hp.
  destruct (Z.ltb_spec 25 (vt_value vt)); [|lia].
  assert (Hb : pack Primitives.Bytes (VBytes b)
               = Ok (le_bytes 4 (Z.of_nat (length b) mod 2 ^ bits_of 4) ++ b)).
  { cbn [pack Primitives.Bytes Primitives.String_pack].
    now rewrite (Int32_pack_length _ Hlen). }
  unfold mbind, result_bind. rewrite Hb. split; [reflexivity|].
  now apply Bytes_pack_unpack.
Qed.

Lemma custom_vtype_travels_as_bytes_witness :
  exists h,
    Primitives.Int32_pack (Z.of_nat (length [x0a; x0b])) = Ok h
    /\ pack_uatype ua0 1 (mkVtype "Colour" 30) (VBytes [x0a; x0b])
       = Ok (h ++ [x0a; x0b], VBytes [x0a; x0b])
    /\ unpack_uatype ua0 (mkVtype "Colour" 30) ((h ++ [x0a; x0b]) ++ [x09])
       = Ok (VBytes [x0a; x0b], [x09]).
Proof.
  apply (custom_vtype_travels_as_bytes ua0 0 (mkVtype "Colour" 30)
           [x0a; x0b] [x09]).
  - reflexivity.
  - reflexivity.
  - cbn. lia.
Defined.

(** ** Lists of primitive elements *)

Lemma mapR_to_binary_primitive (ua : ua_package) (n : nat) (T : string)
    (st : codec) (l : list val) (r : list (bytes * val)) :
  Primitives_getattr ua T = Some st ->
  mapR (fun el => to_binary ua n el (Some T)) l = Ok r ->
  mapR (pack st) l = Ok (fst <$> r) /\ snd <$> r = l.
Proof.
  intros Hst. revert r. induction l as [|x l IH]; intros r; cbn [mapR].
  - now intros [= <-].
  - destruct (to_binary ua n x (Some T)) as [y|] eqn:Hy; [|discriminate].
    destruct (mapR _ l) as [ys|]; [|discriminate].
    intros [= <-]. destruct (IH ys eq_refl) as [-> Hs].
    destruct n as [|m]; [discriminate|]. cbn [to_binary mbind option_bind] in Hy.
    rewrite Hst in Hy. unfold mbind, result_bind in Hy.
    destruct (pack st x) as [b|]; [|discriminate].
    injection Hy as <-. cbn [fmap list_fmap fst snd]. split; [reflexivity|].
    f_equal. exact Hs.
Qed.

(** X24.  A list field of a primitive element kind is written in the wire
    format of the primitive array codec: whenever [list_to_binary] succeeds
    on an absent value, a list or a tuple, its bytes are those of the
    kind's [pack_array], and the value is left as it was. *)
Theorem list_to_binary_is_primitive_array (ua : ua_package) (fuel : nat)
    (T : string) (st : codec) (value value' : val) (bs : bytes) :
  Primitives_getattr ua T = Some st ->
  list_to_binary ua fuel value T = Ok (bs, value') ->
  Primitives.pack_array st value = Ok bs /\ value' = value.
Proof.
  intros Hst. destruct fuel as [|n]; [discriminate|].
  cbn [list_to_binary]. unfold Primitives.pack_array, mbind, result_bind.
  destruct value as [| | |s|b|l|l| | | | | | | | |]; try discriminate;
    cbn [as_seq same_seq].
  1:{ change (Primitives.Int32_pack (-1)) with (Ok ABSENT). now intros [= <- <-]. }
  all: destruct (Primitives.Int32_pack _) as [h|]; [|discriminate];
    match goal with
    | |- context [mapR ?f ?l] =>
        destruct (mapR f l) as [r|] eqn:Hr; [|discriminate];
        destruct (mapR_to_binary_primitive ua _ T st l r Hst Hr) as [-> Hs]
    end;
    try rewrite Hs; now intros [= <- <-].
Qed.

Lemma list_to_binary_is_primitive_array_witness :
  Primitives.pack_array Primitives.Int32 (VList [VInt 1; VInt 2])
  = Ok [x02; x00; x00; x00; x01; x00; x00; x00; x02; x00; x00; x00]
  /\ VList [VInt 1; VInt 2] = VList [VInt 1; VInt 2].
Proof.
  exact (list_to_binary_is_primitive_array ua0 2 "Int32" Primitives.Int32
           (VList [VInt 1; VInt 2]) (VList [VInt 1; VInt 2]) _ eq_refl eq_refl).
Defined.
